(** * Mail.tm command-line client (src/mail.py): model and checked properties

    The client is modelled as a shallow embedding of its Python code:
    - Python values that come out of [response.json()] / [json.load] are
      JSON trees ([json]); a Python [dict] is an association list in
      insertion order, [None] is [JNull];
    - every function of [mail.py] is a computation in the monad [M]: it
      threads the observable state (the files, the lines printed, the HTTP
      requests sent, the lines typed by the user) and either returns a value
      or raises a Python exception;
    - what the program cannot control (the HTTP server, the random
      generator, I/O faults of the file system, the [int] and [str]
      builtins) is collected in a [world] the functions read from. *)

From Stdlib Require Import ZArith String Ascii List Bool Lia.
From Stdlib Require Import DecimalString DecimalZ.
From stdpp Require Import base option list strings gmap.

Local Open Scope string_scope.
Local Open Scope list_scope.
Local Open Scope Z_scope.

(* ===================================================================== *)
(** ** Python values *)
(* ===================================================================== *)

Module Py.

(** The values [json.load] and [response.json()] can build.  Numbers are
    Python [int]s (unbounded); a [dict] keeps its insertion order. *)
Unset Elimination Schemes.
Inductive json : Type :=
| JNull
| JBool (b : bool)
| JNum (n : Z)
| JStr (s : string)
| JArr (l : list json)
| JObj (d : list (string * json)).
Set Elimination Schemes.

(** Exceptions the program can meet.  The first three are subclasses of
    [requests.exceptions.RequestException]. *)
Inductive exn : Type :=
| ConnectionError (msg : string)   (* no response object exists *)
| HTTPError (msg : string)         (* raise_for_status() *)
| InvalidJSON (msg : string)       (* requests.exceptions.JSONDecodeError *)
| KeyError (key : string)
| TypeError
| IndexError
| AttributeError
| ValueError
| EOFError
| UnboundLocalError (name : string)
| FileNotFoundError (msg : string)
| OSError (msg : string)           (* any other I/O error *)
| JSONDecodeError.                 (* json.JSONDecodeError from json.load *)

Definition is_RequestException (e : exn) : bool :=
  match e with
  | ConnectionError _ | HTTPError _ | InvalidJSON _ => true
  | _ => false
  end.

(** [json.JSONDecodeError] is the only exception here that the handler
    [except json.JSONDecodeError] of [load_accounts_from_json] matches;
    [requests]' own decode error never reaches that function. *)
Definition is_JSONDecodeError (e : exn) : bool :=
  match e with JSONDecodeError => true | _ => false end.

Definition is_FileNotFoundError (e : exn) : bool :=
  match e with FileNotFoundError _ => true | _ => false end.

(** [str(e)], as interpolated by [f"...{e}"]. *)
Definition exn_str (e : exn) : string :=
  match e with
  | ConnectionError m | HTTPError m | InvalidJSON m => m
  | FileNotFoundError m | OSError m => m
  | KeyError k => "'" +:+ k +:+ "'"
  | UnboundLocalError x =>
      "cannot access local variable '" +:+ x
        +:+ "' where it is not associated with a value"
  | _ => EmptyString
  end.

Inductive result (A : Type) : Type :=
| Ret (a : A)
| Raise (e : exn).
Arguments Ret {A} a.
Arguments Raise {A} e.

(** *** Dictionaries *)

Fixpoint dict_get (k : string) (d : list (string * json)) : option json :=
  match d with
  | [] => None
  | (k', v) :: d' => if String.eqb k k' then Some v else dict_get k d'
  end.

(** [d[k] = v]: the value is replaced where the key stands, a new key goes
    to the end. *)
Fixpoint dict_set (k : string) (v : json) (d : list (string * json))
  : list (string * json) :=
  match d with
  | [] => [(k, v)]
  | (k', v') :: d' =>
      if String.eqb k k' then (k', v) :: d' else (k', v') :: dict_set k v d'
  end.

Definition dict_mem (k : string) (d : list (string * json)) : bool :=
  match dict_get k d with Some _ => true | None => false end.

(** *** Operators of the language, on JSON-born values *)

(** [bool(v)] *)
Definition truthy (v : json) : bool :=
  match v with
  | JNull => false
  | JBool b => b
  | JNum n => negb (Z.eqb n 0)
  | JStr s => negb (String.eqb s EmptyString)
  | JArr l => match l with [] => false | _ => true end
  | JObj d => match d with [] => false | _ => true end
  end.

(** [v[k]] for a string key [k] *)
Definition getitem (v : json) (k : string) : result json :=
  match v with
  | JObj d => match dict_get k d with
              | Some x => Ret x
              | None => Raise (KeyError k)
              end
  | _ => Raise TypeError
  end.

(** [v[k] = x] for a string key [k]; gives the updated value *)
Definition setitem (v : json) (k : string) (x : json) : result json :=
  match v with
  | JObj d => Ret (JObj (dict_set k x d))
  | _ => Raise TypeError
  end.

Fixpoint chars (s : string) : list json :=
  match s with
  | EmptyString => []
  | String c s' => JStr (String c EmptyString) :: chars s'
  end.

(** the elements a [for] loop or a comprehension goes through *)
Definition iter (v : json) : result (list json) :=
  match v with
  | JArr l => Ret l
  | JObj d => Ret (map (fun kv => JStr (fst kv)) d)
  | JStr s => Ret (chars s)
  | _ => Raise TypeError
  end.

Definition is_str (k : string) (v : json) : bool :=
  match v with JStr s => String.eqb s k | _ => false end.

Definition substring_of (k s : string) : bool :=
  match String.index 0 k s with Some _ => true | None => false end.

(** [k in v] for a string [k] *)
Definition contains (k : string) (v : json) : result bool :=
  match v with
  | JObj d => Ret (dict_mem k d)
  | JArr l => Ret (existsb (is_str k) l)
  | JStr s => Ret (substring_of k s)
  | _ => Raise TypeError
  end.

(** [len(v)] *)
Definition len (v : json) : result Z :=
  match v with
  | JArr l => Ret (Z.of_nat (length l))
  | JObj d => Ret (Z.of_nat (length d))
  | JStr s => Ret (Z.of_nat (String.length s))
  | _ => Raise TypeError
  end.

Definition string_of_Z (z : Z) : string :=
  NilZero.string_of_int (Z.to_int z).

(** [v[i]] for an integer [i] *)
Definition index (v : json) (i : Z) : result json :=
  match v with
  | JArr l =>
      let n := Z.of_nat (length l) in
      let j := if i <? 0 then i + n else i in
      if (0 <=? j) && (j <? n)
      then match nth_error l (Z.to_nat j) with
           | Some x => Ret x
           | None => Raise IndexError
           end
      else Raise IndexError
  | JStr s =>
      let n := Z.of_nat (String.length s) in
      let j := if i <? 0 then i + n else i in
      if (0 <=? j) && (j <? n)
      then match String.get (Z.to_nat j) s with
           | Some c => Ret (JStr (String c EmptyString))
           | None => Raise IndexError
           end
      else Raise IndexError
  | JObj _ => Raise (KeyError (string_of_Z i))
  | _ => Raise TypeError
  end.

End Py.
Export Py.

(* ===================================================================== *)
(** ** The world outside the program, and the state it observes *)
(* ===================================================================== *)

Inductive method := GET | POST.

(** What [requests.get] / [requests.post] are called with. *)
Record request := mkRequest {
  req_method : method;
  req_url : string;
  req_headers : list (string * string);
  req_json : option json;
}.

(** The body of a response as [response.json()] sees it. *)
Inductive body :=
| NotJson (err : string)   (* decoding fails with this message *)
| Json (v : json).

Record response := mkResponse {
  status_code : Z;
  reason : string;
  resp_url : string;
  resp_body : body;
}.

(** One round trip: either no response ever exists (connection refused,
    DNS failure, timeout: [requests] raises before returning), or the
    server answered. *)
Inductive http_outcome :=
| ConnFail (msg : string)
| Resp (r : response).

(** How an [open(filename, 'w')] followed by [json.dump] can end. *)
Inductive write_outcome :=
| WriteOK
| OpenFails (e : exn)                (* nothing touched *)
| FailsAfter (n : nat) (e : exn).    (* truncated, then [n] characters written *)

Record world := mkWorld {
  net : request -> http_outcome;
  rand : nat -> nat;                      (* the i-th random draw *)
  read_fault : string -> option exn;      (* [open(f)] / [read] raising *)
  write_fault : nat -> write_outcome;     (* fate of the i-th write *)
  int_of_str : string -> option Z;        (* the builtin [int(s)] *)
  repr : json -> string;                  (* [str] of a list or dict *)
}.

Record state := mkState {
  fs : gmap string string;   (* the files: name ↦ text *)
  out : list string;         (* lines printed so far, oldest first *)
  reqs : list request;       (* HTTP requests sent so far, oldest first *)
  stdin : list string;       (* lines the user will type *)
  draws : nat;               (* random draws made so far *)
  writes : nat;              (* file writes attempted so far *)
}.

Definition set_fs (f : gmap string string → gmap string string) (s : state) :=
  mkState (f (fs s)) (out s) (reqs s) (stdin s) (draws s) (writes s).
Definition set_out (f : list string → list string) (s : state) :=
  mkState (fs s) (f (out s)) (reqs s) (stdin s) (draws s) (writes s).
Definition set_reqs (f : list request → list request) (s : state) :=
  mkState (fs s) (out s) (f (reqs s)) (stdin s) (draws s) (writes s).
Definition set_stdin (f : list string → list string) (s : state) :=
  mkState (fs s) (out s) (reqs s) (f (stdin s)) (draws s) (writes s).
Definition set_draws (f : nat → nat) (s : state) :=
  mkState (fs s) (out s) (reqs s) (stdin s) (f (draws s)) (writes s).
Definition set_writes (f : nat → nat) (s : state) :=
  mkState (fs s) (out s) (reqs s) (stdin s) (draws s) (f (writes s)).

(* ===================================================================== *)
(** ** The monad of Python computations *)
(* ===================================================================== *)

Definition M (A : Type) : Type := state → result A * state.

Definition ret {A} (a : A) : M A := λ s, (Ret a, s).
Definition raise {A} (e : exn) : M A := λ s, (Raise e, s).
Definition bind {A B} (m : M A) (k : A → M B) : M B :=
  λ s, match m s with
       | (Ret a, s') => k a s'
       | (Raise e, s') => (Raise e, s')
       end.
Definition lift {A} (r : result A) : M A := λ s, (r, s).

Declare Scope py_scope.
Delimit Scope py_scope with py.
Notation "x <- m ;; k" := (bind m (λ x, k))
  (at level 100, m at next level, right associativity) : py_scope.
Notation "m ;;; k" := (bind m (λ _, k))
  (at level 100, right associativity) : py_scope.
Local Open Scope py_scope.

(** [try: m except C as e: h e]: [h] runs when [m] raises an exception of
    class [C]; an exception raised by [h] itself is not caught. *)
Definition try_except {A} (m : M A) (C : exn → bool) (h : exn → M A) : M A :=
  λ s, match m s with
       | (Raise e, s') => if C e then h e s' else (Raise e, s')
       | r => r
       end.

(** A [try] block whose first statement binds a local variable:
    [try: x = m; k x  except C as e: h (binding of x) e].
    The handler sees [x] unbound when [m] itself raised. *)
Definition try_binding {A B} (m : M A) (k : A → M B) (C : exn → bool)
    (h : option A → exn → M B) : M B :=
  λ s, match m s with
       | (Raise e, s') => if C e then h None e s' else (Raise e, s')
       | (Ret x, s') => try_except (k x) C (h (Some x)) s'
       end.

(** Reading a local variable that may not have been assigned. *)
Definition local {A} (name : string) (x : option A) : M A :=
  match x with
  | Some a => ret a
  | None => raise (UnboundLocalError name)
  end.

Definition when (b : bool) (m : M unit) : M unit :=
  if b then m else ret tt.

(** [for x in l: f x] *)
Fixpoint for_each {A} (l : list A) (f : A → M unit) : M unit :=
  match l with
  | [] => ret tt
  | x :: l' => f x ;;; for_each l' f
  end.

(** [[f x for x in l]] *)
Fixpoint comprehension {A B} (l : list A) (f : A → M B) : M (list B) :=
  match l with
  | [] => ret []
  | x :: l' => y <- f x ;; ys <- comprehension l' f ;; ret (y :: ys)
  end.

(** *** Primitive effects *)

Definition print (line : string) : M unit :=
  λ s, (Ret tt, set_out (λ o, o ++ [line]) s).

(** [input(prompt)]: the prompt is written, one line is read. *)
Definition input (prompt : string) : M string :=
  λ s, match stdin s with
       | [] => (Raise EOFError, set_out (λ o, o ++ [prompt]) s)
       | l :: ls =>
           (Ret l, set_stdin (λ _, ls) (set_out (λ o, o ++ [prompt]) s))
       end.

Definition int (w : world) (t : string) : M Z :=
  match int_of_str w t with
  | Some z => ret z
  | None => raise ValueError
  end.

(** [str(v)] as an f-string interpolates it. *)
Definition fmt (w : world) (v : json) : string :=
  match v with
  | JStr s => s
  | JNull => "None"
  | JBool true => "True"
  | JBool false => "False"
  | JNum n => string_of_Z n
  | _ => repr w v
  end.

(** [random.choice(seq)] on a non-empty sequence. *)
Definition random_choice (w : world) (seq : list ascii) : M ascii :=
  λ s, match nth_error seq (rand w (draws s) mod length seq)%nat with
       | Some c => (Ret c, set_draws S s)
       | None => (Raise IndexError, s)
       end.

(* ===================================================================== *)
(** ** The [requests] calls the client makes *)
(* ===================================================================== *)

(** The request is sent (and logged); a connection-level failure raises
    before any response object exists. *)
Definition send (w : world) (r : request) : M response :=
  λ s, let s' := set_reqs (λ l, l ++ [r]) s in
       match net w r with
       | ConnFail msg => (Raise (ConnectionError msg), s')
       | Resp resp => (Ret resp, s')
       end.

Definition requests_get (w : world) (url : string)
    (headers : list (string * string)) : M response :=
  send w (mkRequest GET url headers None).

Definition requests_post (w : world) (url : string)
    (headers : list (string * string)) (payload : json) : M response :=
  send w (mkRequest POST url headers (Some payload)).

Definition http_error_msg (kind : string) (r : response) : string :=
  string_of_Z (status_code r) +:+ " " +:+ kind +:+ ": " +:+ reason r
    +:+ " for url: " +:+ resp_url r.

(** [response.raise_for_status()] *)
Definition raise_for_status (r : response) : M unit :=
  if (400 <=? status_code r) && (status_code r <? 500)
  then raise (HTTPError (http_error_msg "Client Error" r))
  else if (500 <=? status_code r) && (status_code r <? 600)
  then raise (HTTPError (http_error_msg "Server Error" r))
  else ret tt.

(** [response.json()]; its decoding error is a [RequestException]
    (requests 2.27 and later). *)
Definition response_json (r : response) : M json :=
  match resp_body r with
  | Json v => ret v
  | NotJson err => raise (InvalidJSON err)
  end.

(* ===================================================================== *)
(** ** class MailTmAPI *)
(* ===================================================================== *)

Record MailTmAPI := mkMailTmAPI { base_url : string }.

(** [MailTmAPI()] *)
Definition MailTmAPI_default : MailTmAPI := mkMailTmAPI "https://api.mail.tm".

Section Client.
Variable w : world.
Variable self : MailTmAPI.

Definition get_domains : M json :=
  try_except
    (response <- requests_get w (base_url self +:+ "/domains") [] ;;
     raise_for_status response ;;;
     data <- response_json response ;;
     members <- lift (getitem data "hydra:member") ;;
     elements <- lift (iter members) ;;
     domains <- comprehension elements
                  (λ domain, lift (getitem domain "domain")) ;;
     ret (JArr domains))
    is_RequestException
    (λ e, print ("Error fetching domains: " +:+ exn_str e) ;;;
          ret JNull).

Definition json_headers : list (string * string) :=
  [("Content-Type", "application/json")].

Definition credentials (address : string) (password : string) : json :=
  JObj [("address", JStr address); ("password", JStr password)].

Definition get_token (address password : string) : M json :=
  let payload := credentials address password in
  let headers := json_headers in
  try_except
    (response <- requests_post w (base_url self +:+ "/token") headers payload ;;
     raise_for_status response ;;;
     token_data <- response_json response ;;
     ret token_data)
    is_RequestException
    (λ e, print ("Error getting token: " +:+ exn_str e) ;;;
          ret JNull).

Definition create_account (username password : string) (domain : json)
  : M json :=
  let address := username +:+ "@" +:+ fmt w domain in
  let payload := credentials address password in
  let headers := json_headers in
  try_binding
    (requests_post w (base_url self +:+ "/accounts") headers payload)
    (λ response,
       raise_for_status response ;;;
       account_data <- response_json response ;;
       token_response <- get_token address password ;;
       has_token <- (if truthy token_response
                     then lift (contains "token" token_response)
                     else ret false) ;;
       if has_token
       then
         tok <- lift (getitem token_response "token") ;;
         account_data <- lift (setitem account_data "token" tok) ;;
         account_data <- lift (setitem account_data "address" (JStr address)) ;;
         ret account_data
       else
         print "Error getting token after account creation." ;;;
         ret JNull)
    is_RequestException
    (λ response e,
       print ("Error creating account: " +:+ exn_str e) ;;;
       r <- local "response" response ;;
       when (status_code r =? 422)
         (print "Account creation failed. Possible issues: Username too short, invalid domain, or username already taken.") ;;;
       ret JNull).

Definition bearer (token : json) : list (string * string) :=
  [("Authorization", "Bearer " +:+ fmt w token)].

Definition get_messages (token : json) : M json :=
  let headers := bearer token in
  try_binding
    (requests_get w (base_url self +:+ "/messages") headers)
    (λ response,
       raise_for_status response ;;;
       messages_data <- response_json response ;;
       messages <- lift (getitem messages_data "hydra:member") ;;
       ret messages)
    is_RequestException
    (λ response e,
       print ("Error fetching messages: " +:+ exn_str e) ;;;
       r <- local "response" response ;;
       when (status_code r =? 401)
         (print "Authentication failed. Invalid token.") ;;;
       ret JNull).

Definition get_message_content (token : json) (message_id : string) : M json :=
  let headers := bearer token in
  try_binding
    (requests_get w (base_url self +:+ "/messages/" +:+ message_id) headers)
    (λ response,
       raise_for_status response ;;;
       message_content <- response_json response ;;
       ret message_content)
    is_RequestException
    (λ response e,
       print ("Error fetching message content for ID " +:+ message_id
                +:+ ": " +:+ exn_str e) ;;;
       r <- local "response" response ;;
       when (status_code r =? 401)
         (print "Authentication failed. Invalid token.") ;;;
       when (status_code r =? 404)
         (print "Message not found.") ;;;
       ret JNull).

End Client.

(* ===================================================================== *)
(** ** Random credentials *)
(* ===================================================================== *)

Module PyString.
Definition ascii_lowercase : string := "abcdefghijklmnopqrstuvwxyz".
Definition ascii_uppercase : string := "ABCDEFGHIJKLMNOPQRSTUVWXYZ".
Definition ascii_letters : string := ascii_lowercase +:+ ascii_uppercase.
Definition digits : string := "0123456789".
(** [string.punctuation]; its second character is the double quote. *)
Definition punctuation : string :=
  "!" +:+ String (ascii_of_nat 34) "#$%&'()*+,-./:;<=>?@[\]^_`{|}~".
End PyString.

Section Generators.
Variable w : world.

(** [''.join(random.choice(characters) for i in range(n))] *)
Fixpoint random_string (characters : list ascii) (n : nat) : M string :=
  match n with
  | O => ret EmptyString
  | S n' =>
      c <- random_choice w characters ;;
      rest <- random_string characters n' ;;
      ret (String c rest)
  end.

Definition generate_random_username (length : Z) : M string :=
  let characters := PyString.ascii_lowercase +:+ PyString.digits in
  random_string (list_ascii_of_string characters) (Z.to_nat length).

Definition generate_strong_password (length : Z) : M string :=
  let characters :=
    PyString.ascii_letters +:+ PyString.digits +:+ PyString.punctuation in
  let length := if length <? 8 then 8 else length in
  random_string (list_ascii_of_string characters) (Z.to_nat length).

End Generators.

(* ===================================================================== *)
(** ** The [json] module and the accounts file *)
(* ===================================================================== *)

(** The two functions of Python's [json] module the program calls, with
    the two facts about them the store relies on. *)
Class JsonModule := {
  (** the text [json.dump(v, f, indent=4)] writes *)
  dumps : json → string;
  (** [json.load]: [None] stands for [json.JSONDecodeError] *)
  loads : string → option json;
  loads_dumps : ∀ v, loads (dumps v) = Some v;
  loads_empty : loads EmptyString = None;
}.

Section Store.
Context `{JsonModule}.
Variable w : world.

Definition os_path_exists (filename : string) : M bool :=
  λ s, (Ret (bool_decide (is_Some (fs s !! filename))), s).

(** [with open(filename, 'r') as f: ... f.read() ...] *)
Definition read_file (filename : string) : M string :=
  λ s, match read_fault w filename with
       | Some e => (Raise e, s)
       | None =>
           match fs s !! filename with
           | Some text => (Ret text, s)
           | None => (Raise (FileNotFoundError filename), s)
           end
       end.

Definition json_load (text : string) : M json :=
  match loads text with
  | Some v => ret v
  | None => raise JSONDecodeError
  end.

(** [with open(filename, 'w') as f: json.dump(v, f, indent=4)]:
    opening for writing truncates the file before anything is written. *)
Definition write_json (filename : string) (v : json) : M unit :=
  λ s, let s1 := set_writes S s in
       match write_fault w (writes s) with
       | WriteOK => (Ret tt, set_fs (<[filename := dumps v]>) s1)
       | OpenFails e => (Raise e, s1)
       | FailsAfter n e =>
           (Raise e,
            set_fs (<[filename := String.substring 0 n (dumps v)]>) s1)
       end.

(** [try: m] followed by several [except] clauses: the first clause whose
    class matches handles the exception. *)
Fixpoint handle {A} (clauses : list ((exn → bool) * (exn → M A))) (e : exn)
  : M A :=
  match clauses with
  | [] => raise e
  | (C, h) :: rest => if C e then h e else handle rest e
  end.

Definition try_clauses {A} (m : M A)
    (clauses : list ((exn → bool) * (exn → M A))) : M A :=
  λ s, match m s with
       | (Raise e, s') => handle clauses e s'
       | r => r
       end.

Definition is_Exception (e : exn) : bool := true.

Definition load_accounts_from_json (filename : string) : M json :=
  found <- os_path_exists filename ;;
  if negb found then ret (JArr [])
  else
    try_clauses
      (text <- read_file filename ;;
       accounts <- json_load text ;;
       ret accounts)
      [ (is_FileNotFoundError, λ _, ret (JArr []));
        (is_JSONDecodeError,
         λ _, print "Warning: JSON file is empty or corrupted. Returning empty account list." ;;;
              ret (JArr []));
        (is_Exception,
         λ e, print ("Error loading accounts from JSON: " +:+ exn_str e) ;;;
              ret (JArr [])) ].

(** [accounts.append(x)]: only a list has the method. *)
Definition list_append (accounts x : json) : M json :=
  match accounts with
  | JArr l => ret (JArr (l ++ [x]))
  | _ => raise AttributeError
  end.

Definition save_account_to_json (account_data : json) (filename : string)
  : M unit :=
  accounts <- load_accounts_from_json filename ;;
  accounts <- list_append accounts account_data ;;
  try_except
    (write_json filename accounts ;;;
     print ("Account saved to " +:+ filename))
    is_Exception
    (λ e, print ("Error saving account to JSON: " +:+ exn_str e)).

End Store.

(* ===================================================================== *)
(** ** The interactive loop *)
(* ===================================================================== *)

(** The newline a Python literal writes as backslash-n. *)
Definition nl : string := String (ascii_of_nat 10) EmptyString.

(** [c.isspace()], for the code points below 256 *)
Definition is_space (c : ascii) : bool :=
  let n := nat_of_ascii c in
  ((9 <=? n) && (n <=? 13) || (28 <=? n) && (n <=? 32)
   || (n =? 133) || (n =? 160))%nat.

Fixpoint lstrip (s : string) : string :=
  match s with
  | String c s' => if is_space c then lstrip s' else s
  | EmptyString => s
  end.

Fixpoint rstrip (s : string) : string :=
  match s with
  | String c s' =>
      match rstrip s' with
      | EmptyString => if is_space c then EmptyString else String c EmptyString
      | t => String c t
      end
  | EmptyString => s
  end.

(** [s.strip()] *)
Definition strip (s : string) : string := rstrip (lstrip s).

(** [enumerate(l)] *)
Fixpoint enumerate_from {A} (i : Z) (l : list A) : list (Z * A) :=
  match l with
  | [] => []
  | x :: l' => (i, x) :: enumerate_from (i + 1) l'
  end.
Definition enumerate {A} (l : list A) : list (Z * A) := enumerate_from 0 l.

(** How an iteration of [while True] ends. *)
Inductive flow := Continue | Break.

Section Main.
Context `{JsonModule}.
Variable w : world.
Variable mailtm_api : MailTmAPI.
Variable accounts_filename : string.

Definition dashes : string := "--------------------".

(** The "common message retrieval section".  [token] is the local variable
    of [main], [None] when it is not in [locals()]; the result is its
    binding afterwards ([del token] unbinds it). *)
Definition message_section (token : option json) : M (option json) :=
  match token with
  | None => ret None
  | Some tok =>
    if negb (truthy tok) then ret (Some tok)
    else
      print (nl +:+ "Checking for new messages...") ;;;
      messages <- get_messages w mailtm_api tok ;;
      (match messages with
       | JNull => print "Failed to retrieve message list."
       | _ =>
         if truthy messages then
           print (nl +:+ "--- Messages ---") ;;;
           msgs <- lift (iter messages) ;;
           for_each msgs (λ msg,
             id <- lift (getitem msg "id") ;;
             print ("Message ID: " +:+ fmt w id) ;;;
             from <- lift (getitem msg "from") ;;
             addr <- lift (getitem from "address") ;;
             print ("From: " +:+ fmt w addr) ;;;
             subject <- lift (getitem msg "subject") ;;
             print ("Subject: " +:+ fmt w subject) ;;;
             intro <- lift (getitem msg "intro") ;;
             print ("Intro: " +:+ fmt w intro) ;;;
             print dashes) ;;;
           line <- input "Enter Message ID to view full content (or press Enter to skip): " ;;
           let view_message := strip line in
           if String.eqb view_message EmptyString then ret tt
           else
             message_content <- get_message_content w mailtm_api tok view_message ;;
             if truthy message_content then
               print (nl +:+ "--- Message Content ---") ;;;
               from <- lift (getitem message_content "from") ;;
               addr <- lift (getitem from "address") ;;
               print ("From: " +:+ fmt w addr) ;;;
               to <- lift (getitem message_content "to") ;;
               tos <- lift (iter to) ;;
               addrs <- comprehension tos (λ t, lift (getitem t "address")) ;;
               print ("To: " +:+ fmt w (JArr addrs)) ;;;
               subject <- lift (getitem message_content "subject") ;;
               print ("Subject: " +:+ fmt w subject) ;;;
               text <- lift (getitem message_content "text") ;;
               print ("Text Body:" +:+ nl +:+ fmt w text) ;;;
               print dashes
             else print "Failed to retrieve full message content."
         else print "No messages found in your inbox yet."
       end) ;;;
      ret None
  end.

(** Choice 1: create an account.  [inl token'] is a [continue] with the
    (unchanged) binding of [token]; [inr tok] falls through to the message
    section with [token = tok]. *)
Definition create_branch (token : option json)
  : M (option json + json) :=
  domains <- get_domains w mailtm_api ;;
  if negb (truthy domains) then
    print "Failed to retrieve domains. Exiting account creation." ;;;
    ret (inl token)
  else
    print "Available Domains:" ;;;
    elements <- lift (iter domains) ;;
    for_each (enumerate elements) (λ '(i, domain),
      print (string_of_Z (i + 1) +:+ ". " +:+ fmt w domain)) ;;;
    n <- lift (len domains) ;;
    line <- input ("Select a domain (1-" +:+ string_of_Z n +:+ "): ") ;;
    k <- int w line ;;
    let selected_domain_index := k - 1 in
    if negb ((0 <=? selected_domain_index) && (selected_domain_index <? n))
    then print "Invalid domain selection." ;;; ret (inl token)
    else
      selected_domain <- lift (index domains selected_domain_index) ;;
      username <- generate_random_username w 10 ;;
      password <- generate_strong_password w 12 ;;
      print ("Generated Username: " +:+ username) ;;;
      print "Generated Password (saved securely, not displayed again)." ;;;
      account_data <- create_account w mailtm_api username password selected_domain ;;
      if negb (truthy account_data) then
        print "Account creation failed. Please check errors and try again." ;;;
        ret (inl token)
      else
        print (nl +:+ "Account Created Successfully!") ;;;
        address <- lift (getitem account_data "address") ;;
        print ("Email Address: " +:+ fmt w address) ;;;
        id <- lift (getitem account_data "id") ;;
        print ("Account ID: " +:+ fmt w id) ;;;
        save_account_to_json w account_data accounts_filename ;;;
        tok <- lift (getitem account_data "token") ;;
        ret (inr tok).

(** Choice 2: use a stored account. *)
Definition existing_branch (token : option json)
  : M (option json + json) :=
  existing_accounts <- load_accounts_from_json w accounts_filename ;;
  if negb (truthy existing_accounts) then
    print "No accounts found in the saved accounts file." ;;;
    ret (inl token)
  else
    print (nl +:+ "Saved Accounts:") ;;;
    elements <- lift (iter existing_accounts) ;;
    for_each (enumerate elements) (λ '(i, account),
      address <- lift (getitem account "address") ;;
      id <- lift (getitem account "id") ;;
      print (string_of_Z (i + 1) +:+ ". " +:+ fmt w address
               +:+ " (ID: " +:+ fmt w id +:+ ")")) ;;;
    n <- lift (len existing_accounts) ;;
    line <- input ("Select an account to view messages (1-"
                     +:+ string_of_Z n +:+ "): ") ;;
    k <- int w line ;;
    let account_index := k - 1 in
    if negb ((0 <=? account_index) && (account_index <? n))
    then print "Invalid account selection." ;;; ret (inl token)
    else
      selected_account <- lift (index existing_accounts account_index) ;;
      tok <- lift (getitem selected_account "token") ;;
      address <- lift (getitem selected_account "address") ;;
      print (nl +:+ "Using account: " +:+ fmt w address) ;;;
      ret (inr tok).

(** One pass through the body of [while True].  The local [token] is
    threaded through: it survives an iteration that does not reach
    [del token]. *)
Definition main_iteration (token : option json) : M (flow * option json) :=
  print (nl +:+ "Options:") ;;;
  print "1. Create a new temporary email account" ;;;
  print "2. View and use existing accounts" ;;;
  print "3. Exit" ;;;
  choice <- input "Enter your choice (1/2/3): " ;;
  if String.eqb choice "1" then
    r <- create_branch token ;;
    match r with
    | inl token' => ret (Continue, token')
    | inr tok => token' <- message_section (Some tok) ;; ret (Continue, token')
    end
  else if String.eqb choice "2" then
    r <- existing_branch token ;;
    match r with
    | inl token' => ret (Continue, token')
    | inr tok => token' <- message_section (Some tok) ;; ret (Continue, token')
    end
  else if String.eqb choice "3" then
    print "Exiting." ;;; ret (Break, token)
  else
    print "Invalid choice. Please enter 1, 2, or 3." ;;;
    ret (Continue, token).

(** [while True: ...], unrolled at most [fuel] times. *)
Fixpoint main_loop (fuel : nat) (token : option json) : M (option flow) :=
  match fuel with
  | O => ret None
  | S fuel' =>
      r <- main_iteration token ;;
      match r with
      | (Break, _) => ret (Some Break)
      | (Continue, token') => main_loop fuel' token'
      end
  end.

End Main.

(** [main()] *)
Definition main `{JsonModule} (w : world) (fuel : nat) : M (option flow) :=
  main_loop w MailTmAPI_default "mailtm_accounts.json" fuel None.

(* ===================================================================== *)
(** ** JSON text: a concrete [json] module *)
(* ===================================================================== *)

(** The text [json.dump(v, f, indent=4)] writes and the parser that reads
    it back, for the values of type [json]: integers in decimal, strings
    with every character outside the printable ASCII range escaped
    ([ensure_ascii]), one element per line.  A character of a Rocq string
    stands for the code point of the same number.  Numbers with a fraction
    or an exponent are not values of [json]: [loads] takes a text that
    holds one for malformed. *)
Module JsonText.

Definition dquote : ascii := ascii_of_nat 34.
Definition backslash : ascii := ascii_of_nat 92.
Definition newline : ascii := ascii_of_nat 10.
Definition chr (s : string) : ascii :=
  match s with String c _ => c | EmptyString => ascii_of_nat 0 end.

Definition hexdigit (n : nat) : ascii :=
  nth n (list_ascii_of_string "0123456789abcdef") (chr "0").

Definition escape_char (c : ascii) : list ascii :=
  let n := nat_of_ascii c in
  if Ascii.eqb c dquote then [backslash; dquote]
  else if Ascii.eqb c backslash then [backslash; backslash]
  else if (n =? 10)%nat then [backslash; chr "n"]
  else if (n =? 13)%nat then [backslash; chr "r"]
  else if (n =? 9)%nat then [backslash; chr "t"]
  else if (n =? 12)%nat then [backslash; chr "f"]
  else if (n =? 8)%nat then [backslash; chr "b"]
  else if ((32 <=? n) && (n <=? 126))%nat then [c]
  else [backslash; chr "u"; chr "0"; chr "0";
        hexdigit (n / 16); hexdigit (n mod 16)].

Definition print_string (s : string) : list ascii :=
  dquote :: flat_map escape_char (list_ascii_of_string s) ++ [dquote].

Definition print_Z (z : Z) : list ascii :=
  list_ascii_of_string (string_of_Z z).

(** a line break and the indentation of nesting level [lvl] *)
Definition indent (lvl : nat) : list ascii :=
  newline :: repeat (chr " ") (4 * lvl).

Definition lit (s : string) : list ascii := list_ascii_of_string s.

(** the elements after the first, and the closing bracket *)
Definition print_elements (pr : json → list ascii) (lvl : nat)
  : list json → list ascii :=
  fix more (l : list json) : list ascii :=
    match l with
    | [] => indent lvl ++ lit "]"
    | y :: l' => lit "," ++ indent (S lvl) ++ pr y ++ more l'
    end.

Definition print_members (pr : json → list ascii) (lvl : nat)
  : list (string * json) → list ascii :=
  fix more (l : list (string * json)) : list ascii :=
    match l with
    | [] => indent lvl ++ lit "}"
    | (k, y) :: l' =>
        lit "," ++ indent (S lvl) ++ print_string k ++ lit ": "
          ++ pr y ++ more l'
    end.

Fixpoint print (lvl : nat) (v : json) : list ascii :=
  match v with
  | JNull => lit "null"
  | JBool true => lit "true"
  | JBool false => lit "false"
  | JNum n => print_Z n
  | JStr s => print_string s
  | JArr [] => lit "[]"
  | JArr (x :: xs) =>
      lit "[" ++ indent (S lvl) ++ print (S lvl) x
        ++ print_elements (print (S lvl)) lvl xs
  | JObj [] => lit "{}"
  | JObj ((k, x) :: kvs) =>
      lit "{" ++ indent (S lvl) ++ print_string k ++ lit ": "
        ++ print (S lvl) x ++ print_members (print (S lvl)) lvl kvs
  end.

Definition dumps (v : json) : string := string_of_list_ascii (print 0 v).

(** *** Reading *)

Definition is_ws (c : ascii) : bool :=
  let n := nat_of_ascii c in
  ((n =? 32) || (n =? 10) || (n =? 13) || (n =? 9))%nat.

Fixpoint skip_ws (s : list ascii) : list ascii :=
  match s with
  | c :: r => if is_ws c then skip_ws r else s
  | [] => []
  end.

Definition hexval (c : ascii) : option nat :=
  let n := nat_of_ascii c in
  if ((48 <=? n) && (n <=? 57))%nat then Some (n - 48)%nat
  else if ((97 <=? n) && (n <=? 102))%nat then Some (n - 87)%nat
  else if ((65 <=? n) && (n <=? 70))%nat then Some (n - 55)%nat
  else None.

(** the character a backslash followed by [e] stands for *)
Definition unescape (e : ascii) : option ascii :=
  if Ascii.eqb e dquote then Some dquote
  else if Ascii.eqb e backslash then Some backslash
  else if Ascii.eqb e (chr "/") then Some (chr "/")
  else if Ascii.eqb e (chr "n") then Some (ascii_of_nat 10)
  else if Ascii.eqb e (chr "r") then Some (ascii_of_nat 13)
  else if Ascii.eqb e (chr "t") then Some (ascii_of_nat 9)
  else if Ascii.eqb e (chr "f") then Some (ascii_of_nat 12)
  else if Ascii.eqb e (chr "b") then Some (ascii_of_nat 8)
  else None.

Definition push {A} (c : ascii) (r : option (list ascii * A))
  : option (list ascii * A) :=
  match r with
  | Some (s, rest) => Some (c :: s, rest)
  | None => None
  end.

(** the characters of a string literal, after its opening quote *)
Fixpoint parse_string_body (s : list ascii)
  : option (list ascii * list ascii) :=
  match s with
  | [] => None
  | c :: r =>
      if Ascii.eqb c dquote then Some ([], r)
      else if Ascii.eqb c backslash then
        match r with
        | [] => None
        | e :: r1 =>
            if Ascii.eqb e (chr "u") then
              match r1 with
              | a :: b :: c' :: d :: r2 =>
                  match hexval a, hexval b, hexval c', hexval d with
                  | Some 0%nat, Some 0%nat, Some h, Some l =>
                      push (ascii_of_nat (16 * h + l)) (parse_string_body r2)
                  | _, _, _, _ => None
                  end
              | _ => None
              end
            else
              match unescape e with
              | Some x => push x (parse_string_body r1)
              | None => None
              end
        end
      else if (nat_of_ascii c <? 32)%nat then None
      else push c (parse_string_body r)
  end.

Definition parse_string (s : list ascii) : option (string * list ascii) :=
  match s with
  | c :: r =>
      if Ascii.eqb c dquote then
        match parse_string_body r with
        | Some (cs, rest) => Some (string_of_list_ascii cs, rest)
        | None => None
        end
      else None
  | [] => None
  end.

Definition is_numchar (c : ascii) : bool :=
  let n := nat_of_ascii c in
  ((n =? 45) || (48 <=? n) && (n <=? 57))%nat.

Fixpoint span_num (s : list ascii) : list ascii * list ascii :=
  match s with
  | c :: r =>
      if is_numchar c
      then let (tok, rest) := span_num r in (c :: tok, rest)
      else ([], s)
  | [] => ([], [])
  end.

(** an integer in the form [json.dump] writes it (no leading zero) *)
Definition parse_number (s : list ascii) : option (Z * list ascii) :=
  let (tok, rest) := span_num s in
  match NilZero.int_of_string (string_of_list_ascii tok) with
  | Some i =>
      let z := Z.of_int i in
      if String.eqb (string_of_Z z) (string_of_list_ascii tok)
      then Some (z, rest) else None
  | None => None
  end.

Definition starts_with (p : string) (s : list ascii)
  : option (list ascii) :=
  let p' := list_ascii_of_string p in
  if String.eqb (string_of_list_ascii (firstn (length p') s)) p
  then Some (skipn (length p') s) else None.

(** the elements of an array after its opening bracket, each read by
    [parse_value], up to the closing bracket; at most [n] of them *)
Definition parse_elements
    (parse_value : list ascii → option (json * list ascii))
  : nat → list ascii → option (list json * list ascii) :=
  fix elements (n : nat) (t : list ascii) :=
    match n with
    | O => None
    | S n' =>
      match parse_value t with
      | Some (x, t1) =>
        match skip_ws t1 with
        | c :: t2 =>
          if Ascii.eqb c (chr ",") then
            match elements n' t2 with
            | Some (xs, t3) => Some (x :: xs, t3)
            | None => None
            end
          else if Ascii.eqb c (chr "]") then Some ([x], t2)
          else None
        | [] => None
        end
      | None => None
      end
    end.

Definition parse_members
    (parse_value : list ascii → option (json * list ascii))
  : nat → list ascii → option (list (string * json) * list ascii) :=
  fix members (n : nat) (t : list ascii) :=
    match n with
    | O => None
    | S n' =>
      match parse_string (skip_ws t) with
      | Some (k, t0) =>
        match skip_ws t0 with
        | c :: t0' =>
          if Ascii.eqb c (chr ":") then
            match parse_value t0' with
            | Some (x, t1) =>
              match skip_ws t1 with
              | c' :: t2 =>
                if Ascii.eqb c' (chr ",") then
                  match members n' t2 with
                  | Some (kvs, t3) => Some ((k, x) :: kvs, t3)
                  | None => None
                  end
                else if Ascii.eqb c' (chr "}") then Some ([(k, x)], t2)
                else None
              | [] => None
              end
            | None => None
            end
          else None
        | [] => None
        end
      | None => None
      end
    end.

Definition parse_literal (s : list ascii) : option (json * list ascii) :=
  match starts_with "null" s with
  | Some rest => Some (JNull, rest)
  | None =>
    match starts_with "true" s with
    | Some rest => Some (JBool true, rest)
    | None =>
      match starts_with "false" s with
      | Some rest => Some (JBool false, rest)
      | None => None
      end
    end
  end.

(** one value, after any white space; [fuel] bounds the nesting *)
Fixpoint parse (fuel : nat) (s : list ascii) : option (json * list ascii) :=
  match fuel with
  | O => None
  | S fuel' =>
    match skip_ws s with
    | [] => None
    | c :: r =>
      if Ascii.eqb c (chr "[") then
        match skip_ws r with
        | c1 :: r1 =>
          if Ascii.eqb c1 (chr "]") then Some (JArr [], r1)
          else
            match parse_elements (parse fuel') fuel' r with
            | Some (xs, rest) => Some (JArr xs, rest)
            | None => None
            end
        | [] => None
        end
      else if Ascii.eqb c (chr "{") then
        match skip_ws r with
        | c1 :: r1 =>
          if Ascii.eqb c1 (chr "}") then Some (JObj [], r1)
          else
            match parse_members (parse fuel') fuel' r with
            | Some (kvs, rest) => Some (JObj kvs, rest)
            | None => None
            end
        | [] => None
        end
      else if Ascii.eqb c dquote then
        match parse_string (c :: r) with
        | Some (str, rest) => Some (JStr str, rest)
        | None => None
        end
      else if is_numchar c then
        match parse_number (c :: r) with
        | Some (z, rest) => Some (JNum z, rest)
        | None => None
        end
      else parse_literal (c :: r)
    end
  end.

(** [json.loads]: one value, then nothing but white space. *)
Definition loads (text : string) : option json :=
  let s := list_ascii_of_string text in
  match parse (S (length s)) s with
  | Some (v, rest) =>
      match skip_ws rest with
      | [] => Some v
      | _ => None
      end
  | None => None
  end.

End JsonText.


(* ===================================================================== *)
(** ** Reading back what was written *)
(* ===================================================================== *)

Module JsonTextFacts.
Import JsonText.
Local Arguments is_numchar : simpl never.
Local Arguments is_ws : simpl never.
Local Arguments indent : simpl never.
Local Arguments print_string : simpl never.

Lemma parse_string_body_escape (c : ascii) (tail : list ascii) :
  parse_string_body (escape_char c ++ tail) = push c (parse_string_body tail).
Proof.
  destruct c as [[] [] [] [] [] [] [] []]; reflexivity.
Qed.

Lemma parse_string_body_print (cs : list ascii) (rest : list ascii) :
  parse_string_body (flat_map escape_char cs ++ dquote :: rest)
  = Some (cs, rest).
Proof.
  induction cs as [|c cs IH]; [reflexivity|].
  simpl flat_map. rewrite <- app_assoc, parse_string_body_escape, IH.
  reflexivity.
Qed.

Lemma parse_string_print (s : string) (rest : list ascii) :
  parse_string (print_string s ++ rest) = Some (s, rest).
Proof.
  unfold print_string, parse_string. simpl.
  rewrite <- app_assoc. simpl. rewrite parse_string_body_print.
  by rewrite string_of_list_ascii_of_string.
Qed.

(** the next character cannot continue a number *)
Definition num_safe (rest : list ascii) : Prop :=
  match rest with
  | c :: _ => is_numchar c = false
  | [] => True
  end.

Lemma span_num_app (tok rest : list ascii) :
  forallb is_numchar tok = true → num_safe rest →
  span_num (tok ++ rest) = (tok, rest).
Proof.
  intros Htok Hrest. induction tok as [|c tok IH]; simpl in *.
  - destruct rest as [|c r]; [reflexivity|]. simpl in *. by rewrite Hrest.
  - apply andb_true_iff in Htok as [Hc Htok]. by rewrite Hc, IH.
Qed.

Lemma uint_numchars (d : Decimal.uint) :
  forallb is_numchar (list_ascii_of_string (NilEmpty.string_of_uint d)) = true.
Proof. induction d; simpl; auto. Qed.

Lemma print_Z_numchars (z : Z) : forallb is_numchar (print_Z z) = true.
Proof.
  unfold print_Z, string_of_Z, NilZero.string_of_int, NilZero.string_of_uint.
  destruct (Z.to_int z) as [d|d]; destruct d; simpl; auto using uint_numchars.
Qed.

Lemma to_int_not_nil (z : Z) :
  Z.to_int z ≠ Decimal.Pos Decimal.Nil ∧ Z.to_int z ≠ Decimal.Neg Decimal.Nil.
Proof.
  destruct z as [|p|p]; simpl; split; try discriminate; intros [= Hp];
    by apply DecimalPos.Unsigned.to_uint_nonnil in Hp.
Qed.

Lemma parse_number_print (z : Z) (rest : list ascii) :
  num_safe rest → parse_number (print_Z z ++ rest) = Some (z, rest).
Proof.
  intros Hrest. unfold parse_number.
  rewrite span_num_app by auto using print_Z_numchars.
  unfold print_Z. rewrite string_of_list_ascii_of_string.
  unfold string_of_Z at 1.
  destruct (to_int_not_nil z) as [Hp Hn].
  rewrite NilZero.isi by assumption.
  rewrite DecimalZ.of_to. by rewrite String.eqb_refl.
Qed.

(** *** Induction on JSON trees *)

Section JsonInd.
Variable P : json → Prop.
Hypothesis Hnull : P JNull.
Hypothesis Hbool : ∀ b, P (JBool b).
Hypothesis Hnum : ∀ n, P (JNum n).
Hypothesis Hstr : ∀ s, P (JStr s).
Hypothesis Harr : ∀ l, Forall P l → P (JArr l).
Hypothesis Hobj : ∀ d, Forall (λ kv, P (snd kv)) d → P (JObj d).

Fixpoint json_tree_ind (v : json) : P v :=
  match v with
  | JNull => Hnull
  | JBool b => Hbool b
  | JNum n => Hnum n
  | JStr s => Hstr s
  | JArr l =>
      Harr l ((fix go (l : list json) : Forall P l :=
                 match l with
                 | [] => @List.Forall_nil _ P
                 | x :: l' => @List.Forall_cons _ P x l' (json_tree_ind x) (go l')
                 end) l)
  | JObj d =>
      Hobj d ((fix go (d : list (string * json))
                 : Forall (λ kv, P (snd kv)) d :=
                 match d with
                 | [] => @List.Forall_nil _ _
                 | kv :: d' =>
                     @List.Forall_cons _ (λ kv, P (snd kv)) kv d' (json_tree_ind (snd kv)) (go d')
                 end) d)
  end.
End JsonInd.

(** the number of nodes of a tree: enough fuel to read it back *)
Fixpoint size (v : json) : nat :=
  match v with
  | JArr l => S (list_sum (map size l))
  | JObj d => S (list_sum (map (λ kv, size (snd kv)) d))
  | _ => 1
  end.

Lemma skip_ws_idem (s : list ascii) : skip_ws (skip_ws s) = skip_ws s.
Proof.
  induction s as [|c s IH]; [reflexivity|]. simpl.
  destruct (is_ws c) eqn:E; [assumption|]. simpl. by rewrite E.
Qed.

Lemma skip_ws_spaces (n : nat) (s : list ascii) :
  skip_ws (repeat (chr " ") n ++ s) = skip_ws s.
Proof. induction n; [reflexivity|]. simpl. assumption. Qed.

Lemma skip_ws_indent (lvl : nat) (s : list ascii) :
  skip_ws (indent lvl ++ s) = skip_ws s.
Proof. unfold indent. simpl. apply skip_ws_spaces. Qed.

Lemma parse_skip_ws (fuel : nat) (s : list ascii) :
  parse fuel (skip_ws s) = parse fuel s.
Proof. destruct fuel; [reflexivity|]. simpl. by rewrite skip_ws_idem. Qed.

Lemma parse_indent (fuel lvl : nat) (s : list ascii) :
  parse fuel (indent lvl ++ s) = parse fuel s.
Proof.
  rewrite <- (parse_skip_ws fuel (indent lvl ++ s)), skip_ws_indent.
  apply parse_skip_ws.
Qed.

(** a character a value can start with *)
Definition value_start (c : ascii) : bool :=
  negb (is_ws c) && negb (Ascii.eqb c (chr "]"))
    && negb (Ascii.eqb c (chr "}")).

Lemma numchar_start (c : ascii) :
  is_numchar c = true →
  is_ws c = false ∧ Ascii.eqb c (chr "[") = false
  ∧ Ascii.eqb c (chr "{") = false ∧ Ascii.eqb c dquote = false
  ∧ value_start c = true.
Proof.
  destruct c as [[] [] [] [] [] [] [] []]; vm_compute; intros; try discriminate;
    repeat split.
Qed.

Lemma print_Z_head (z : Z) :
  ∃ c tl, print_Z z = c :: tl ∧ is_numchar c = true.
Proof.
  pose proof (print_Z_numchars z) as Hall.
  destruct (print_Z z) as [|c tl] eqn:E.
  - exfalso. unfold print_Z, string_of_Z in E.
    destruct (to_int_not_nil z) as [Hp Hn].
    destruct (Z.to_int z) as [d|d]; destruct d; simpl in E; try discriminate;
      congruence.
  - simpl in Hall. apply andb_true_iff in Hall as [Hc _]. eauto.
Qed.

Lemma print_head (lvl : nat) (v : json) :
  ∃ c tl, print lvl v = c :: tl ∧ value_start c = true.
Proof.
  destruct v as [|[]|n|s|[|x xs]|[|[k x] kvs]]; simpl;
    try (eexists _, _; split; [reflexivity|reflexivity]).
  destruct (print_Z_head n) as (c & tl & -> & Hc).
  apply numchar_start in Hc as (_ & _ & _ & _ & Hc). eauto.
Qed.

Lemma skip_ws_print (lvl : nat) (v : json) (rest : list ascii) :
  skip_ws (print lvl v ++ rest) = print lvl v ++ rest.
Proof.
  destruct (print_head lvl v) as (c & tl & -> & Hc). simpl.
  unfold value_start in Hc. destruct (is_ws c); [discriminate|reflexivity].
Qed.

Lemma parse_elements_S pv (n : nat) (t : list ascii) :
  parse_elements pv (S n) t =
    match pv t with
    | Some (x, t1) =>
      match skip_ws t1 with
      | c :: t2 =>
        if Ascii.eqb c (chr ",") then
          match parse_elements pv n t2 with
          | Some (xs, t3) => Some (x :: xs, t3)
          | None => None
          end
        else if Ascii.eqb c (chr "]") then Some ([x], t2)
        else None
      | [] => None
      end
    | None => None
    end.
Proof. reflexivity. Qed.

Lemma parse_members_S pv (n : nat) (t : list ascii) :
  parse_members pv (S n) t =
    match parse_string (skip_ws t) with
    | Some (k, t0) =>
      match skip_ws t0 with
      | c :: t0' =>
        if Ascii.eqb c (chr ":") then
          match pv t0' with
          | Some (x, t1) =>
            match skip_ws t1 with
            | c' :: t2 =>
              if Ascii.eqb c' (chr ",") then
                match parse_members pv n t2 with
                | Some (kvs, t3) => Some ((k, x) :: kvs, t3)
                | None => None
                end
              else if Ascii.eqb c' (chr "}") then Some ([(k, x)], t2)
              else None
            | [] => None
            end
          | None => None
          end
        else None
      | [] => None
      end
    | None => None
    end.
Proof. reflexivity. Qed.

(** what reading back one value amounts to, at a given fuel *)
Definition reads_back (fuel : nat) (v : json) : Prop :=
  ∀ lvl rest, num_safe rest → parse fuel (print lvl v ++ rest) = Some (v, rest).

Lemma print_elements_safe pr lvl xs rest :
  num_safe (print_elements pr lvl xs ++ rest).
Proof. destruct xs; reflexivity. Qed.

Lemma print_members_safe pr lvl kvs rest :
  num_safe (print_members pr lvl kvs ++ rest).
Proof. destruct kvs as [|[k y] kvs]; reflexivity. Qed.

Lemma print_elements_nil pr lvl :
  print_elements pr lvl [] = indent lvl ++ lit "]".
Proof. reflexivity. Qed.

Lemma print_elements_cons pr lvl y l :
  print_elements pr lvl (y :: l)
  = chr "," :: indent (S lvl) ++ pr y ++ print_elements pr lvl l.
Proof. reflexivity. Qed.

Lemma print_members_nil pr lvl :
  print_members pr lvl [] = indent lvl ++ lit "}".
Proof. reflexivity. Qed.

Lemma print_members_cons pr lvl k y l :
  print_members pr lvl ((k, y) :: l)
  = chr "," :: indent (S lvl) ++ print_string k ++ lit ": " ++ pr y
      ++ print_members pr lvl l.
Proof. reflexivity. Qed.

Lemma parse_elements_print (fuel lvl : nat) (xs : list json) :
  ∀ x n rest,
    Forall (reads_back fuel) (x :: xs) →
    (length (x :: xs) ≤ n)%nat →
    parse_elements (parse fuel) n
      (indent (S lvl) ++ print (S lvl) x
         ++ print_elements (print (S lvl)) lvl xs ++ rest)
    = Some (x :: xs, rest).
Proof.
  induction xs as [|y ys IH]; intros x n rest HF Hn;
    (destruct n as [|n]; [simpl in Hn; lia|]);
    apply Forall_cons_1 in HF as [Hx HF];
    rewrite parse_elements_S, parse_indent,
      (Hx _ _ (print_elements_safe _ _ _ _)).
  - rewrite print_elements_nil, <- app_assoc, skip_ws_indent. reflexivity.
  - rewrite print_elements_cons. cbn [app skip_ws].
    change (is_ws (chr ",")) with false. cbv iota.
    change (Ascii.eqb (chr ",") (chr ",")) with true. cbv iota.
    rewrite <- !app_assoc.
    rewrite IH; [reflexivity|assumption|simpl in *; lia].
Qed.

Lemma parse_members_print (fuel lvl : nat) (kvs : list (string * json)) :
  ∀ k x n rest,
    Forall (λ kv, reads_back fuel (snd kv)) ((k, x) :: kvs) →
    (length ((k, x) :: kvs) ≤ n)%nat →
    parse_members (parse fuel) n
      (indent (S lvl) ++ print_string k ++ lit ": " ++ print (S lvl) x
         ++ print_members (print (S lvl)) lvl kvs ++ rest)
    = Some ((k, x) :: kvs, rest).
Proof.
  induction kvs as [|[k' y] ys IH]; intros k x n rest HF Hn;
    (destruct n as [|n]; [simpl in Hn; lia|]);
    apply Forall_cons_1 in HF as [Hx HF]; simpl in Hx;
    rewrite parse_members_S, skip_ws_indent;
    change (skip_ws (print_string k ++ ?t)) with (print_string k ++ t);
    rewrite parse_string_print;
    change (skip_ws (lit ": " ++ ?t)) with (chr ":" :: chr " " :: t);
    change (Ascii.eqb (chr ":") (chr ":")) with true; cbv iota;
    rewrite <- (parse_skip_ws fuel (chr " " :: _));
    change (skip_ws (chr " " :: ?t)) with (skip_ws t);
    rewrite parse_skip_ws, (Hx _ _ (print_members_safe _ _ _ _)).
  - rewrite print_members_nil, <- app_assoc, skip_ws_indent. reflexivity.
  - rewrite print_members_cons. cbn [app skip_ws].
    change (is_ws (chr ",")) with false. cbv iota.
    change (Ascii.eqb (chr ",") (chr ",")) with true. cbv iota.
    rewrite <- !app_assoc.
    rewrite IH; [reflexivity|assumption|simpl in *; lia].
Qed.

Lemma size_pos (v : json) : (1 ≤ size v)%nat.
Proof. destruct v; simpl; lia. Qed.

Lemma length_le_sum_sizes {A} (f : A → json) (l : list A) :
  (length l ≤ list_sum (map (λ a, size (f a)) l))%nat.
Proof.
  induction l as [|a l IH]; simpl; [lia|].
  pose proof (size_pos (f a)). lia.
Qed.

Lemma Forall_reads_back {A} (f : A → json) (fuel : nat) (l : list A) :
  Forall (λ a, ∀ fuel, (size (f a) < fuel)%nat → reads_back fuel (f a)) l →
  (list_sum (map (λ a, size (f a)) l) < fuel)%nat →
  Forall (λ a, reads_back fuel (f a)) l.
Proof.
  induction 1 as [|a l Ha _ IH]; simpl; intros Hsum; constructor.
  - apply Ha. lia.
  - apply IH. lia.
Qed.

Lemma parse_S_head (fuel : nat) (c : ascii) (r : list ascii) :
  is_ws c = false →
  parse (S fuel) (c :: r) =
    if Ascii.eqb c (chr "[") then
      match skip_ws r with
      | c1 :: r1 =>
        if Ascii.eqb c1 (chr "]") then Some (JArr [], r1)
        else
          match parse_elements (parse fuel) fuel r with
          | Some (xs, rest) => Some (JArr xs, rest)
          | None => None
          end
      | [] => None
      end
    else if Ascii.eqb c (chr "{") then
      match skip_ws r with
      | c1 :: r1 =>
        if Ascii.eqb c1 (chr "}") then Some (JObj [], r1)
        else
          match parse_members (parse fuel) fuel r with
          | Some (kvs, rest) => Some (JObj kvs, rest)
          | None => None
          end
      | [] => None
      end
    else if Ascii.eqb c dquote then
      match parse_string (c :: r) with
      | Some (str, rest) => Some (JStr str, rest)
      | None => None
      end
    else if is_numchar c then
      match parse_number (c :: r) with
      | Some (z, rest) => Some (JNum z, rest)
      | None => None
      end
    else parse_literal (c :: r).
Proof. intros Hc. simpl. by rewrite Hc. Qed.

Ltac eval_eqb :=
  repeat match goal with
         | |- context [Ascii.eqb ?a ?b] =>
             let v := eval vm_compute in (Ascii.eqb a b) in
             change (Ascii.eqb a b) with v
         end;
  cbv iota.

Lemma parse_print (v : json) :
  ∀ fuel, (size v < fuel)%nat → reads_back fuel v.
Proof.
  induction v as [|b|z|s|l IH|d IH] using json_tree_ind;
    intros [|fuel] Hfuel lvl rest Hrest; try (simpl in Hfuel; lia).
  - reflexivity.
  - destruct b; reflexivity.
  - change (print lvl (JNum z)) with (print_Z z).
    destruct (print_Z_head z) as (c & tl & E & Hc).
    pose proof (parse_number_print z rest Hrest) as Hnum.
    rewrite E in *. simpl app in *.
    destruct (numchar_start c Hc) as (Hws & H1 & H2 & H3 & _).
    rewrite parse_S_head, H1, H2, H3, Hc, Hnum by assumption. reflexivity.
  - change (print lvl (JStr s)) with (print_string s).
    pose proof (parse_string_print s rest) as Hstr.
    unfold print_string in *. simpl app in *.
    rewrite parse_S_head by reflexivity.
    change (Ascii.eqb dquote (chr "[")) with false.
    change (Ascii.eqb dquote (chr "{")) with false.
    change (Ascii.eqb dquote dquote) with true. cbv iota.
    by rewrite Hstr.
  - destruct l as [|x xs]; [reflexivity|].
    simpl in Hfuel.
    assert (HF : Forall (reads_back fuel) (x :: xs)).
    { apply (Forall_reads_back (λ y, y)); [exact IH|].
      simpl. change (λ a : json, size a) with size. lia. }
    pose proof (length_le_sum_sizes (λ y, y) (x :: xs)) as Hlen.
    simpl in Hlen. change (λ a : json, size a) with size in Hlen.
    change (print lvl (JArr (x :: xs)))
      with (chr "[" :: indent (S lvl) ++ print (S lvl) x
              ++ print_elements (print (S lvl)) lvl xs).
    rewrite <- app_comm_cons, parse_S_head by reflexivity. eval_eqb.
    rewrite <- !app_assoc, skip_ws_indent, skip_ws_print.
    destruct (print_head (S lvl) x) as (c & tl & E & Hc).
    rewrite E at 1. rewrite <- app_comm_cons.
    unfold value_start in Hc.
    destruct (Ascii.eqb c (chr "]")); [by destruct (is_ws c)|].
    rewrite parse_elements_print; [reflexivity|assumption|simpl; lia].
  - destruct d as [|[k x] kvs]; [reflexivity|].
    simpl in Hfuel.
    assert (HF : Forall (λ kv, reads_back fuel (snd kv)) ((k, x) :: kvs)).
    { apply (Forall_reads_back snd); [exact IH|simpl; lia]. }
    pose proof (length_le_sum_sizes snd ((k, x) :: kvs)) as Hlen.
    simpl in Hlen.
    change (print lvl (JObj ((k, x) :: kvs)))
      with (chr "{" :: indent (S lvl) ++ print_string k ++ lit ": "
              ++ print (S lvl) x ++ print_members (print (S lvl)) lvl kvs).
    rewrite <- app_comm_cons, parse_S_head by reflexivity. eval_eqb.
    rewrite <- !app_assoc, skip_ws_indent.
    change (skip_ws (print_string k ++ ?t))
      with (dquote :: tl (print_string k ++ t)).
    eval_eqb.
    rewrite parse_members_print; [reflexivity|assumption|simpl; lia].
Qed.

Lemma sizes_le_elements pr (lvl : nat) (xs : list json) :
  Forall (λ v, size v ≤ length (pr v))%nat xs →
  (list_sum (map size xs) ≤ length (print_elements pr lvl xs))%nat.
Proof.
  induction 1 as [|y ys Hy _ IH]; [simpl; lia|].
  rewrite print_elements_cons, length_cons, !length_app.
  simpl list_sum. lia.
Qed.

Lemma sizes_le_members pr (lvl : nat) (kvs : list (string * json)) :
  Forall (λ kv, size (snd kv) ≤ length (pr (snd kv)))%nat kvs →
  (list_sum (map (λ kv, size (snd kv)) kvs)
   ≤ length (print_members pr lvl kvs))%nat.
Proof.
  induction 1 as [|[k y] ys Hy _ IH]; [simpl; lia|].
  rewrite print_members_cons, length_cons, !length_app.
  simpl in *. lia.
Qed.

Lemma size_le_print (v : json) : ∀ lvl, (size v ≤ length (print lvl v))%nat.
Proof.
  induction v as [|b|z|s|l IH|d IH] using json_tree_ind; intros lvl.
  - simpl. lia.
  - destruct b; simpl; lia.
  - destruct (print_Z_head z) as (c & tl & E & _). simpl. rewrite E. simpl. lia.
  - simpl. unfold print_string. simpl. lia.
  - destruct l as [|x xs]; [simpl; lia|].
    change (print lvl (JArr (x :: xs)))
      with (chr "[" :: indent (S lvl) ++ print (S lvl) x
              ++ print_elements (print (S lvl)) lvl xs).
    apply Forall_cons_1 in IH as [Hx IH]. specialize (Hx (S lvl)).
    pose proof (sizes_le_elements (print (S lvl)) lvl xs) as Hxs.
    rewrite length_cons, !length_app.
    change (size (JArr (x :: xs))) with (S (size x + list_sum (map size xs))).
    enough (list_sum (map size xs)
            ≤ length (print_elements (print (S lvl)) lvl xs))%nat by lia.
    apply Hxs. eapply Forall_impl; [exact IH|]. simpl. auto.
  - destruct d as [|[k x] kvs]; [simpl; lia|].
    change (print lvl (JObj ((k, x) :: kvs)))
      with (chr "{" :: indent (S lvl) ++ print_string k ++ lit ": "
              ++ print (S lvl) x ++ print_members (print (S lvl)) lvl kvs).
    apply Forall_cons_1 in IH as [Hx IH]. specialize (Hx (S lvl)).
    pose proof (sizes_le_members (print (S lvl)) lvl kvs) as Hxs.
    rewrite length_cons, !length_app.
    change (size (JObj ((k, x) :: kvs)))
      with (S (size x + list_sum (map (λ kv, size (snd kv)) kvs))).
    simpl in Hx.
    enough (list_sum (map (λ kv, size (snd kv)) kvs)
            ≤ length (print_members (print (S lvl)) lvl kvs))%nat by lia.
    apply Hxs. eapply Forall_impl; [exact IH|]. simpl. auto.
Qed.

Theorem text_loads_dumps (v : json) : loads (dumps v) = Some v.
Proof.
  unfold loads, dumps. rewrite list_ascii_of_string_of_list_ascii.
  pose proof (size_le_print v 0) as Hsize.
  pose proof (parse_print v (S (length (print 0 v))) ltac:(lia) 0%nat [] I)
    as Hparse.
  rewrite app_nil_r in Hparse. by rewrite Hparse.
Qed.

Lemma text_loads_empty : loads EmptyString = None.
Proof. reflexivity. Qed.

End JsonTextFacts.


(** Python's [json] module, as far as this program uses it. *)
#[export] Instance py_json : JsonModule := {|
  dumps := JsonText.dumps;
  loads := JsonText.loads;
  loads_dumps := JsonTextFacts.text_loads_dumps;
  loads_empty := JsonTextFacts.text_loads_empty;
|}.

(* ===================================================================== *)
(** ** The remote client: what each call gives back *)
(* ===================================================================== *)

(** [raise_for_status] raises exactly on the 4xx and 5xx codes. *)
Definition http_error (r : response) : bool :=
  (400 <=? status_code r) && (status_code r <? 600).

Definition status_error_msg (r : response) : string :=
  if status_code r <? 500 then http_error_msg "Client Error" r
  else http_error_msg "Server Error" r.

(** The requests the five operations send. *)
Definition domains_request (self : MailTmAPI) : request :=
  mkRequest GET (base_url self +:+ "/domains") [] None.
Definition account_request (self : MailTmAPI) (address password : string)
  : request :=
  mkRequest POST (base_url self +:+ "/accounts") json_headers
    (Some (credentials address password)).
Definition token_request (self : MailTmAPI) (address password : string)
  : request :=
  mkRequest POST (base_url self +:+ "/token") json_headers
    (Some (credentials address password)).
Definition messages_request (w : world) (self : MailTmAPI) (token : json)
  : request :=
  mkRequest GET (base_url self +:+ "/messages") (bearer w token) None.
Definition message_request (w : world) (self : MailTmAPI) (token : json)
    (message_id : string) : request :=
  mkRequest GET (base_url self +:+ "/messages/" +:+ message_id)
    (bearer w token) None.

(** Worlds and states to run the program in. *)
Definition simple_int (t : string) : option Z :=
  option_map Z.of_int (NilZero.int_of_string t).

Definition world_of (server : request → http_outcome) : world :=
  mkWorld server (λ i, i) (λ _, None) (λ _, WriteOK) simple_int
    JsonText.dumps.

Definition initial : state := mkState ∅ [] [] [] 0 0.

(** A server nobody can reach, and one that gives every request the same
    answer. *)
Definition offline : world :=
  world_of (λ _, ConnFail "Connection refused").

Definition answering (code : Z) (why : string) (b : body) : world :=
  world_of (λ r, Resp (mkResponse code why (req_url r) b)).

Definition unreachable (w : world) : Prop :=
  ∀ r, ∃ msg, net w r = ConnFail msg.

Lemma raise_for_status_run (r : response) (s : state) :
  raise_for_status r s =
    if http_error r then (Raise (HTTPError (status_error_msg r)), s)
    else (Ret tt, s).
Proof.
  unfold raise_for_status, http_error, status_error_msg, raise, ret.
  destruct (400 <=? status_code r) eqn:E1, (status_code r <? 500) eqn:E2,
    (500 <=? status_code r) eqn:E3, (status_code r <? 600) eqn:E4;
    simpl; try reflexivity; lia.
Qed.

Ltac run_step :=
  cbv beta iota zeta delta
    [create_account get_messages get_message_content get_domains
     try_binding try_except requests_get requests_post send bind local when
     print ret raise lift response_json fmt fst snd].

Ltac run_client :=
  unfold create_account, get_messages, get_message_content, get_domains,
    get_token, try_binding, try_except, requests_get, requests_post, send,
    bind, local, when, print, ret, raise, lift, response_json.

(** The two operations that do not look at [response] in their handler
    recover a connection failure: they print and give [None]. *)
Lemma siblings_recover (w : world) (self : MailTmAPI) (s : state)
    (address password : string) :
  unreachable w →
  fst (get_domains w self s) = Ret JNull
  ∧ fst (get_token w self address password s) = Ret JNull.
Proof.
  intros Hw. split; run_client.
  - destruct (Hw (domains_request self)) as [msg E].
    unfold domains_request in E. by rewrite E.
  - destruct (Hw (token_request self address password)) as [msg E].
    unfold token_request in E. by rewrite E.
Qed.

(** C1 (as the code behaves): when no response object exists, the handlers
    of [create_account], [get_messages] and [get_message_content] read the
    unbound local [response]; [UnboundLocalError] leaves the function
    instead of [None]. *)
Theorem connection_failure_escapes (w : world) (self : MailTmAPI) (s : state)
    (username password : string) (domain token : json) (message_id : string) :
  unreachable w →
  fst (create_account w self username password domain s)
    = Raise (UnboundLocalError "response")
  ∧ fst (get_messages w self token s) = Raise (UnboundLocalError "response")
  ∧ fst (get_message_content w self token message_id s)
    = Raise (UnboundLocalError "response").
Proof.
  intros Hw. repeat split; run_client.
  - destruct (Hw (account_request self (username +:+ "@" +:+ fmt w domain)
                    password)) as [msg E].
    unfold account_request in E. by rewrite E.
  - destruct (Hw (messages_request w self token)) as [msg E].
    unfold messages_request in E. by rewrite E.
  - destruct (Hw (message_request w self token message_id)) as [msg E].
    unfold message_request in E. by rewrite E.
Qed.

Lemma connection_failure_escapes_witness :
  unreachable offline
  ∧ fst (create_account offline MailTmAPI_default "abc123xyz9" "pw"
           (JStr "example.com") initial)
    = Raise (UnboundLocalError "response").
Proof.
  assert (H : unreachable offline) by (intros r; eexists; reflexivity).
  split; [exact H|].
  exact (proj1 (connection_failure_escapes offline MailTmAPI_default initial
                  "abc123xyz9" "pw" (JStr "example.com") JNull EmptyString H)).
Defined.

(** *** Dictionaries *)

Lemma dict_get_set_eq (k : string) (v : json) (d : list (string * json)) :
  dict_get k (dict_set k v d) = Some v.
Proof.
  induction d as [|[k' v'] d IH]; simpl.
  - by rewrite String.eqb_refl.
  - destruct (String.eqb k k') eqn:E; simpl; by rewrite E.
Qed.

Lemma dict_get_set_ne (k k' : string) (v : json) (d : list (string * json)) :
  k ≠ k' → dict_get k' (dict_set k v d) = dict_get k' d.
Proof.
  intros Hne. induction d as [|[k0 v0] d IH]; simpl.
  - destruct (String.eqb_spec k' k); [congruence|reflexivity].
  - destruct (String.eqb_spec k k0) as [->|Hk0]; simpl.
    + destruct (String.eqb_spec k' k0); [congruence|reflexivity].
    + by rewrite IH.
Qed.

(** *** [get_token] *)

(** What a call that recovers every request failure hands back: the JSON
    body of a good answer, [None] otherwise. *)
Definition answer_json (o : http_outcome) : json :=
  match o with
  | ConnFail _ => JNull
  | Resp r =>
      if http_error r then JNull
      else match resp_body r with
           | Json v => v
           | NotJson _ => JNull
           end
  end.

Lemma get_token_run (w : world) (self : MailTmAPI) (address password : string)
    (s : state) :
  ∃ s', get_token w self address password s
        = (Ret (answer_json (net w (token_request self address password))), s')
        ∧ fs s' = fs s
        ∧ ∃ printed, out s' = out s ++ printed.
Proof.
  run_client. fold (token_request self address password).
  destruct (net w (token_request self address password)) as [msg|r]; simpl.
  - eexists; split; [reflexivity|]. split; [reflexivity|]. by eexists [_].
  - rewrite raise_for_status_run.
    destruct (http_error r); simpl.
    + eexists; split; [reflexivity|]. split; [reflexivity|]. by eexists [_].
    + destruct (resp_body r); simpl.
      * eexists; split; [reflexivity|]. split; [reflexivity|]. by eexists [_].
      * eexists; split; [reflexivity|]. split; [reflexivity|].
        exists []. by rewrite app_nil_r.
Qed.

(** *** [create_account] *)

Definition object_if_json (b : body) : bool :=
  match b with
  | Json (JObj _) => true
  | Json _ => false
  | NotJson _ => true
  end.

Definition answers_object (o : http_outcome) : bool :=
  match o with
  | ConnFail _ => true
  | Resp r => object_if_json (resp_body r)
  end.

(** C2 as the specification states it, for one run. *)
Definition record_with_usable_token (w : world) (self : MailTmAPI)
    (username password domain : string) (s : state) : Prop :=
  let res := fst (create_account w self username password (JStr domain) s) in
  res = Ret JNull
  ∨ ∃ rec tok,
      res = Ret (JObj rec)
      ∧ dict_get "address" rec = Some (JStr (username +:+ "@" +:+ domain))
      ∧ dict_get "token" rec = Some tok
      ∧ truthy tok = true.

(** A server that creates the account and then hands out an empty token. *)
Definition empty_token_server : world :=
  world_of (λ r,
    if String.eqb (req_url r) "https://api.mail.tm/accounts"
    then Resp (mkResponse 201 "Created" (req_url r)
                 (Json (JObj [("id", JStr "65f0c1"); ("address", JStr "x")])))
    else Resp (mkResponse 200 "OK" (req_url r)
                 (Json (JObj [("token", JStr EmptyString)])))).

(** C2, counterexample: the record comes back with the empty token. *)
Lemma empty_token_record_returned :
  ¬ record_with_usable_token empty_token_server MailTmAPI_default
      "abc123xyz9" "pw" "example.com" initial.
Proof.
  unfold record_with_usable_token.
  intros [H | (rec & tok & Hres & _ & Htok & Htruthy)].
  - vm_compute in H. discriminate.
  - vm_compute in Hres. injection Hres as <-.
    vm_compute in Htok. injection Htok as <-. discriminate.
Qed.

(** C2 (amended): with a response to the account request and JSON bodies
    that are objects, [create_account] gives [None] or the account record
    with [address = username@domain] and a [token] field holding whatever
    the token endpoint sent under ["token"]. *)
Theorem create_account_record_or_none (w : world) (self : MailTmAPI)
    (username password domain : string) (s : state) (r : response) :
  let address := username +:+ "@" +:+ domain in
  net w (account_request self address password) = Resp r →
  object_if_json (resp_body r) = true →
  answers_object (net w (token_request self address password)) = true →
  let res := fst (create_account w self username password (JStr domain) s) in
  res = Ret JNull
  ∨ ∃ rec tok td,
      res = Ret (JObj rec)
      ∧ dict_get "address" rec = Some (JStr address)
      ∧ dict_get "token" rec = Some tok
      ∧ answer_json (net w (token_request self address password)) = JObj td
      ∧ dict_get "token" td = Some tok.
Proof.
  intros address Hacc Hobj Htok res. subst res address.
  unfold account_request in Hacc.
  run_step. rewrite Hacc. run_step. rewrite raise_for_status_run.
  destruct (http_error r); run_step.
  { left. destruct (status_code r =? 422); reflexivity. }
  destruct (resp_body r) as [err|v]; run_step.
  { left. destruct (status_code r =? 422); reflexivity. }
  destruct v as [| | | | |d]; try discriminate Hobj.
  match goal with
  | |- context [get_token w self ?a ?p ?s0] =>
      destruct (get_token_run w self a p s0) as (s' & -> & _)
  end.
  set (o := net w (token_request self _ password)) in *.
  assert (Hshape : answer_json o = JNull ∨ ∃ td, answer_json o = JObj td).
  { unfold answer_json. destruct o as [msg|r']; [by left|].
    simpl in Htok. destruct (http_error r'); [by left|].
    destruct (resp_body r') as [|[]]; try discriminate Htok; eauto. }
  destruct Hshape as [->|[td ->]]; [by left|].
  destruct td as [|[k0 v0] td]; [by left|].
  cbv beta iota delta [truthy contains getitem setitem dict_mem].
  destruct (dict_get "token" ((k0, v0) :: td)) as [tok|] eqn:Eget;
    [|by left].
  right.
  exists (dict_set "address" (JStr (username +:+ "@" +:+ domain))
            (dict_set "token" tok d)), tok, ((k0, v0) :: td).
  repeat split; auto.
  - apply dict_get_set_eq.
  - rewrite dict_get_set_ne by discriminate. apply dict_get_set_eq.
Qed.

Lemma create_account_record_or_none_witness :
  let address := "abc123xyz9@example.com" in
  let res := fst (create_account empty_token_server MailTmAPI_default
                    "abc123xyz9" "pw" (JStr "example.com") initial) in
  res = Ret JNull
  ∨ ∃ rec tok td,
      res = Ret (JObj rec)
      ∧ dict_get "address" rec = Some (JStr address)
      ∧ dict_get "token" rec = Some tok
      ∧ answer_json (net empty_token_server
                       (token_request MailTmAPI_default address "pw"))
        = JObj td
      ∧ dict_get "token" td = Some tok.
Proof.
  exact (create_account_record_or_none empty_token_server MailTmAPI_default
           "abc123xyz9" "pw" "example.com" initial
           (mkResponse 201 "Created" "https://api.mail.tm/accounts"
              (Json (JObj [("id", JStr "65f0c1"); ("address", JStr "x")])))
           eq_refl eq_refl eq_refl).
Defined.

(** *** [get_messages] *)

Definition auth_line : string := "Authentication failed. Invalid token.".
Definition not_found_line : string := "Message not found.".

(** C6 as the specification states it: what reaches the caller for an
    invalidated token differs from what reaches it for a network error. *)
Definition token_invalidated (w : world) (self : MailTmAPI) (token : json)
  : Prop :=
  ∃ r, net w (messages_request w self token) = Resp r ∧ status_code r = 401.

Definition network_failure (w : world) (self : MailTmAPI) (token : json)
  : Prop :=
  (∃ msg, net w (messages_request w self token) = ConnFail msg)
  ∨ (∃ r, net w (messages_request w self token) = Resp r
          ∧ http_error r = true ∧ status_code r ≠ 401).

Definition auth_failure_distinguishable : Prop :=
  ∀ w1 w2 self token s,
    token_invalidated w1 self token →
    network_failure w2 self token →
    fst (get_messages w1 self token s) ≠ fst (get_messages w2 self token s).

Definition unauthorized : world :=
  answering 401 "Unauthorized"
    (Json (JObj [("code", JNum 401); ("message", JStr "Invalid JWT Token")])).

Definition unavailable : world :=
  answering 503 "Service Unavailable" (NotJson "Expecting value").

(** C6, counterexample: a 401 and a 503 hand the caller the same [None]. *)
Lemma auth_failure_not_distinguishable : ¬ auth_failure_distinguishable.
Proof.
  intros H.
  apply (H unauthorized unavailable MailTmAPI_default (JStr "tok") initial).
  - eexists. split; reflexivity.
  - right. eexists. repeat split. discriminate.
  - reflexivity.
Qed.

(** C6 (amended): on every HTTP error status [get_messages] prints the
    error and gives [None]; a 401 only adds one more printed line. *)
Theorem get_messages_http_error (w : world) (self : MailTmAPI) (token : json)
    (s : state) (r : response) :
  net w (messages_request w self token) = Resp r →
  http_error r = true →
  fst (get_messages w self token s) = Ret JNull
  ∧ out (snd (get_messages w self token s))
    = out s ++ ["Error fetching messages: " +:+ status_error_msg r]
        ++ (if status_code r =? 401 then [auth_line] else []).
Proof.
  intros Hnet Herr. unfold messages_request in Hnet.
  run_step. rewrite Hnet. run_step. rewrite raise_for_status_run, Herr.
  run_step. destruct (status_code r =? 401); simpl; rewrite <- ?app_assoc; done.
Qed.

Lemma get_messages_http_error_witness :
  fst (get_messages unauthorized MailTmAPI_default (JStr "tok") initial)
    = Ret JNull
  ∧ out (snd (get_messages unauthorized MailTmAPI_default (JStr "tok") initial))
    = ["Error fetching messages: 401 Client Error: Unauthorized for url: https://api.mail.tm/messages";
       auth_line].
Proof.
  exact (get_messages_http_error unauthorized MailTmAPI_default (JStr "tok")
           initial _ eq_refl eq_refl).
Defined.

(** *** [get_message_content] *)

(** C7 as the specification states it. *)
Definition not_found_distinct : Prop :=
  ∀ w1 w2 self token id s r1 r2,
    net w1 (message_request w1 self token id) = Resp r1 →
    status_code r1 = 404 →
    net w2 (message_request w2 self token id) = Resp r2 →
    http_error r2 = true → status_code r2 ≠ 404 →
    fst (get_message_content w1 self token id s)
    ≠ fst (get_message_content w2 self token id s).

Definition is_detail (v : json) : Prop :=
  ∃ d text tos,
    v = JObj d ∧ dict_get "text" d = Some text
    ∧ dict_get "to" d = Some (JArr tos) ∧ tos ≠ [].

Definition valid_id_gives_detail : Prop :=
  ∀ w self token id s r v,
    net w (message_request w self token id) = Resp r →
    http_error r = false → resp_body r = Json v → is_detail v →
    ∃ v', fst (get_message_content w self token id s) = Ret v' ∧ is_detail v'.

Definition fetch_message_claim : Prop :=
  not_found_distinct ∧ valid_id_gives_detail.

Definition missing : world :=
  answering 404 "Not Found" (Json (JObj [("message", JStr "Not Found")])).

(** C7, counterexample: a 404 and a 503 hand the caller the same [None]. *)
Lemma not_found_not_distinct : ¬ fetch_message_claim.
Proof.
  intros [H _].
  apply (H missing unavailable MailTmAPI_default (JStr "tok") "m1" initial
           _ _ eq_refl eq_refl eq_refl eq_refl); [discriminate|reflexivity].
Qed.

(** the lines [get_message_content] prints for an answer *)
Definition fetch_report (message_id : string) (r : response) : list string :=
  let error e :=
    "Error fetching message content for ID " +:+ message_id +:+ ": " +:+ e in
  if http_error r then
    [error (status_error_msg r)]
      ++ (if status_code r =? 401 then [auth_line] else [])
      ++ (if status_code r =? 404 then [not_found_line] else [])
  else match resp_body r with
       | NotJson err => [error err]
       | Json _ => []
       end.

(** C7 (amended): once the server answered, [get_message_content] gives the
    JSON body of a good answer unchanged, and [None] otherwise; the status
    only selects the lines printed ([not_found_line] on a 404). *)
Theorem get_message_content_answer (w : world) (self : MailTmAPI)
    (token : json) (message_id : string) (s : state) (r : response) :
  net w (message_request w self token message_id) = Resp r →
  fst (get_message_content w self token message_id s)
    = Ret (answer_json (Resp r))
  ∧ out (snd (get_message_content w self token message_id s))
    = out s ++ fetch_report message_id r.
Proof.
  intros Hnet. unfold message_request in Hnet.
  unfold answer_json, fetch_report.
  run_step. rewrite Hnet. run_step. rewrite raise_for_status_run.
  destruct (http_error r) eqn:Herr; run_step.
  - destruct (status_code r =? 401), (status_code r =? 404); simpl;
      rewrite <- ?app_assoc; done.
  - destruct (resp_body r); run_step.
    + assert (Hno : (status_code r =? 401) = false
                    ∧ (status_code r =? 404) = false).
      { unfold http_error in Herr. split; apply Z.eqb_neq; intros E;
          rewrite E in Herr; discriminate. }
      destruct Hno as [-> ->]. done.
    + simpl. by rewrite app_nil_r.
Qed.

Lemma get_message_content_answer_witness :
  fst (get_message_content missing MailTmAPI_default (JStr "tok") "m1" initial)
    = Ret JNull.
Proof.
  exact (proj1 (get_message_content_answer missing MailTmAPI_default
                  (JStr "tok") "m1" initial _ eq_refl)).
Defined.

(** *** [get_domains] *)

(** the name an entry of the collection carries *)
Definition domain_of (entry : json) : option json :=
  match entry with
  | JObj d => dict_get "domain" d
  | _ => None
  end.

Fixpoint names_of (entries : list json) : option (list json) :=
  match entries with
  | [] => Some []
  | entry :: rest =>
      match domain_of entry, names_of rest with
      | Some name, Some names => Some (name :: names)
      | _, _ => None
      end
  end.

(** the names in a well-formed collection envelope, in server order *)
Definition envelope_names (data : json) : option (list json) :=
  match data with
  | JObj d =>
      match dict_get "hydra:member" d with
      | Some (JArr entries) => names_of entries
      | _ => None
      end
  | _ => None
  end.

(** the first entry of the collection that carries no name *)
Fixpoint first_unnamed (entries : list json) : option json :=
  match entries with
  | [] => None
  | entry :: rest =>
      match domain_of entry with
      | Some _ => first_unnamed rest
      | None => Some entry
      end
  end.

(** what [v[key]] raises when [v] has no such key: [KeyError] on an object,
    [TypeError] on anything else *)
Definition lookup_error (key : string) (v : json) : exn :=
  match v with
  | JObj _ => KeyError key
  | _ => TypeError
  end.

(** a collection that is no list and has nothing to go through: the empty
    string and the empty object *)
Definition empty_non_list (members : json) : bool :=
  match members with
  | JStr EmptyString => true
  | JObj [] => true
  | _ => false
  end.

Definition is_object (v : json) : bool :=
  match v with JObj _ => true | _ => false end.

Definition is_array (v : json) : bool :=
  match v with JArr _ => true | _ => false end.

(** What [get_domains] gives for an outcome of its request, and the lines
    it prints.  The first constructor is the well-formed envelope, the next
    three are the failures that are reported, and the last five are the
    bodies of another shape, each with the exception that leaves the
    function. *)
Inductive domains_outcome (o : http_outcome)
  : result json → list string → Prop :=
| domains_listed r data names :
    o = Resp r → http_error r = false → resp_body r = Json data →
    envelope_names data = Some names →
    domains_outcome o (Ret (JArr names)) []
| domains_unreachable msg :
    o = ConnFail msg →
    domains_outcome o (Ret JNull) ["Error fetching domains: " +:+ msg]
| domains_refused r :
    o = Resp r → http_error r = true →
    domains_outcome o (Ret JNull)
      ["Error fetching domains: " +:+ status_error_msg r]
| domains_not_json r err :
    o = Resp r → http_error r = false → resp_body r = NotJson err →
    domains_outcome o (Ret JNull) ["Error fetching domains: " +:+ err]
| domains_not_an_object r data :
    o = Resp r → http_error r = false → resp_body r = Json data →
    is_object data = false →
    domains_outcome o (Raise TypeError) []
| domains_no_collection r d :
    o = Resp r → http_error r = false → resp_body r = Json (JObj d) →
    dict_get "hydra:member" d = None →
    domains_outcome o (Raise (KeyError "hydra:member")) []
| domains_empty_non_list r d members :
    o = Resp r → http_error r = false → resp_body r = Json (JObj d) →
    dict_get "hydra:member" d = Some members →
    empty_non_list members = true →
    domains_outcome o (Ret (JArr [])) []
| domains_not_a_list r d members :
    o = Resp r → http_error r = false → resp_body r = Json (JObj d) →
    dict_get "hydra:member" d = Some members →
    is_array members = false → empty_non_list members = false →
    domains_outcome o (Raise TypeError) []
| domains_unnamed_entry r d entries entry :
    o = Resp r → http_error r = false → resp_body r = Json (JObj d) →
    dict_get "hydra:member" d = Some (JArr entries) →
    first_unnamed entries = Some entry →
    domains_outcome o (Raise (lookup_error "domain" entry)) [].

(** C9 as the specification states it, for one run: the names of a
    well-formed envelope, or a reported failure. *)
Definition domains_or_reported_failure (w : world) (self : MailTmAPI)
    (s : state) : Prop :=
  let res := fst (get_domains w self s) in
  (∃ r data names,
      net w (domains_request self) = Resp r ∧ resp_body r = Json data
      ∧ envelope_names data = Some names ∧ res = Ret (JArr names))
  ∨ res = Ret JNull.

Definition no_envelope : world := answering 200 "OK" (Json (JObj [])).

(** C9, counterexample: a JSON object without the collection key makes
    [get_domains] raise [KeyError]. *)
Lemma unexpected_shape_raises :
  fst (get_domains no_envelope MailTmAPI_default initial)
    = Raise (KeyError "hydra:member")
  ∧ ¬ domains_or_reported_failure no_envelope MailTmAPI_default initial.
Proof.
  split; [reflexivity|].
  unfold domains_or_reported_failure.
  intros [(r & data & names & _ & _ & _ & H) | H]; vm_compute in H;
    discriminate.
Qed.

Lemma comprehension_cons_run {A B} (f : A → M B) (x : A) (l : list A)
    (s : state) :
  comprehension (x :: l) f s =
    match f x s with
    | (Ret y, s1) =>
        match comprehension l f s1 with
        | (Ret ys, s2) => (Ret (y :: ys), s2)
        | (Raise e, s2) => (Raise e, s2)
        end
    | (Raise e, s1) => (Raise e, s1)
    end.
Proof.
  cbn [comprehension]. unfold bind, ret.
  destruct (f x s) as [[y|e] s1]; [|reflexivity].
  destruct (comprehension l f s1) as [[ys|e] s2]; reflexivity.
Qed.

Lemma comprehension_domains (entries : list json) (s : state) :
  (∃ names, names_of entries = Some names
            ∧ comprehension entries (λ domain, lift (getitem domain "domain")) s
              = (Ret names, s))
  ∨ (names_of entries = None
     ∧ ∃ e, comprehension entries (λ domain, lift (getitem domain "domain")) s
            = (Raise e, s)
            ∧ is_RequestException e = false).
Proof.
  induction entries as [|entry rest IH]; [left; by exists []|].
  rewrite comprehension_cons_run. cbn [names_of]. unfold lift in *.
  destruct entry as [| | | | |d]; cbn [getitem domain_of];
    [right; split; [reflexivity|]; by eexists..|].
  destruct (dict_get "domain" d) as [name|];
    [|right; split; [reflexivity|]; by eexists].
  destruct IH as [(names & -> & ->) | (-> & e & -> & He)].
  - left. by eexists.
  - right. split; [reflexivity|]. eexists. split; [reflexivity|assumption].
Qed.

Lemma first_unnamed_none (entries : list json) :
  first_unnamed entries = None ↔ ∃ names, names_of entries = Some names.
Proof.
  induction entries as [|entry rest IH]; cbn [first_unnamed names_of].
  - split; [by exists []|done].
  - destruct (domain_of entry) as [name|].
    + rewrite IH. split.
      * intros [names ->]. by eexists.
      * intros [names H]. destruct (names_of rest); [by eexists|discriminate].
    + split; [discriminate|]. by intros [names H].
Qed.

Lemma comprehension_unnamed (entries : list json) (entry : json) (s : state) :
  first_unnamed entries = Some entry →
  comprehension entries (λ domain, lift (getitem domain "domain")) s
  = (Raise (lookup_error "domain" entry), s).
Proof.
  induction entries as [|e rest IH]; cbn [first_unnamed]; [discriminate|].
  rewrite comprehension_cons_run. unfold lift in *.
  destruct e as [| | | | |d]; cbn [domain_of getitem];
    try (intros [= <-]; reflexivity).
  destruct (dict_get "domain" d) as [name|].
  - intros H. by rewrite (IH H).
  - intros [= <-]. reflexivity.
Qed.

(** The outcome of the request settles what [get_domains] gives and what it
    prints: no two cases of [domains_outcome] overlap. *)
Lemma domains_outcome_unique (o : http_outcome) (res res' : result json)
    (lines lines' : list string) :
  domains_outcome o res lines → domains_outcome o res' lines' →
  res = res' ∧ lines = lines'.
Proof.
  assert (Hnames : ∀ entries entry names,
            first_unnamed entries = Some entry →
            names_of entries = Some names → False).
  { intros entries entry names Hu Hn.
    assert (first_unnamed entries = None) as H
      by (apply first_unnamed_none; by eexists).
    congruence. }
  intros H H'.
  destruct H; destruct H'; subst;
    repeat match goal with
           | H : Resp _ = Resp _ |- _ => injection H as ->
           | H : ConnFail _ = ConnFail _ |- _ => injection H as ->
           | H : _ = ConnFail _ |- _ => discriminate H
           | H : ConnFail _ = _ |- _ => discriminate H
           end;
    try congruence;
    repeat match goal with
           | H : resp_body ?r = _, H' : resp_body ?r = _ |- _ =>
               rewrite H in H'; injection H' as <-
           end;
    repeat match goal with
           | H : dict_get ?k ?d = _, H' : dict_get ?k ?d = _ |- _ =>
               rewrite H in H'; try discriminate H'; injection H' as <-
           end;
    try discriminate;
    try (split; congruence);
    cbn [envelope_names is_object is_array empty_non_list] in *;
    repeat match goal with
           | H : context [dict_get ?k ?d], H' : dict_get ?k ?d = _ |- _ =>
               rewrite H' in H
           end;
    try discriminate;
    try (exfalso; eapply Hnames; eassumption);
    try (destruct members as [| | |[|? ?]| |[|? ?]]; discriminate);
    try (destruct data; discriminate).
Qed.

(** C9 (amended): the names of a well-formed envelope come back in server
    order; a connection failure, an HTTP error status and a body that is
    not JSON are each answered by one printed line and [None]; a JSON body
    of another shape is not recovered: nothing is printed and the
    [KeyError] or [TypeError] leaves the function, unless the collection is
    an empty string or an empty object, which gives the empty list. *)
Theorem get_domains_outcomes (w : world) (self : MailTmAPI) (s : state) :
  ∃ printed,
    out (snd (get_domains w self s)) = out s ++ printed
    ∧ domains_outcome (net w (domains_request self))
        (fst (get_domains w self s)) printed.
Proof.
  unfold domains_request. run_step.
  destruct (net w _) as [msg|r] eqn:Hnet; run_step.
  { eexists. split; [reflexivity|]. by eapply domains_unreachable. }
  rewrite raise_for_status_run.
  destruct (http_error r) eqn:Herr; run_step.
  { eexists. split; [reflexivity|]. by eapply domains_refused. }
  destruct (resp_body r) as [err|data] eqn:Hbody; run_step.
  { eexists. split; [reflexivity|]. by eapply domains_not_json. }
  exists []. rewrite app_nil_r.
  destruct data as [| | | | |d]; cbn [getitem is_RequestException];
    try (split; [reflexivity|]; by eapply domains_not_an_object).
  destruct (dict_get "hydra:member" d) as [members|] eqn:Hmem;
    cbn [is_RequestException];
    [|split; [reflexivity|]; by eapply domains_no_collection].
  destruct members as [| | |str|entries|dd]; cbn [iter is_RequestException];
    try (split; [reflexivity|]; by eapply domains_not_a_list).
  - destruct str as [|c str]; cbn [chars comprehension].
    + split; [reflexivity|]. by eapply domains_empty_non_list.
    + cbn. split; [reflexivity|]. by eapply domains_not_a_list.
  - destruct (first_unnamed entries) as [entry|] eqn:Hfirst.
    + match goal with
      | |- context [comprehension entries ?f ?st] =>
          pose proof (comprehension_unnamed entries entry st Hfirst) as Hc;
          unfold lift in Hc; rewrite Hc
      end.
      assert (He : is_RequestException (lookup_error "domain" entry) = false)
        by (by destruct entry).
      rewrite He. split; [reflexivity|]. by eapply domains_unnamed_entry.
    + apply first_unnamed_none in Hfirst as [names Hnames].
      match goal with
      | |- context [comprehension entries ?f ?st] =>
          pose proof (comprehension_domains entries st) as Hc;
          unfold lift in Hc;
          destruct Hc as [(names' & Hn & ->) | (Hn & _)]; [|congruence]
      end.
      split; [reflexivity|]. eapply domains_listed; eauto.
      cbn. by rewrite Hmem.
  - destruct dd as [|[k v] dd]; cbn [map comprehension].
    + split; [reflexivity|]. by eapply domains_empty_non_list.
    + cbn. split; [reflexivity|]. by eapply domains_not_a_list.
Qed.

(* ===================================================================== *)
(** ** Random credentials: length and alphabet *)
(* ===================================================================== *)

Definition between (lo hi : nat) (c : ascii) : bool :=
  ((lo <=? nat_of_ascii c) && (nat_of_ascii c <=? hi))%nat.

Definition is_ascii_letter (c : ascii) : bool :=
  between 65 90 c || between 97 122 c.
Definition is_ascii_digit (c : ascii) : bool := between 48 57 c.
Definition is_ascii_punctuation (c : ascii) : bool :=
  between 33 47 c || between 58 64 c || between 91 96 c || between 123 126 c.

Definition password_char (c : ascii) : bool :=
  is_ascii_letter c || is_ascii_digit c || is_ascii_punctuation c.

Definition password_alphabet : list ascii :=
  list_ascii_of_string
    (PyString.ascii_letters +:+ PyString.digits +:+ PyString.punctuation).

Lemma password_alphabet_chars :
  forallb password_char password_alphabet = true.
Proof. reflexivity. Qed.

Lemma random_choice_run (w : world) (seq : list ascii) (s : state) :
  seq ≠ [] →
  ∃ c, random_choice w seq s = (Ret c, set_draws S s) ∧ In c seq.
Proof.
  intros Hne. unfold random_choice.
  destruct (nth_error seq (rand w (draws s) mod length seq)) as [c|] eqn:E.
  - exists c. split; [reflexivity|]. by eapply nth_error_In.
  - exfalso. apply nth_error_None in E.
    assert (length seq ≠ 0)%nat by (destruct seq; simpl; congruence).
    pose proof (Nat.mod_upper_bound (rand w (draws s)) (length seq)). lia.
Qed.

Lemma random_string_run (w : world) (seq : list ascii) (n : nat) :
  seq ≠ [] →
  ∀ s, ∃ str s',
    random_string w seq n s = (Ret str, s')
    ∧ String.length str = n
    ∧ Forall (λ c, In c seq) (list_ascii_of_string str)
    ∧ fs s' = fs s ∧ out s' = out s ∧ reqs s' = reqs s
    ∧ stdin s' = stdin s.
Proof.
  intros Hne. induction n as [|n IH]; intros s.
  - exists EmptyString, s. repeat split; constructor.
  - cbn [random_string]. unfold bind at 1.
    destruct (random_choice_run w seq s Hne) as (c & -> & Hc).
    unfold bind at 1.
    destruct (IH (set_draws S s)) as (str & s' & -> & Hlen & Hall & Hrest).
    exists (String c str), s'. unfold ret. split; [reflexivity|].
    split; [simpl; congruence|]. split; [by constructor|]. exact Hrest.
Qed.

(** C10: the password has the requested length, or 8 when less was asked,
    and only letters, digits and punctuation in it. *)
Theorem generate_strong_password_shape (w : world) (length : Z) (s : state) :
  ∃ password s',
    generate_strong_password w length s = (Ret password, s')
    ∧ Z.of_nat (String.length password) = (if length <? 8 then 8 else length)
    ∧ forallb password_char (list_ascii_of_string password) = true.
Proof.
  unfold generate_strong_password. fold password_alphabet.
  destruct (random_string_run w password_alphabet
              (Z.to_nat (if length <? 8 then 8 else length))
              ltac:(discriminate) s)
    as (pw & s' & Hrun & Hlen & Hall & _).
  exists pw, s'. split; [exact Hrun|]. split.
  - rewrite Hlen. destruct (length <? 8) eqn:E; lia.
  - apply forallb_forall. intros c Hc.
    rewrite List.Forall_forall in Hall.
    pose proof password_alphabet_chars as Hchars.
    rewrite forallb_forall in Hchars. auto.
Qed.

(* ===================================================================== *)
(** ** The accounts file *)
(* ===================================================================== *)

Lemma bind_ret_run {A B} (m : M A) (k : A → M B) (s s' : state) (a : A) :
  m s = (Ret a, s') → bind m k s = k a s'.
Proof. intros E. unfold bind. by rewrite E. Qed.

Lemma bind_raise_run {A B} (m : M A) (k : A → M B) (s s' : state) (e : exn) :
  m s = (Raise e, s') → bind m k s = (Raise e, s').
Proof. intros E. unfold bind. by rewrite E. Qed.

Section StoreFacts.
Context `{JsonModule}.
Variable w : world.
Variable filename : string.

Definition warning_line : string :=
  "Warning: JSON file is empty or corrupted. Returning empty account list.".

Ltac run_store :=
  cbv beta iota zeta delta
    [load_accounts_from_json save_account_to_json os_path_exists read_file
     json_load write_json try_clauses try_except handle list_append bind ret
     raise print fst snd is_Exception].

(** [load_accounts_from_json] never raises and never touches a file. *)
Lemma load_total (s : state) :
  ∃ v printed,
    load_accounts_from_json w filename s
    = (Ret v, set_out (λ o, o ++ printed) s)
    ∧ (length printed ≤ 1)%nat.
Proof.
  assert (Hs : set_out (λ o, o ++ []) s = s).
  { destruct s. unfold set_out. simpl. by rewrite app_nil_r. }
  assert (Hquiet : ∀ v : json, ∃ v' printed,
            (Ret v, s) = (Ret v', set_out (λ o, o ++ printed) s)
            ∧ (length printed ≤ 1)%nat).
  { intros v. exists v, []. rewrite Hs. split; [reflexivity|simpl; lia]. }
  assert (Hline : ∀ (v : json) line, ∃ v' printed,
            (Ret v, set_out (λ o, o ++ [line]) s)
            = (Ret v', set_out (λ o, o ++ printed) s)
            ∧ (length printed ≤ 1)%nat).
  { intros v line. exists v, [line]. split; [reflexivity|simpl; lia]. }
  run_store.
  destruct (fs s !! filename) as [text|] eqn:Hfile.
  - rewrite bool_decide_eq_true_2 by eauto. cbn [negb].
    destruct (read_fault w filename) as [e|].
    + destruct (is_FileNotFoundError e); [apply Hquiet|].
      destruct (is_JSONDecodeError e); apply Hline.
    + rewrite Hfile. destruct (loads text) as [v|]; [apply Hquiet|apply Hline].
  - rewrite bool_decide_eq_false_2 by (intros [? ?]; congruence).
    apply Hquiet.
Qed.

(** What it returns is decided by the file alone. *)
Lemma load_result (s : state) :
  fst (load_accounts_from_json w filename s) =
    match fs s !! filename with
    | None => Ret (JArr [])
    | Some text =>
        match read_fault w filename with
        | Some _ => Ret (JArr [])
        | None =>
            match loads text with
            | Some v => Ret v
            | None => Ret (JArr [])
            end
        end
    end.
Proof.
  run_store.
  destruct (fs s !! filename) as [text|] eqn:Hfile.
  - rewrite bool_decide_eq_true_2 by eauto. cbn [negb].
    destruct (read_fault w filename) as [e|].
    + destruct (is_FileNotFoundError e); [reflexivity|].
      destruct (is_JSONDecodeError e); reflexivity.
    + rewrite Hfile. destruct (loads text); reflexivity.
  - by rewrite bool_decide_eq_false_2 by (intros [? ?]; congruence).
Qed.

Lemma load_same_files (s1 s2 : state) :
  fs s1 = fs s2 →
  fst (load_accounts_from_json w filename s1)
  = fst (load_accounts_from_json w filename s2).
Proof. intros E. by rewrite !load_result, E. Qed.

(** C3: no file, an empty file and a file that does not parse all load as
    the empty list, with at most one line printed and no exception. *)
Theorem load_degenerate_store (s : state) :
  fs s !! filename = None
  ∨ fs s !! filename = Some EmptyString
  ∨ (∃ text, fs s !! filename = Some text ∧ loads text = None) →
  ∃ printed,
    load_accounts_from_json w filename s
    = (Ret (JArr []), set_out (λ o, o ++ printed) s)
    ∧ (length printed ≤ 1)%nat.
Proof.
  intros Hfile.
  destruct (load_total s) as (v & printed & Hrun & Hlen).
  exists printed. split; [|exact Hlen].
  rewrite Hrun. f_equal. f_equal.
  pose proof (load_result s) as Hres. rewrite Hrun in Hres. simpl in Hres.
  destruct Hfile as [E|[E|(text & E & Hbad)]]; rewrite E in Hres.
  - by injection Hres.
  - rewrite loads_empty in Hres.
    destruct (read_fault w filename); by injection Hres.
  - rewrite Hbad in Hres.
    destruct (read_fault w filename); by injection Hres.
Qed.

(** What [save_account_to_json] does to the files once the store loads as
    a list: it never raises, and the fate of the write decides the text. *)
Lemma save_files (s : state) (recs : list json) (rec : json) :
  fst (load_accounts_from_json w filename s) = Ret (JArr recs) →
  fst (save_account_to_json w rec filename s) = Ret tt
  ∧ fs (snd (save_account_to_json w rec filename s)) =
      match write_fault w (writes s) with
      | WriteOK => <[filename := dumps (JArr (recs ++ [rec]))]> (fs s)
      | OpenFails _ => fs s
      | FailsAfter n _ =>
          <[filename := String.substring 0 n (dumps (JArr (recs ++ [rec])))]>
            (fs s)
      end.
Proof.
  intros Hload.
  destruct (load_total s) as (v & printed & Hrun & _).
  rewrite Hrun in Hload. simpl in Hload. injection Hload as ->.
  unfold save_account_to_json. rewrite (bind_ret_run _ _ _ _ _ Hrun).
  cbv beta iota zeta delta
    [write_json try_except list_append bind ret raise print is_Exception].
  cbn [writes set_out].
  destruct (write_fault w (writes s)); split; reflexivity.
Qed.

(** The store after a run of successful appends, started on a store that
    is empty: no file yet (first run), or a file that does not parse. *)
Inductive holds_appended : state → list json → Prop :=
| fresh_store s :
    fs s !! filename = None
    ∨ (∃ text, fs s !! filename = Some text ∧ loads text = None) →
    holds_appended s []
| after_append s recs rec :
    holds_appended s recs →
    write_fault w (writes s) = WriteOK →
    holds_appended (snd (save_account_to_json w rec filename s))
      (recs ++ [rec])
| after_other s s' recs :
    holds_appended s recs → fs s' = fs s → holds_appended s' recs.

Lemma holds_appended_loads (s : state) (recs : list json) :
  read_fault w filename = None →
  holds_appended s recs →
  fst (load_accounts_from_json w filename s) = Ret (JArr recs).
Proof.
  intros Hread.
  induction 1 as [s Hfresh|s recs rec _ IH Hok|s s' recs _ IH Hfs].
  - rewrite load_result.
    destruct Hfresh as [->|(text & -> & ->)]; [reflexivity|].
    by rewrite Hread.
  - destruct (save_files s recs rec IH) as [_ Hfiles].
    rewrite Hok in Hfiles.
    rewrite load_result, Hfiles, lookup_insert_eq, Hread, loads_dumps.
    reflexivity.
  - by rewrite (load_same_files s' s).
Qed.

(** C4: after any run of successful appends, one more append followed by
    a load gives the records appended before, in order, and the new one
    last. *)
Theorem append_then_load (s : state) (recs : list json) (rec : json) :
  read_fault w filename = None →
  holds_appended s recs →
  write_fault w (writes s) = WriteOK →
  fst (load_accounts_from_json w filename
         (snd (save_account_to_json w rec filename s)))
  = Ret (JArr (recs ++ [rec])).
Proof.
  intros Hread Hstore Hok.
  apply holds_appended_loads; [assumption|]. by apply after_append.
Qed.

(** C5 as the specification states it: whatever stops the write, the next
    load still gives every record stored before. *)
Definition failed_write_keeps_records : Prop :=
  ∀ (s : state) (recs : list json) (rec : json),
    read_fault w filename = None →
    fst (load_accounts_from_json w filename s) = Ret (JArr recs) →
    write_fault w (writes s) ≠ WriteOK →
    ∃ recs',
      fst (load_accounts_from_json w filename
             (snd (save_account_to_json w rec filename s)))
      = Ret (JArr recs')
      ∧ (recs' = recs ∨ recs' = recs ++ [rec]).

(** C5 (amended): a write that fails never makes [save_account_to_json]
    raise.  When it fails on opening the file, the files are untouched and
    the next load gives the records stored before; when it fails later,
    the file is left with the characters written so far. *)
Theorem failed_write_store (s : state) (recs : list json) (rec : json) :
  fst (load_accounts_from_json w filename s) = Ret (JArr recs) →
  write_fault w (writes s) ≠ WriteOK →
  let s' := snd (save_account_to_json w rec filename s) in
  fst (save_account_to_json w rec filename s) = Ret tt
  ∧ match write_fault w (writes s) with
    | FailsAfter n _ =>
        fs s' !! filename
        = Some (String.substring 0 n (dumps (JArr (recs ++ [rec]))))
    | _ =>
        fs s' = fs s
        ∧ fst (load_accounts_from_json w filename s') = Ret (JArr recs)
    end.
Proof.
  intros Hload Hfault s'. subst s'.
  destruct (save_files s recs rec Hload) as [Hret Hfiles].
  split; [exact Hret|].
  destruct (write_fault w (writes s)) as [|e|n e]; [congruence| |].
  - split; [exact Hfiles|]. by rewrite (load_same_files _ s).
  - rewrite Hfiles. apply lookup_insert_eq.
Qed.

End StoreFacts.

(** *** The store on a concrete file system *)

Definition accounts_file : string := "mailtm_accounts.json".

Definition record (address id : string) (token : list (string * json))
  : json :=
  JObj ([("id", JStr id); ("address", JStr address);
         ("password", JStr "pw")] ++ token).

Definition first_record : json :=
  record "abc123xyz9@example.com" "65f0c1" [("token", JStr "eyJ0eXAi")].
Definition second_record : json :=
  record "k2j9q0w8e7@example.com" "65f0c2" [].
Definition third_record : json :=
  record "zz81mmq0p4@example.com" "65f0c3" [("token", JStr "eyJhbGci")].

(** a world whose second write stops before the first character *)
Definition disk_full : world :=
  mkWorld (λ _, ConnFail "Connection refused") (λ i, i) (λ _, None)
    (λ i, match i with
          | O => WriteOK
          | _ => FailsAfter 0 (OSError "[Errno 28] No space left on device")
          end)
    simple_int JsonText.dumps.

Definition corrupt : state :=
  mkState {[ accounts_file := "[{" ]} [] [] [] 0 0.

Lemma load_degenerate_store_witness :
  ∃ printed,
    load_accounts_from_json offline accounts_file corrupt
    = (Ret (JArr []), set_out (λ o, o ++ printed) corrupt)
    ∧ (length printed ≤ 1)%nat.
Proof.
  apply (load_degenerate_store offline accounts_file corrupt).
  right. right. exists "[{". split; reflexivity.
Defined.

Definition one_stored : state :=
  snd (save_account_to_json offline first_record accounts_file initial).

Lemma append_then_load_witness :
  fst (load_accounts_from_json offline accounts_file
         (snd (save_account_to_json offline second_record accounts_file
                 one_stored)))
  = Ret (JArr [first_record; second_record]).
Proof.
  apply (append_then_load offline accounts_file one_stored [first_record]
           second_record).
  - reflexivity.
  - apply (after_append offline accounts_file initial [] first_record).
    + apply fresh_store. left. reflexivity.
    + reflexivity.
  - reflexivity.
Defined.

Definition one_stored_then_full : state :=
  snd (save_account_to_json disk_full first_record accounts_file initial).

(** C5, counterexample: the write of the second record stops after the
    file was opened; the next load finds an empty file and gives the empty
    list: the first record is gone. *)
Lemma failed_write_loses_records :
  fst (load_accounts_from_json disk_full accounts_file one_stored_then_full)
    = Ret (JArr [first_record])
  ∧ fst (load_accounts_from_json disk_full accounts_file
           (snd (save_account_to_json disk_full second_record accounts_file
                   one_stored_then_full)))
    = Ret (JArr [])
  ∧ ¬ failed_write_keeps_records disk_full accounts_file.
Proof.
  assert (H1 : fst (load_accounts_from_json disk_full accounts_file
                      one_stored_then_full) = Ret (JArr [first_record]))
    by (vm_compute; reflexivity).
  assert (H2 : fst (load_accounts_from_json disk_full accounts_file
                      (snd (save_account_to_json disk_full second_record
                              accounts_file one_stored_then_full)))
               = Ret (JArr []))
    by (vm_compute; reflexivity).
  split; [exact H1|]. split; [exact H2|].
  intros Hclaim.
  destruct (Hclaim one_stored_then_full [first_record] second_record
              eq_refl H1 ltac:(discriminate)) as (recs' & Hload & Hrecs).
  rewrite H2 in Hload. injection Hload as <-.
  destruct Hrecs; discriminate.
Qed.

Lemma failed_write_store_witness :
  fst (save_account_to_json disk_full second_record accounts_file
         one_stored_then_full) = Ret tt
  ∧ fs (snd (save_account_to_json disk_full second_record accounts_file
               one_stored_then_full)) !! accounts_file
    = Some EmptyString.
Proof.
  assert (H1 : fst (load_accounts_from_json disk_full accounts_file
                      one_stored_then_full) = Ret (JArr [first_record]))
    by (vm_compute; reflexivity).
  exact (failed_write_store disk_full accounts_file one_stored_then_full
           [first_record] second_record H1 ltac:(discriminate)).
Defined.

(* ===================================================================== *)
(** ** Selecting a stored account *)
(* ===================================================================== *)

(** A step of the program is quiet when it leaves every file as it was
    and sends nothing but GET requests. *)
Definition quiet (s s' : state) : Prop :=
  fs s' = fs s
  ∧ ∃ sent, reqs s' = reqs s ++ sent ∧ Forall (λ r, req_method r = GET) sent.

Definition reads_only {A} (m : M A) : Prop := ∀ s, quiet s (snd (m s)).

Lemma quiet_refl (s : state) : quiet s s.
Proof. split; [reflexivity|]. exists []. by rewrite app_nil_r. Qed.

Lemma quiet_trans (s1 s2 s3 : state) : quiet s1 s2 → quiet s2 s3 → quiet s1 s3.
Proof.
  intros [Hf1 (l1 & Hr1 & Hg1)] [Hf2 (l2 & Hr2 & Hg2)].
  split; [congruence|]. exists (l1 ++ l2).
  split; [by rewrite Hr2, Hr1, app_assoc|]. by apply Forall_app.
Qed.

Lemma quiet_same (s s' : state) :
  fs s' = fs s → reqs s' = reqs s → quiet s s'.
Proof.
  intros Hf Hr. split; [exact Hf|]. exists []. by rewrite app_nil_r.
Qed.

Lemma reads_only_ret {A} (a : A) : reads_only (ret a).
Proof. intros s. apply quiet_refl. Qed.

Lemma reads_only_raise {A} (e : exn) : reads_only (raise e : M A).
Proof. intros s. apply quiet_refl. Qed.

Lemma reads_only_lift {A} (r : result A) : reads_only (lift r).
Proof. intros s. apply quiet_refl. Qed.

Lemma reads_only_print (line : string) : reads_only (print line).
Proof. intros s. by apply quiet_same. Qed.

Lemma reads_only_input (prompt : string) : reads_only (input prompt).
Proof. intros s. unfold input. destruct (stdin s); by apply quiet_same. Qed.

Lemma reads_only_int (w : world) (t : string) : reads_only (int w t).
Proof. unfold int. destruct (int_of_str w t); intros s; apply quiet_refl. Qed.

Lemma reads_only_local {A} (name : string) (x : option A) :
  reads_only (local name x).
Proof. destruct x; intros s; apply quiet_refl. Qed.

Lemma reads_only_bind {A B} (m : M A) (k : A → M B) :
  reads_only m → (∀ a, reads_only (k a)) → reads_only (bind m k).
Proof.
  intros Hm Hk s. unfold bind. specialize (Hm s).
  destruct (m s) as [[a|e] s1]; [|exact Hm].
  eapply quiet_trans; [exact Hm|]. apply Hk.
Qed.

Lemma reads_only_when (b : bool) (m : M unit) :
  reads_only m → reads_only (when b m).
Proof. intros Hm. destruct b; [exact Hm|apply reads_only_ret]. Qed.

Lemma reads_only_try_except {A} (m : M A) (C : exn → bool) (h : exn → M A) :
  reads_only m → (∀ e, reads_only (h e)) → reads_only (try_except m C h).
Proof.
  intros Hm Hh s. unfold try_except. specialize (Hm s).
  destruct (m s) as [[a|e] s1]; [exact Hm|].
  destruct (C e); [|exact Hm].
  eapply quiet_trans; [exact Hm|]. apply Hh.
Qed.

Lemma reads_only_try_binding {A B} (m : M A) (k : A → M B) (C : exn → bool)
    (h : option A → exn → M B) :
  reads_only m → (∀ a, reads_only (k a)) → (∀ x e, reads_only (h x e)) →
  reads_only (try_binding m k C h).
Proof.
  intros Hm Hk Hh s. unfold try_binding. specialize (Hm s).
  destruct (m s) as [[a|e] s1].
  - eapply quiet_trans; [exact Hm|].
    by apply reads_only_try_except.
  - destruct (C e); [|exact Hm].
    eapply quiet_trans; [exact Hm|]. apply Hh.
Qed.

Lemma reads_only_for_each {A} (l : list A) (f : A → M unit) :
  (∀ a, reads_only (f a)) → reads_only (for_each l f).
Proof.
  intros Hf. induction l as [|a l IH]; cbn [for_each].
  - apply reads_only_ret.
  - apply reads_only_bind; auto.
Qed.

Lemma reads_only_comprehension {A B} (l : list A) (f : A → M B) :
  (∀ a, reads_only (f a)) → reads_only (comprehension l f).
Proof.
  intros Hf. induction l as [|a l IH]; cbn [comprehension].
  - apply reads_only_ret.
  - apply reads_only_bind; [auto|]. intros y.
    apply reads_only_bind; [auto|]. intros ys. apply reads_only_ret.
Qed.

Lemma reads_only_get (w : world) (url : string)
    (headers : list (string * string)) :
  reads_only (requests_get w url headers).
Proof.
  intros s. unfold requests_get, send.
  assert (Hq : quiet s (set_reqs (λ l, l ++ [mkRequest GET url headers None]) s)).
  { split; [reflexivity|]. eexists. split; [reflexivity|]. by constructor. }
  destruct (net w _); exact Hq.
Qed.

Lemma reads_only_raise_for_status (r : response) :
  reads_only (raise_for_status r).
Proof.
  intros s. rewrite raise_for_status_run.
  destruct (http_error r); apply quiet_refl.
Qed.

Lemma reads_only_response_json (r : response) : reads_only (response_json r).
Proof. unfold response_json. destruct (resp_body r); intros s; apply quiet_refl. Qed.

Create HintDb quiet_steps.
#[export] Hint Resolve reads_only_ret reads_only_raise reads_only_lift
  reads_only_print reads_only_input reads_only_int reads_only_local
  reads_only_get reads_only_raise_for_status reads_only_response_json
  : quiet_steps.

(** Decompose a computation into its steps. *)
Ltac quiet_steps :=
  repeat first
    [ progress auto with quiet_steps
    | apply reads_only_bind; [|intros ?]
    | apply reads_only_when
    | apply reads_only_try_except; [|intros ?]
    | apply reads_only_try_binding; [|intros ?|intros ? ?]
    | apply reads_only_for_each; intros ?
    | apply reads_only_comprehension; intros ?
    | match goal with
      | |- reads_only (if ?b then _ else _) => destruct b
      | |- reads_only (match ?x with _ => _ end) => destruct x
      | |- reads_only (let _ := _ in _) => cbv zeta
      end ].

Lemma reads_only_get_messages (w : world) (self : MailTmAPI) (token : json) :
  reads_only (get_messages w self token).
Proof. unfold get_messages. quiet_steps. Qed.

Lemma reads_only_get_message_content (w : world) (self : MailTmAPI)
    (token : json) (message_id : string) :
  reads_only (get_message_content w self token message_id).
Proof. unfold get_message_content. quiet_steps. Qed.

Lemma reads_only_load `{JsonModule} (w : world) (filename : string) :
  reads_only (load_accounts_from_json w filename).
Proof.
  intros s. destruct (load_total w filename s) as (v & printed & -> & _).
  by apply quiet_same.
Qed.

#[export] Hint Resolve reads_only_get_messages reads_only_get_message_content
  reads_only_load : quiet_steps.





(** a server that would hand out a token to whoever asks *)
Definition token_server : world :=
  answering 200 "OK" (Json (JObj [("token", JStr "eyJmcmVzaA")])).




(* ===================================================================== *)
(** ** A session, end to end *)
(* ===================================================================== *)

(** A server that follows the contract of the API. *)
Definition mail_server (r : request) : http_outcome :=
  let answer code why v := Resp (mkResponse code why (req_url r) (Json v)) in
  match req_method r, req_json r with
  | POST, Some (JObj payload) =>
      if String.eqb (req_url r) "https://api.mail.tm/accounts" then
        match dict_get "address" payload with
        | Some address =>
            answer 201 "Created"
              (JObj [("id", JStr "65f0c1"); ("address", address)])
        | None => answer 422 "Unprocessable Entity" (JObj [])
        end
      else answer 200 "OK" (JObj [("token", JStr "eyJ0eXAi")])
  | GET, _ =>
      if String.eqb (req_url r) "https://api.mail.tm/domains" then
        answer 200 "OK"
          (JObj [("hydra:member",
                  JArr [JObj [("id", JStr "d1");
                              ("domain", JStr "example.com")]])])
      else answer 200 "OK" (JObj [("hydra:member", JArr [])])
  | _, _ => ConnFail "Connection refused"
  end.

(** the draws that spell the user name [abc123xyz9] *)
Definition spelled : world :=
  mkWorld mail_server
    (λ i, nth i [0; 1; 2; 27; 28; 29; 23; 24; 25; 35] 0)%nat
    (λ _, None) (λ _, WriteOK) simple_int JsonText.dumps.

Definition first_run : state := mkState ∅ [] [] ["1"; "1"] 0 0.

(** The user creates an account on the only domain offered: the store,
    empty before, then holds exactly the new record, token included. *)
Example account_created_and_stored :
  let s := snd (main_iteration spelled MailTmAPI_default accounts_file None
                  first_run) in
  fst (load_accounts_from_json spelled accounts_file s)
  = Ret (JArr [JObj [("id", JStr "65f0c1");
                     ("address", JStr "abc123xyz9@example.com");
                     ("token", JStr "eyJ0eXAi")]])
  ∧ map req_url (reqs s)
    = ["https://api.mail.tm/domains"; "https://api.mail.tm/accounts";
       "https://api.mail.tm/token"; "https://api.mail.tm/messages"]
  ∧ last (out s) = Some "No messages found in your inbox yet.".
Proof. vm_compute. repeat split. Qed.

(** The whole program on that input ends when the input does. *)
Example main_reads_to_the_end :
  fst (main spelled 3 first_run) = Raise EOFError.
Proof. vm_compute. reflexivity. Qed.

(* ===================================================================== *)
(** ** More on the remote client *)
(* ===================================================================== *)

(** the state after some lines were printed *)
Definition printed (lines : list string) (s : state) : state :=
  set_out (λ o, o ++ lines) s.

(** the state after a request was sent *)
Definition sent (r : request) (s : state) : state :=
  set_reqs (λ l, l ++ [r]) s.

Lemma printed_nil (s : state) : printed [] s = s.
Proof. destruct s. unfold printed, set_out. simpl. by rewrite app_nil_r. Qed.

Lemma printed_printed (a b : list string) (s : state) :
  printed b (printed a s) = printed (a ++ b) s.
Proof. unfold printed, set_out. simpl. by rewrite app_assoc. Qed.

(** the line [get_token] prints for an outcome it recovers *)
Definition token_report (o : http_outcome) : list string :=
  let error e := ["Error getting token: " +:+ e] in
  match o with
  | ConnFail msg => error msg
  | Resp r =>
      if http_error r then error (status_error_msg r)
      else match resp_body r with
           | NotJson err => error err
           | Json _ => []
           end
  end.

Lemma get_token_state (w : world) (self : MailTmAPI) (address password : string)
    (s : state) :
  let req := token_request self address password in
  get_token w self address password s
  = (Ret (answer_json (net w req)), printed (token_report (net w req)) (sent req s)).
Proof.
  cbv zeta. run_client. fold (token_request self address password).
  unfold token_report, answer_json.
  destruct (net w (token_request self address password)) as [msg|r];
    [reflexivity|].
  cbv beta iota. rewrite raise_for_status_run.
  destruct (http_error r); [reflexivity|].
  destruct (resp_body r); [reflexivity|].
  cbv beta iota. by rewrite printed_nil.
Qed.

(** X1: [get_token] never raises, whatever becomes of its request: it
    sends one POST with the address and the password, gives the JSON body
    of a good answer and [None] otherwise, prints at most one line and
    leaves the files alone. *)
Theorem get_token_recovers (w : world) (self : MailTmAPI)
    (address password : string) (s : state) :
  let req := token_request self address password in
  let run := get_token w self address password s in
  fst run = Ret (answer_json (net w req))
  ∧ reqs (snd run) = reqs s ++ [req]
  ∧ fs (snd run) = fs s
  ∧ out (snd run) = out s ++ token_report (net w req)
  ∧ (length (token_report (net w req)) ≤ 1)%nat.
Proof.
  cbv zeta. rewrite get_token_state. repeat split.
  unfold token_report.
  destruct (net w _) as [msg|r]; [simpl; lia|].
  destruct (http_error r); [simpl; lia|].
  destruct (resp_body r); simpl; lia.
Qed.

(** *** [get_messages] on a good answer *)

Lemma get_messages_good_run (w : world) (self : MailTmAPI) (token : json)
    (s : state) (r : response) (data : json) :
  net w (messages_request w self token) = Resp r →
  http_error r = false →
  resp_body r = Json data →
  get_messages w self token s
  = (getitem data "hydra:member", sent (messages_request w self token) s).
Proof.
  intros Hnet Hgood Hbody. unfold messages_request in *.
  run_step. rewrite Hnet. run_step. rewrite raise_for_status_run, Hgood.
  run_step. rewrite Hbody. run_step.
  destruct data as [| | | | |d]; try reflexivity.
  cbn [getitem]. destruct (dict_get "hydra:member" d); reflexivity.
Qed.

(** X3: when the server gives a good answer with a JSON body,
    [get_messages] prints nothing and evaluates [body['hydra:member']]: the
    value under that key comes back as it is, whatever it is, and a body
    without the key (or one that is no object) makes the [KeyError] (or
    [TypeError]) leave the function. *)
Theorem get_messages_good_answer (w : world) (self : MailTmAPI) (token : json)
    (s : state) (r : response) (data : json) :
  net w (messages_request w self token) = Resp r →
  http_error r = false →
  resp_body r = Json data →
  let run := get_messages w self token s in
  fst run
  = match data with
    | JObj d =>
        match dict_get "hydra:member" d with
        | Some messages => Ret messages
        | None => Raise (KeyError "hydra:member")
        end
    | _ => Raise TypeError
    end
  ∧ out (snd run) = out s
  ∧ reqs (snd run) = reqs s ++ [messages_request w self token].
Proof.
  cbv zeta. intros Hnet Hgood Hbody.
  rewrite (get_messages_good_run w self token s r data Hnet Hgood Hbody).
  split; [|split; reflexivity].
  destruct data; reflexivity.
Qed.

Lemma get_messages_good_answer_witness :
  fst (get_messages no_envelope MailTmAPI_default (JStr "tok") initial)
  = Raise (KeyError "hydra:member").
Proof.
  exact (proj1 (get_messages_good_answer no_envelope MailTmAPI_default
                  (JStr "tok") initial _ (JObj []) eq_refl eq_refl eq_refl)).
Defined.

(** *** [create_account], path by path *)

Definition rejected_line : string :=
  "Account creation failed. Possible issues: Username too short, invalid domain, or username already taken.".

Lemma create_account_refused_run (w : world) (self : MailTmAPI)
    (username password : string) (domain : json) (s : state) (r : response) :
  let address := username +:+ "@" +:+ fmt w domain in
  net w (account_request self address password) = Resp r →
  http_error r = true →
  create_account w self username password domain s
  = (Ret JNull,
     printed (["Error creating account: " +:+ status_error_msg r]
                ++ (if status_code r =? 422 then [rejected_line] else []))
       (sent (account_request self address password) s)).
Proof.
  cbv zeta. intros Hnet Herr. unfold account_request in *.
  cbv beta iota zeta delta
    [create_account try_binding try_except requests_post send bind local
     when print ret raise].
  rewrite Hnet. cbv beta iota. rewrite raise_for_status_run, Herr.
  cbv beta iota. cbn [is_RequestException exn_str].
  destruct (status_code r =? 422); cbv beta iota;
    unfold printed, sent, rejected_line, set_out; simpl;
    rewrite <- ?app_assoc; reflexivity.
Qed.

(** X4: when the server refuses the account request with an HTTP error
    status, [create_account] gives [None] without asking for a token: the
    account request is the only one sent.  It prints the error, and the
    hint about the user name exactly on a 422. *)
Theorem create_account_refused (w : world) (self : MailTmAPI)
    (username password : string) (domain : json) (s : state) (r : response) :
  let address := username +:+ "@" +:+ fmt w domain in
  net w (account_request self address password) = Resp r →
  http_error r = true →
  let run := create_account w self username password domain s in
  fst run = Ret JNull
  ∧ reqs (snd run) = reqs s ++ [account_request self address password]
  ∧ fs (snd run) = fs s
  ∧ out (snd run)
    = out s ++ ["Error creating account: " +:+ status_error_msg r]
        ++ (if status_code r =? 422 then [rejected_line] else []).
Proof.
  cbv zeta. intros Hnet Herr.
  rewrite (create_account_refused_run w self username password domain s r
             Hnet Herr).
  repeat split.
Qed.

Definition rejecting : world :=
  answering 422 "Unprocessable Entity"
    (Json (JObj [("detail", JStr "address: This value is already used.")])).

Lemma create_account_refused_witness :
  fst (create_account rejecting MailTmAPI_default "abc123xyz9" "pw"
         (JStr "example.com") initial) = Ret JNull
  ∧ map req_url (reqs (snd (create_account rejecting MailTmAPI_default
                              "abc123xyz9" "pw" (JStr "example.com") initial)))
    = ["https://api.mail.tm/accounts"].
Proof.
  destruct (create_account_refused rejecting MailTmAPI_default "abc123xyz9"
              "pw" (JStr "example.com") initial _ eq_refl eq_refl)
    as (Hres & Hreqs & _).
  split; [exact Hres|]. rewrite Hreqs. reflexivity.
Defined.

Definition token_lost_line : string :=
  "Error getting token after account creation.".

(** X5: the account was created on the server but the token call failed:
    [create_account] gives [None] all the same, after both requests were
    sent, and the last line it prints says that the token is missing. *)
Theorem create_account_token_lost (w : world) (self : MailTmAPI)
    (username password : string) (domain : json) (s : state) (r : response)
    (data : json) :
  let address := username +:+ "@" +:+ fmt w domain in
  net w (account_request self address password) = Resp r →
  http_error r = false →
  resp_body r = Json data →
  answer_json (net w (token_request self address password)) = JNull →
  let run := create_account w self username password domain s in
  fst run = Ret JNull
  ∧ reqs (snd run)
    = reqs s ++ [account_request self address password;
                 token_request self address password]
  ∧ fs (snd run) = fs s
  ∧ last (out (snd run)) = Some token_lost_line.
Proof.
  cbv zeta. intros Hnet Hgood Hbody Htoken. unfold account_request in Hnet.
  cbv beta iota zeta delta
    [create_account try_binding try_except requests_post send bind local
     when print ret raise response_json lift].
  rewrite Hnet. cbv beta iota. rewrite raise_for_status_run, Hgood.
  cbv beta iota. rewrite Hbody. cbv beta iota.
  rewrite get_token_state. cbv zeta. rewrite Htoken.
  cbn [truthy]. cbv beta iota.
  unfold printed, sent, set_out, set_reqs, account_request. simpl.
  repeat split.
  - by rewrite <- app_assoc.
  - by rewrite last_snoc.
Qed.

(** a server that creates accounts but whose token endpoint is down *)
Definition token_down (r : request) : http_outcome :=
  if String.eqb (req_url r) "https://api.mail.tm/accounts"
  then Resp (mkResponse 201 "Created" (req_url r)
               (Json (JObj [("id", JStr "65f0c1")])))
  else ConnFail "Connection refused".

Lemma create_account_token_lost_witness :
  fst (create_account (world_of token_down) MailTmAPI_default "abc123xyz9"
         "pw" (JStr "example.com") initial) = Ret JNull.
Proof.
  exact (proj1 (create_account_token_lost (world_of token_down)
                  MailTmAPI_default "abc123xyz9" "pw" (JStr "example.com")
                  initial _ _ eq_refl eq_refl eq_refl eq_refl)).
Defined.

(** X6: on the successful path [create_account] sends the account request
    and then the token request with the same address and password, and
    the record it returns is the server's account object with only the
    keys [token] and [address] set: every other field the server sent is
    still there, unchanged. *)
Theorem create_account_keeps_fields (w : world) (self : MailTmAPI)
    (username password : string) (domain : json) (s : state) (r : response)
    (d td : list (string * json)) (tok : json) :
  let address := username +:+ "@" +:+ fmt w domain in
  net w (account_request self address password) = Resp r →
  http_error r = false →
  resp_body r = Json (JObj d) →
  answer_json (net w (token_request self address password)) = JObj td →
  dict_get "token" td = Some tok →
  let run := create_account w self username password domain s in
  ∃ rec,
    fst run = Ret (JObj rec)
    ∧ (∀ k, k ≠ "token" → k ≠ "address" → dict_get k rec = dict_get k d)
    ∧ reqs (snd run)
      = reqs s ++ [account_request self address password;
                   token_request self address password].
Proof.
  cbv zeta. intros Hnet Hgood Hbody Htoken Htok. unfold account_request in Hnet.
  cbv beta iota zeta delta
    [create_account try_binding try_except requests_post send bind local
     when print ret raise response_json lift].
  rewrite Hnet. cbv beta iota. rewrite raise_for_status_run, Hgood.
  cbv beta iota. rewrite Hbody. cbv beta iota.
  rewrite get_token_state. cbv zeta. rewrite Htoken.
  destruct td as [|kv td]; [discriminate|].
  cbn [truthy contains]. unfold dict_mem. rewrite Htok.
  cbn [getitem]. rewrite Htok. cbn [setitem]. cbv beta iota.
  eexists. split; [reflexivity|]. split.
  - intros k Hk1 Hk2. by rewrite !dict_get_set_ne.
  - unfold printed, sent, set_out, set_reqs, account_request. simpl.
    by rewrite <- app_assoc.
Qed.

Lemma create_account_keeps_fields_witness :
  ∃ rec,
    fst (create_account spelled MailTmAPI_default "abc123xyz9" "pw"
           (JStr "example.com") initial) = Ret (JObj rec)
    ∧ dict_get "id" rec = Some (JStr "65f0c1").
Proof.
  destruct (create_account_keeps_fields spelled MailTmAPI_default "abc123xyz9"
              "pw" (JStr "example.com") initial _ _ _ (JStr "eyJ0eXAi")
              eq_refl eq_refl eq_refl eq_refl eq_refl)
    as (rec & Hrun & Hkeep & _).
  exists rec. split; [exact Hrun|].
  rewrite Hkeep by discriminate. reflexivity.
Defined.

(* ===================================================================== *)
(** ** More on the credentials and the store *)
(* ===================================================================== *)

Definition username_char (c : ascii) : bool :=
  between 97 122 c || is_ascii_digit c.

(** X2: [generate_random_username] gives exactly [length] characters, none
    when [length] is zero or negative, all of them lower-case letters or
    digits; it prints nothing, sends nothing and leaves the files alone. *)
Theorem generate_random_username_shape (w : world) (length : Z) (s : state) :
  ∃ username s',
    generate_random_username w length s = (Ret username, s')
    ∧ Z.of_nat (String.length username) = Z.max 0 length
    ∧ forallb username_char (list_ascii_of_string username) = true
    ∧ fs s' = fs s ∧ out s' = out s ∧ reqs s' = reqs s.
Proof.
  unfold generate_random_username.
  set (alphabet := list_ascii_of_string
                     (PyString.ascii_lowercase +:+ PyString.digits)).
  destruct (random_string_run w alphabet (Z.to_nat length)
              ltac:(discriminate) s)
    as (name & s' & Hrun & Hlen & Hall & Hfs & Hout & Hreqs & _).
  exists name, s'. split; [exact Hrun|]. split; [rewrite Hlen; lia|].
  split; [|auto].
  apply forallb_forall. intros c Hc.
  rewrite List.Forall_forall in Hall.
  assert (Hchars : forallb username_char alphabet = true) by reflexivity.
  rewrite forallb_forall in Hchars. auto.
Qed.

Section MoreStoreFacts.
Context `{JsonModule}.
Variable w : world.
Variable filename : string.

(** X7: [load_accounts_from_json] never raises and changes nothing but the
    output, whatever the file holds and whatever goes wrong while reading
    it: the files, the requests sent and the pending input are as before,
    and at most one line is printed. *)
Theorem load_is_harmless (s : state) :
  let run := load_accounts_from_json w filename s in
  (∃ v, fst run = Ret v)
  ∧ fs (snd run) = fs s ∧ reqs (snd run) = reqs s
  ∧ stdin (snd run) = stdin s ∧ writes (snd run) = writes s
  ∧ ∃ lines, out (snd run) = out s ++ lines ∧ (length lines ≤ 1)%nat.
Proof.
  cbv zeta. destruct (load_total w filename s) as (v & lines & -> & Hlen).
  simpl. repeat split; eauto.
Qed.

(** X8: a store that exists but cannot be read back (the read fails, or
    the text does not parse) is overwritten by the next successful save:
    afterwards the file holds the new record and nothing else. *)
Theorem save_replaces_unreadable_store (s : state) (text : string)
    (rec : json) :
  fs s !! filename = Some text →
  (∃ e, read_fault w filename = Some e) ∨ loads text = None →
  write_fault w (writes s) = WriteOK →
  let run := save_account_to_json w rec filename s in
  fst run = Ret tt
  ∧ fs (snd run) !! filename = Some (dumps (JArr [rec])).
Proof.
  cbv zeta. intros Hfile Hbad Hok.
  assert (Hload : fst (load_accounts_from_json w filename s) = Ret (JArr [])).
  { rewrite load_result, Hfile.
    destruct Hbad as [[e ->]|Hbad]; [reflexivity|].
    rewrite Hbad. by destruct (read_fault w filename). }
  destruct (save_files w filename s [] rec Hload) as [Hret Hfs].
  split; [exact Hret|]. rewrite Hfs, Hok. apply lookup_insert_eq.
Qed.

Definition is_list (v : json) : bool :=
  match v with JArr _ => true | _ => false end.

(** X9: when the store holds valid JSON that is not a list, saving raises
    [AttributeError] at [accounts.append] before the file is opened for
    writing: no write is attempted and every file is as before. *)
Theorem save_into_non_list_store (s : state) (text : string) (v rec : json) :
  fs s !! filename = Some text →
  read_fault w filename = None →
  loads text = Some v →
  is_list v = false →
  let run := save_account_to_json w rec filename s in
  fst run = Raise AttributeError
  ∧ fs (snd run) = fs s ∧ writes (snd run) = writes s.
Proof.
  cbv zeta. intros Hfile Hread Hparse Hshape.
  destruct (load_total w filename s) as (v' & lines & Hrun & _).
  pose proof (load_result w filename s) as Hres.
  rewrite Hrun, Hfile, Hread, Hparse in Hres. simpl in Hres.
  injection Hres as ->.
  unfold save_account_to_json. rewrite (bind_ret_run _ _ _ _ _ Hrun).
  destruct v; try discriminate Hshape; repeat split.
Qed.

End MoreStoreFacts.

Definition unreadable : world :=
  mkWorld (λ _, ConnFail "Connection refused") (λ i, i)
    (λ _, Some (OSError "[Errno 13] Permission denied")) (λ _, WriteOK)
    simple_int JsonText.dumps.

Lemma save_replaces_unreadable_store_witness :
  fs (snd (save_account_to_json unreadable second_record accounts_file
             one_stored)) !! accounts_file
  = Some (JsonText.dumps (JArr [second_record])).
Proof.
  exact (proj2 (save_replaces_unreadable_store unreadable accounts_file
                  one_stored _ second_record eq_refl
                  (or_introl (ex_intro _ _ eq_refl)) eq_refl)).
Defined.

Definition object_store : state :=
  mkState {[ accounts_file := "{}" ]} [] [] [] 0 0.

Lemma save_into_non_list_store_witness :
  fst (save_account_to_json offline first_record accounts_file object_store)
  = Raise AttributeError.
Proof.
  exact (proj1 (save_into_non_list_store offline accounts_file object_store
                  "{}" (JObj []) first_record eq_refl eq_refl eq_refl
                  eq_refl)).
Defined.

(* ===================================================================== *)
(** ** More on the interactive loop *)
(* ===================================================================== *)

Lemma input_run (prompt line : string) (rest : list string) (s : state) :
  stdin s = line :: rest →
  input prompt s = (Ret line, set_stdin (λ _, rest) (printed [prompt] s)).
Proof. intros E. unfold input. by rewrite E. Qed.

(** Run the menu of [main_iteration] up to the choice typed. *)
Ltac enter_menu Hstdin :=
  unfold main_iteration;
  do 4 (erewrite bind_ret_run by reflexivity);
  erewrite bind_ret_run by (apply input_run; exact Hstdin).

Section MoreMainFacts.
Context `{JsonModule}.
Variable w : world.
Variable mailtm_api : MailTmAPI.
Variable accounts_filename : string.

(** X10: a choice other than 1 and 2 has no effect beyond the output: no
    request is sent, no file changes, the binding of [token] is kept, and
    the loop goes on unless the choice was 3; the last line printed says
    which of the two it was. *)
Theorem main_iteration_other_choice (token : option json) (s : state)
    (choice : string) (rest : list string) :
  stdin s = choice :: rest →
  choice ≠ "1" → choice ≠ "2" →
  let run := main_iteration w mailtm_api accounts_filename token s in
  fst run = Ret (if String.eqb choice "3" then Break else Continue, token)
  ∧ reqs (snd run) = reqs s ∧ fs (snd run) = fs s
  ∧ stdin (snd run) = rest
  ∧ last (out (snd run))
    = Some (if String.eqb choice "3" then "Exiting."
            else "Invalid choice. Please enter 1, 2, or 3.").
Proof.
  cbv zeta. intros Hstdin H1 H2. enter_menu Hstdin.
  destruct (String.eqb_spec choice "1"); [contradiction|].
  destruct (String.eqb_spec choice "2"); [contradiction|].
  destruct (String.eqb choice "3"); cbn; rewrite last_snoc; repeat split.
Qed.

(** X11: when the input is exhausted, the iteration prints the menu and
    [input] raises [EOFError], which nothing catches; no request was sent
    and no file touched. *)
Theorem main_iteration_end_of_input (token : option json) (s : state) :
  stdin s = [] →
  let run := main_iteration w mailtm_api accounts_filename token s in
  fst run = Raise EOFError
  ∧ reqs (snd run) = reqs s ∧ fs (snd run) = fs s.
Proof.
  cbv zeta. intros Hstdin. unfold main_iteration.
  do 4 (erewrite bind_ret_run by reflexivity).
  erewrite bind_raise_run
    by (unfold input; cbn [stdin set_out]; rewrite Hstdin; reflexivity).
  repeat split.
Qed.

Lemma load_run_frame (s s0 : state) (v : json) :
  fs s = fs s0 →
  fst (load_accounts_from_json w accounts_filename s0) = Ret v →
  ∃ lines,
    load_accounts_from_json w accounts_filename s = (Ret v, printed lines s).
Proof.
  intros Hfs Hres.
  destruct (load_total w accounts_filename s) as (v' & lines & Hrun & _).
  exists lines. rewrite Hrun. f_equal. rewrite <- Hres.
  rewrite <- (load_same_files w accounts_filename s s0 Hfs).
  by rewrite Hrun.
Qed.

(** X12: with nothing to show (no store yet, an empty list in it, or a
    store that does not load), choosing the existing accounts prints that
    none was found and goes back to the menu: nothing more is read from
    the user, no request is sent and [token] keeps its binding. *)
Theorem existing_accounts_none_stored (token : option json) (s : state)
    (rest : list string) (v : json) :
  stdin s = "2" :: rest →
  fst (load_accounts_from_json w accounts_filename s) = Ret v →
  truthy v = false →
  let run := main_iteration w mailtm_api accounts_filename token s in
  fst run = Ret (Continue, token)
  ∧ reqs (snd run) = reqs s ∧ fs (snd run) = fs s
  ∧ stdin (snd run) = rest
  ∧ last (out (snd run))
    = Some "No accounts found in the saved accounts file.".
Proof.
  cbv zeta. intros Hstdin Hload Hfalsy. enter_menu Hstdin.
  cbn [String.eqb Ascii.eqb Bool.eqb].
  unfold existing_branch.
  match goal with
  | |- context [bind (bind (load_accounts_from_json _ _) _) _ ?s0] =>
      destruct (load_run_frame s0 s v eq_refl Hload) as (lines & Hrun)
  end.
  erewrite bind_ret_run;
    [|erewrite bind_ret_run by exact Hrun; rewrite Hfalsy; reflexivity].
  cbn. rewrite last_snoc. repeat split.
Qed.

End MoreMainFacts.

Lemma main_iteration_other_choice_witness :
  fst (main_iteration offline MailTmAPI_default accounts_file None
         (mkState ∅ [] [] ["3"] 0 0))
  = Ret (Break, None).
Proof.
  exact (proj1 (main_iteration_other_choice offline MailTmAPI_default
                  accounts_file None (mkState ∅ [] [] ["3"] 0 0) "3" []
                  eq_refl ltac:(discriminate) ltac:(discriminate))).
Defined.

Lemma main_iteration_end_of_input_witness :
  fst (main_iteration offline MailTmAPI_default accounts_file None initial)
  = Raise EOFError.
Proof.
  exact (proj1 (main_iteration_end_of_input offline MailTmAPI_default
                  accounts_file None initial eq_refl)).
Defined.

Lemma existing_accounts_none_stored_witness :
  fst (main_iteration offline MailTmAPI_default accounts_file None
         (mkState ∅ [] [] ["2"] 0 0))
  = Ret (Continue, None).
Proof.
  exact (proj1 (existing_accounts_none_stored offline MailTmAPI_default
                  accounts_file None (mkState ∅ [] [] ["2"] 0 0) []
                  (JArr []) eq_refl eq_refl eq_refl)).
Defined.

(** *** Selecting among the stored accounts *)

(** a record the listing can show: an object with an address and an id *)
Definition listable (account : json) : bool :=
  match account with
  | JObj d => dict_mem "address" d && dict_mem "id" d
  | _ => false
  end.

Lemma for_each_prints {A} (P : A → Prop) (f : A → M unit) (l : list A) :
  (∀ a, P a → ∃ lines, ∀ s, f a s = (Ret tt, printed lines s)) →
  Forall P l →
  ∃ lines, ∀ s, for_each l f s = (Ret tt, printed lines s).
Proof.
  intros Hf. induction 1 as [|a l Ha _ (lines & IH)].
  - exists []. intros s. cbn. by rewrite printed_nil.
  - destruct (Hf a Ha) as (line & Hline).
    exists (line ++ lines). intros s. cbn [for_each].
    erewrite bind_ret_run by apply Hline.
    by rewrite IH, printed_printed.
Qed.

Lemma Forall_enumerate_from {A} (P : A → Prop) (l : list A) (i : Z) :
  Forall P l → Forall (λ ia, P (snd ia)) (enumerate_from i l).
Proof.
  intros Hl. revert i. induction Hl as [|a l Ha _ IH]; intros i; cbn;
    constructor; auto.
Qed.

Section Selection.
Context `{JsonModule}.
Variable w : world.
Variable mailtm_api : MailTmAPI.
Variable accounts_filename : string.

(** the loop of [main] that lists the stored accounts *)
Lemma listing_run (recs : list json) :
  forallb listable recs = true →
  ∃ lines, ∀ s,
    for_each (enumerate recs) (λ '(i, account),
      address <- lift (getitem account "address") ;;
      id <- lift (getitem account "id") ;;
      print (string_of_Z (i + 1) +:+ ". " +:+ fmt w address
               +:+ " (ID: " +:+ fmt w id +:+ ")")) s
    = (Ret tt, printed lines s).
Proof.
  intros Hrecs.
  apply (for_each_prints (λ ia, listable (snd ia) = true)).
  - intros [i account] Hacc. cbn in Hacc.
    destruct account as [| | | | |d]; try discriminate Hacc.
    apply andb_true_iff in Hacc as [Ha Hi]. unfold dict_mem in Ha, Hi.
    destruct (dict_get "address" d) as [address|] eqn:Ea; [|discriminate].
    destruct (dict_get "id" d) as [id|] eqn:Ei; [|discriminate].
    eexists [_]. intros s. unfold bind, lift, getitem, print, printed.
    rewrite Ea, Ei. reflexivity.
  - apply (Forall_enumerate_from (λ a, listable a = true) recs 0).
    apply List.Forall_forall. intros a Ha.
    rewrite forallb_forall in Hrecs. auto.
Qed.

(** the state in which the branch of a choice starts *)
Definition menu_shown (rest : list string) (s : state) : state :=
  set_stdin (λ _, rest)
    (printed ["Enter your choice (1/2/3): "]
       (printed ["3. Exit"]
          (printed ["2. View and use existing accounts"]
             (printed ["1. Create a new temporary email account"]
                (printed [nl +:+ "Options:"] s))))).

Lemma existing_branch_continues (token token' : option json) (s s' : state)
    (rest : list string) :
  stdin s = "2" :: rest →
  existing_branch w accounts_filename token (menu_shown rest s)
  = (Ret (inl token'), s') →
  main_iteration w mailtm_api accounts_filename token s
  = (Ret (Continue, token'), s').
Proof.
  intros Hstdin Hbranch. enter_menu Hstdin.
  cbn [String.eqb Ascii.eqb Bool.eqb].
  by erewrite bind_ret_run by exact Hbranch.
Qed.

Lemma existing_branch_raises (token : option json) (s s' : state)
    (rest : list string) (e : exn) :
  stdin s = "2" :: rest →
  existing_branch w accounts_filename token (menu_shown rest s)
  = (Raise e, s') →
  main_iteration w mailtm_api accounts_filename token s = (Raise e, s').
Proof.
  intros Hstdin Hbranch. enter_menu Hstdin.
  cbn [String.eqb Ascii.eqb Bool.eqb].
  by erewrite bind_raise_run by exact Hbranch.
Qed.

(** Run [existing_branch] up to the number typed. *)
Ltac enter_selection Hload Hrecs Hlist :=
  unfold existing_branch;
  match goal with
  | |- context [bind (load_accounts_from_json _ _) _ ?s0] =>
      let lines := fresh "lines" in
      let Hrun := fresh "Hrun" in
      match type of Hload with
      | fst (load_accounts_from_json _ _ ?s1) = Ret ?v =>
          destruct (load_run_frame w accounts_filename s0 s1 v eq_refl Hload)
            as (lines & Hrun)
      end;
      rewrite (bind_ret_run _ _ _ _ _ Hrun)
  end;
  let shown := fresh "shown" in
  let Hshown := fresh "Hshown" in
  destruct (listing_run _ Hlist) as (shown & Hshown);
  replace (truthy (JArr _)) with true by (by destruct Hrecs as (? & ? & ->));
  cbn [negb];
  erewrite bind_ret_run by reflexivity;
  erewrite bind_ret_run by reflexivity;
  erewrite bind_ret_run by apply Hshown;
  erewrite bind_ret_run by reflexivity;
  erewrite bind_ret_run by (apply input_run; reflexivity).

(** X13: a number outside [1 .. len] at the account prompt is refused:
    the iteration prints that the selection is invalid and goes back to
    the menu without sending anything, and [token] keeps its binding. *)
Theorem account_selection_out_of_range (token : option json) (s : state)
    (line : string) (rest : list string) (recs : list json) (k : Z) :
  stdin s = "2" :: line :: rest →
  fst (load_accounts_from_json w accounts_filename s) = Ret (JArr recs) →
  recs ≠ [] → forallb listable recs = true →
  int_of_str w line = Some k →
  k < 1 ∨ Z.of_nat (length recs) < k →
  let run := main_iteration w mailtm_api accounts_filename token s in
  fst run = Ret (Continue, token)
  ∧ reqs (snd run) = reqs s ∧ fs (snd run) = fs s
  ∧ stdin (snd run) = rest
  ∧ last (out (snd run)) = Some "Invalid account selection.".
Proof.
  cbv zeta. intros Hstdin Hload Hrecs Hlist Hint Hrange.
  assert (Hne : ∃ x l, recs = x :: l) by (destruct recs; [done|eauto]).
  assert (Hbranch : ∃ s',
            existing_branch w accounts_filename token
              (menu_shown (line :: rest) s) = (Ret (inl token), s')
            ∧ reqs s' = reqs s ∧ fs s' = fs s ∧ stdin s' = rest
            ∧ last (out s') = Some "Invalid account selection.").
  { enter_selection Hload Hne Hlist.
    unfold int. rewrite Hint. erewrite bind_ret_run by reflexivity.
    cbv zeta.
    replace ((0 <=? k - 1) && (k - 1 <? Z.of_nat (length recs))) with false
      by (symmetry; apply andb_false_iff; destruct Hrange;
          [left; apply Z.leb_gt|right; apply Z.ltb_ge]; lia).
    eexists. split; [reflexivity|]. cbn. rewrite last_snoc. repeat split. }
  destruct Hbranch as (s' & Hbranch & Hrest).
  by rewrite (existing_branch_continues _ _ _ _ _ Hstdin Hbranch).
Qed.

(** X14: what is typed at the account prompt goes through [int] with no
    handler around it: when it is no number, [ValueError] ends the
    iteration (and [main]); nothing was sent. *)
Theorem account_selection_not_a_number (token : option json) (s : state)
    (line : string) (rest : list string) (recs : list json) :
  stdin s = "2" :: line :: rest →
  fst (load_accounts_from_json w accounts_filename s) = Ret (JArr recs) →
  recs ≠ [] → forallb listable recs = true →
  int_of_str w line = None →
  let run := main_iteration w mailtm_api accounts_filename token s in
  fst run = Raise ValueError
  ∧ reqs (snd run) = reqs s ∧ fs (snd run) = fs s.
Proof.
  cbv zeta. intros Hstdin Hload Hrecs Hlist Hint.
  assert (Hne : ∃ x l, recs = x :: l) by (destruct recs; [done|eauto]).
  assert (Hbranch : ∃ s',
            existing_branch w accounts_filename token
              (menu_shown (line :: rest) s) = (Raise ValueError, s')
            ∧ reqs s' = reqs s ∧ fs s' = fs s).
  { enter_selection Hload Hne Hlist.
    unfold int. rewrite Hint.
    erewrite bind_raise_run by reflexivity.
    eexists. split; [reflexivity|]. split; reflexivity. }
  destruct Hbranch as (s' & Hbranch & Hrest).
  by rewrite (existing_branch_raises _ _ _ _ _ Hstdin Hbranch).
Qed.

Lemma existing_branch_selects (token : option json) (s s' : state)
    (rest : list string) (tok : json) :
  stdin s = "2" :: rest →
  existing_branch w accounts_filename token (menu_shown rest s)
  = (Ret (inr tok), s') →
  main_iteration w mailtm_api accounts_filename token s
  = (token' <- message_section w mailtm_api (Some tok) ;;
     ret (Continue, token')) s'.
Proof.
  intros Hstdin Hbranch. enter_menu Hstdin.
  cbn [String.eqb Ascii.eqb Bool.eqb].
  by erewrite bind_ret_run by exact Hbranch.
Qed.

(** the account the user picks by typing [line] *)
Definition picks (recs : list json) (line : string)
    (d : list (string * json)) : Prop :=
  ∃ k, int_of_str w line = Some k
       ∧ 1 ≤ k ≤ Z.of_nat (length recs)
       ∧ nth_error recs (Z.to_nat (k - 1)) = Some (JObj d).

Lemma existing_branch_selected (token : option json) (s : state)
    (line : string) (rest : list string) (recs : list json)
    (d : list (string * json)) (tok : json) :
  fst (load_accounts_from_json w accounts_filename s) = Ret (JArr recs) →
  forallb listable recs = true →
  picks recs line d →
  dict_get "token" d = Some tok →
  ∃ s',
    existing_branch w accounts_filename token (menu_shown (line :: rest) s)
    = (Ret (inr tok), s')
    ∧ reqs s' = reqs s ∧ fs s' = fs s ∧ stdin s' = rest
    ∧ ∃ lines, out s' = out s ++ lines.
Proof.
  intros Hload Hlist (k & Hint & Hrange & Hnth) Htok.
  assert (Hne : ∃ x l, recs = x :: l).
  { destruct recs; [simpl in Hrange; lia|eauto]. }
  assert (Hd : listable (JObj d) = true).
  { rewrite forallb_forall in Hlist. apply Hlist.
    by eapply nth_error_In. }
  cbn in Hd. apply andb_true_iff in Hd as [Haddr _]. unfold dict_mem in Haddr.
  destruct (dict_get "address" d) as [address|] eqn:Ea; [|discriminate].
  enter_selection Hload Hne Hlist.
  unfold int. rewrite Hint. erewrite bind_ret_run by reflexivity.
  cbv zeta.
  replace ((0 <=? k - 1) && (k - 1 <? Z.of_nat (length recs))) with true
    by (symmetry; apply andb_true_iff; split;
        [apply Z.leb_le|apply Z.ltb_lt]; lia).
  cbn [negb].
  assert (Hindex : index (JArr recs) (k - 1) = Ret (JObj d)).
  { unfold index.
    replace (k - 1 <? 0) with false by (symmetry; apply Z.ltb_ge; lia).
    replace ((0 <=? k - 1) && (k - 1 <? Z.of_nat (length recs))) with true
      by (symmetry; apply andb_true_iff; split;
          [apply Z.leb_le|apply Z.ltb_lt]; lia).
    by rewrite Hnth. }
  rewrite Hindex. erewrite bind_ret_run by reflexivity.
  cbn [getitem]. rewrite Htok. erewrite bind_ret_run by reflexivity.
  rewrite Ea. erewrite bind_ret_run by reflexivity.
  erewrite bind_ret_run by reflexivity.
  eexists. split; [reflexivity|]. cbn. repeat split.
  eexists. rewrite <- !app_assoc. reflexivity.
Qed.

(** X15: picking a stored account whose token is empty (or any value
    Python takes for false) sends nothing: the message section is skipped
    and [token] stays bound to that value for the next iteration. *)
Theorem selected_empty_token_sends_nothing (token : option json) (s : state)
    (line : string) (rest : list string) (recs : list json)
    (d : list (string * json)) (tok : json) :
  stdin s = "2" :: line :: rest →
  fst (load_accounts_from_json w accounts_filename s) = Ret (JArr recs) →
  forallb listable recs = true →
  picks recs line d →
  dict_get "token" d = Some tok →
  truthy tok = false →
  let run := main_iteration w mailtm_api accounts_filename token s in
  fst run = Ret (Continue, Some tok)
  ∧ reqs (snd run) = reqs s ∧ fs (snd run) = fs s
  ∧ stdin (snd run) = rest.
Proof.
  cbv zeta. intros Hstdin Hload Hlist Hpick Htok Hfalsy.
  destruct (existing_branch_selected token s line rest recs d tok
              Hload Hlist Hpick Htok) as (s' & Hbranch & Hrest).
  rewrite (existing_branch_selects _ _ _ _ _ Hstdin Hbranch).
  unfold message_section. rewrite Hfalsy. cbn. tauto.
Qed.

Lemma get_messages_error_run (token : json) (s : state) (r : response) :
  net w (messages_request w mailtm_api token) = Resp r →
  http_error r = true →
  get_messages w mailtm_api token s
  = (Ret JNull,
     printed (["Error fetching messages: " +:+ status_error_msg r]
                ++ (if status_code r =? 401 then [auth_line] else []))
       (sent (messages_request w mailtm_api token) s)).
Proof.
  intros Hnet Herr. unfold messages_request in Hnet.
  run_step. rewrite Hnet. run_step. rewrite raise_for_status_run, Herr.
  run_step. unfold printed, sent, set_out, auth_line.
  destruct (status_code r =? 401); simpl; rewrite <- ?app_assoc; reflexivity.
Qed.

(** X16: picking a stored account with a token sends one request, the
    listing of messages with the stored token as bearer; when the server
    refuses it (an expired token, say) the iteration reports the failure,
    asks for nothing more and unbinds [token]; the store is not touched. *)
Theorem selected_token_refused (token : option json) (s : state)
    (line : string) (rest : list string) (recs : list json)
    (d : list (string * json)) (tok : json) (r : response) :
  stdin s = "2" :: line :: rest →
  fst (load_accounts_from_json w accounts_filename s) = Ret (JArr recs) →
  forallb listable recs = true →
  picks recs line d →
  dict_get "token" d = Some tok →
  truthy tok = true →
  net w (messages_request w mailtm_api tok) = Resp r →
  http_error r = true →
  let run := main_iteration w mailtm_api accounts_filename token s in
  fst run = Ret (Continue, None)
  ∧ reqs (snd run) = reqs s ++ [messages_request w mailtm_api tok]
  ∧ fs (snd run) = fs s
  ∧ stdin (snd run) = rest
  ∧ last (out (snd run)) = Some "Failed to retrieve message list.".
Proof.
  cbv zeta. intros Hstdin Hload Hlist Hpick Htok Htruthy Hnet Herr.
  destruct (existing_branch_selected token s line rest recs d tok
              Hload Hlist Hpick Htok)
    as (s' & Hbranch & Hreqs & Hfs & Hin & _).
  rewrite (existing_branch_selects _ _ _ _ _ Hstdin Hbranch).
  unfold message_section. rewrite Htruthy. cbn [negb].
  erewrite bind_ret_run.
  2:{ erewrite bind_ret_run by reflexivity.
      erewrite bind_ret_run by (by apply get_messages_error_run).
      erewrite bind_ret_run by reflexivity. reflexivity. }
  cbn. rewrite last_snoc, Hreqs, Hfs, Hin. repeat split.
Qed.

End Selection.

(** a store holding [recs], and a user about to type [typed] *)
Definition stored (recs : list json) (typed : list string) : state :=
  mkState {[ accounts_file := JsonText.dumps (JArr recs) ]} [] [] typed 0 0.

Definition empty_token_record : json :=
  record "q7w8e9r0t1@example.com" "65f0c4" [("token", JStr EmptyString)].

Definition fields (account : json) : list (string * json) :=
  match account with JObj d => d | _ => [] end.

Lemma account_selection_out_of_range_witness :
  fst (main_iteration offline MailTmAPI_default accounts_file None
         (stored [first_record; third_record] ["2"; "3"]))
  = Ret (Continue, None).
Proof.
  refine (proj1 (account_selection_out_of_range offline MailTmAPI_default
                   accounts_file None
                   (stored [first_record; third_record] ["2"; "3"])
                   "3" [] [first_record; third_record] 3
                   eq_refl _ _ eq_refl eq_refl _)).
  - vm_compute. reflexivity.
  - discriminate.
  - right. simpl. lia.
Defined.

Lemma account_selection_not_a_number_witness :
  fst (main_iteration offline MailTmAPI_default accounts_file None
         (stored [first_record; third_record] ["2"; "two"]))
  = Raise ValueError.
Proof.
  refine (proj1 (account_selection_not_a_number offline MailTmAPI_default
                   accounts_file None
                   (stored [first_record; third_record] ["2"; "two"])
                   "two" [] [first_record; third_record]
                   eq_refl _ _ eq_refl eq_refl)).
  - vm_compute. reflexivity.
  - discriminate.
Defined.

Lemma selected_empty_token_sends_nothing_witness :
  fst (main_iteration token_server MailTmAPI_default accounts_file None
         (stored [first_record; empty_token_record] ["2"; "2"]))
  = Ret (Continue, Some (JStr EmptyString)).
Proof.
  refine (proj1 (selected_empty_token_sends_nothing token_server
                   MailTmAPI_default accounts_file None
                   (stored [first_record; empty_token_record] ["2"; "2"])
                   "2" [] [first_record; empty_token_record]
                   (fields empty_token_record)
                   (JStr EmptyString) eq_refl _ eq_refl _ eq_refl eq_refl)).
  - vm_compute. reflexivity.
  - exists 2. repeat split; simpl; lia.
Defined.

Lemma selected_token_refused_witness :
  fst (main_iteration unauthorized MailTmAPI_default accounts_file None
         (stored [first_record; third_record] ["2"; "1"]))
  = Ret (Continue, None).
Proof.
  refine (proj1 (selected_token_refused unauthorized MailTmAPI_default
                   accounts_file None
                   (stored [first_record; third_record] ["2"; "1"])
                   "1" [] [first_record; third_record]
                   (fields first_record)
                   (JStr "eyJ0eXAi") _ eq_refl _ eq_refl _ eq_refl eq_refl
                   eq_refl eq_refl)).
  - vm_compute. reflexivity.
  - exists 1. repeat split; simpl; lia.
Defined.

(** *** The message section *)

Lemma bind_returns {A B} (m : M A) (k : A → M B) (P : B → Prop) (s : state) :
  (∀ a s' v, fst (k a s') = Ret v → P v) →
  ∀ v, fst (bind m k s) = Ret v → P v.
Proof.
  intros Hk v. unfold bind. destruct (m s) as [[a|e] s']; [apply Hk|].
  discriminate.
Qed.

Section Messages.
Variable w : world.
Variable mailtm_api : MailTmAPI.

(** X17: a token that was used is never left bound: whenever the message
    section runs with a usable token and comes to its end, [token] is
    unbound afterwards ([del token]), whatever the server answered and
    whatever the user typed. *)
Theorem message_section_unbinds_token (tok : json) (s : state)
    (after : option json) :
  truthy tok = true →
  fst (message_section w mailtm_api (Some tok) s) = Ret after →
  after = None.
Proof.
  intros Htruthy. unfold message_section. rewrite Htruthy. cbn [negb].
  revert after. apply (bind_returns _ _ (λ v, v = None)). intros _ s1.
  apply (bind_returns _ _ (λ v, v = None)). intros messages s2.
  apply (bind_returns _ _ (λ v, v = None)). intros _ s3 v. cbn. congruence.
Qed.

(** X18: when the listing comes back empty (a good answer whose
    [hydra:member] is an empty list), the section says that the inbox is
    empty and asks the user nothing: the pending input is untouched, the
    listing is the only request sent, and [token] is unbound. *)
Theorem message_section_empty_inbox (tok : json) (s : state) (r : response)
    (d : list (string * json)) :
  truthy tok = true →
  net w (messages_request w mailtm_api tok) = Resp r →
  http_error r = false →
  resp_body r = Json (JObj d) →
  dict_get "hydra:member" d = Some (JArr []) →
  let run := message_section w mailtm_api (Some tok) s in
  fst run = Ret None
  ∧ reqs (snd run) = reqs s ++ [messages_request w mailtm_api tok]
  ∧ stdin (snd run) = stdin s
  ∧ fs (snd run) = fs s
  ∧ last (out (snd run)) = Some "No messages found in your inbox yet.".
Proof.
  cbv zeta. intros Htruthy Hnet Hgood Hbody Hmember.
  unfold message_section. rewrite Htruthy. cbn [negb].
  erewrite bind_ret_run by reflexivity.
  erewrite bind_ret_run.
  2:{ rewrite (get_messages_good_run w mailtm_api tok _ r (JObj d)
                 Hnet Hgood Hbody).
      cbn [getitem]. rewrite Hmember. reflexivity. }
  cbn. rewrite last_snoc. repeat split.
Qed.

End Messages.

Lemma message_section_unbinds_token_witness :
  fst (message_section unauthorized MailTmAPI_default (Some (JStr "tok"))
         initial) = Ret None.
Proof.
  assert (Hrun : ∃ after,
            fst (message_section unauthorized MailTmAPI_default
                   (Some (JStr "tok")) initial) = Ret after)
    by (eexists; vm_compute; reflexivity).
  destruct Hrun as [after Hrun]. rewrite Hrun. f_equal.
  exact (message_section_unbinds_token unauthorized MailTmAPI_default
           (JStr "tok") initial after eq_refl Hrun).
Defined.

Lemma message_section_empty_inbox_witness :
  fst (message_section spelled MailTmAPI_default (Some (JStr "eyJ0eXAi"))
         initial) = Ret None.
Proof.
  exact (proj1 (message_section_empty_inbox spelled MailTmAPI_default
                  (JStr "eyJ0eXAi") initial _ _ eq_refl eq_refl eq_refl
                  eq_refl eq_refl)).
Defined.

(* ===================================================================== *)
(** ** The loop ends *)
(* ===================================================================== *)

(** Steps that keep a relation between the state before and after. *)
Section Keeps.
Variable R : state → state → Prop.
Hypothesis R_refl : ∀ s, R s s.
Hypothesis R_trans : ∀ s1 s2 s3, R s1 s2 → R s2 s3 → R s1 s3.

Definition keeps {A} (m : M A) : Prop := ∀ s, R s (snd (m s)).

Lemma keeps_ret {A} (a : A) : keeps (ret a).
Proof. intros s. apply R_refl. Qed.

Lemma keeps_raise {A} (e : exn) : keeps (raise e : M A).
Proof. intros s. apply R_refl. Qed.

Lemma keeps_lift {A} (r : result A) : keeps (lift r).
Proof. intros s. apply R_refl. Qed.

Lemma keeps_local {A} (name : string) (x : option A) : keeps (local name x).
Proof. destruct x; intros s; apply R_refl. Qed.

Lemma keeps_int (w : world) (t : string) : keeps (int w t).
Proof. unfold int. destruct (int_of_str w t); intros s; apply R_refl. Qed.

Lemma keeps_bind {A B} (m : M A) (k : A → M B) :
  keeps m → (∀ a, keeps (k a)) → keeps (bind m k).
Proof.
  intros Hm Hk s. unfold bind. specialize (Hm s).
  destruct (m s) as [[a|e] s1]; [|exact Hm].
  eapply R_trans; [exact Hm|]. apply Hk.
Qed.

Lemma keeps_when (b : bool) (m : M unit) : keeps m → keeps (when b m).
Proof. intros Hm. destruct b; [exact Hm|apply keeps_ret]. Qed.

Lemma keeps_try_except {A} (m : M A) (C : exn → bool) (h : exn → M A) :
  keeps m → (∀ e, keeps (h e)) → keeps (try_except m C h).
Proof.
  intros Hm Hh s. unfold try_except. specialize (Hm s).
  destruct (m s) as [[a|e] s1]; [exact Hm|].
  destruct (C e); [|exact Hm].
  eapply R_trans; [exact Hm|]. apply Hh.
Qed.

Lemma keeps_try_binding {A B} (m : M A) (k : A → M B) (C : exn → bool)
    (h : option A → exn → M B) :
  keeps m → (∀ a, keeps (k a)) → (∀ x e, keeps (h x e)) →
  keeps (try_binding m k C h).
Proof.
  intros Hm Hk Hh s. unfold try_binding. specialize (Hm s).
  destruct (m s) as [[a|e] s1].
  - eapply R_trans; [exact Hm|]. by apply keeps_try_except.
  - destruct (C e); [|exact Hm].
    eapply R_trans; [exact Hm|]. apply Hh.
Qed.

Lemma keeps_handle {A} (clauses : list ((exn → bool) * (exn → M A)))
    (e : exn) :
  Forall (λ c, ∀ e, keeps (snd c e)) clauses → keeps (handle clauses e).
Proof.
  induction 1 as [|[C h] clauses Hh _ IH]; cbn [handle].
  - apply keeps_raise.
  - destruct (C e); [apply Hh|exact IH].
Qed.

Lemma keeps_try_clauses {A} (m : M A)
    (clauses : list ((exn → bool) * (exn → M A))) :
  keeps m → Forall (λ c, ∀ e, keeps (snd c e)) clauses →
  keeps (try_clauses m clauses).
Proof.
  intros Hm Hc s. unfold try_clauses. specialize (Hm s).
  destruct (m s) as [[a|e] s1]; [exact Hm|].
  eapply R_trans; [exact Hm|]. by apply keeps_handle.
Qed.

Lemma keeps_for_each {A} (l : list A) (f : A → M unit) :
  (∀ a, keeps (f a)) → keeps (for_each l f).
Proof.
  intros Hf. induction l as [|a l IH]; cbn [for_each].
  - apply keeps_ret.
  - apply keeps_bind; auto.
Qed.

Lemma keeps_comprehension {A B} (l : list A) (f : A → M B) :
  (∀ a, keeps (f a)) → keeps (comprehension l f).
Proof.
  intros Hf. induction l as [|a l IH]; cbn [comprehension].
  - apply keeps_ret.
  - apply keeps_bind; [auto|]. intros y.
    apply keeps_bind; [auto|]. intros ys. apply keeps_ret.
Qed.

End Keeps.

(** The pending input never grows. *)
Definition shrinks (s s' : state) : Prop :=
  (length (stdin s') ≤ length (stdin s))%nat.

Lemma shrinks_refl (s : state) : shrinks s s.
Proof. unfold shrinks. lia. Qed.

Lemma shrinks_trans (s1 s2 s3 : state) :
  shrinks s1 s2 → shrinks s2 s3 → shrinks s1 s3.
Proof. unfold shrinks. lia. Qed.

Ltac shrinks_now := unfold shrinks; cbn; lia.

Lemma shrinks_print (line : string) : keeps shrinks (print line).
Proof. intros s. shrinks_now. Qed.

Lemma shrinks_input (prompt : string) : keeps shrinks (input prompt).
Proof.
  intros s. unfold input, shrinks.
  destruct (stdin s) eqn:E; simpl; rewrite ?E; simpl; lia.
Qed.

Lemma shrinks_send (w : world) (r : request) : keeps shrinks (send w r).
Proof. intros s. unfold send. destruct (net w r); shrinks_now. Qed.

Lemma shrinks_raise_for_status (r : response) :
  keeps shrinks (raise_for_status r).
Proof.
  intros s. rewrite raise_for_status_run.
  destruct (http_error r); shrinks_now.
Qed.

Lemma shrinks_response_json (r : response) : keeps shrinks (response_json r).
Proof.
  unfold response_json. destruct (resp_body r); intros s; shrinks_now.
Qed.

Lemma shrinks_random_choice (w : world) (seq : list ascii) :
  keeps shrinks (random_choice w seq).
Proof.
  intros s. unfold random_choice.
  destruct (nth_error seq _); shrinks_now.
Qed.

Lemma shrinks_load `{JsonModule} (w : world) (filename : string) :
  keeps shrinks (load_accounts_from_json w filename).
Proof.
  intros s. destruct (load_total w filename s) as (v & lines & -> & _).
  shrinks_now.
Qed.

Lemma shrinks_write_json `{JsonModule} (w : world) (filename : string)
    (v : json) :
  keeps shrinks (write_json w filename v).
Proof.
  intros s. unfold write_json.
  destruct (write_fault w (writes s)); shrinks_now.
Qed.

Lemma shrinks_list_append (accounts x : json) :
  keeps shrinks (list_append accounts x).
Proof. intros st. destruct accounts; shrinks_now. Qed.

Create HintDb shrink_steps.
#[export] Hint Resolve shrinks_print shrinks_input shrinks_send
  shrinks_raise_for_status shrinks_response_json shrinks_random_choice
  shrinks_load shrinks_write_json shrinks_list_append : shrink_steps.
#[export] Hint Extern 1 (keeps shrinks (ret _)) =>
  apply (keeps_ret shrinks shrinks_refl) : shrink_steps.
#[export] Hint Extern 1 (keeps shrinks (raise _)) =>
  apply (keeps_raise shrinks shrinks_refl) : shrink_steps.
#[export] Hint Extern 1 (keeps shrinks (lift _)) =>
  apply (keeps_lift shrinks shrinks_refl) : shrink_steps.
#[export] Hint Extern 1 (keeps shrinks (local _ _)) =>
  apply (keeps_local shrinks shrinks_refl) : shrink_steps.
#[export] Hint Extern 1 (keeps shrinks (int _ _)) =>
  apply (keeps_int shrinks shrinks_refl) : shrink_steps.

Ltac shrink_steps :=
  repeat first
    [ progress auto with shrink_steps
    | apply (keeps_bind shrinks shrinks_trans); [|intros ?]
    | apply (keeps_when shrinks shrinks_refl)
    | apply (keeps_try_except shrinks shrinks_trans); [|intros ?]
    | apply (keeps_try_binding shrinks shrinks_trans); [|intros ?|intros ? ?]
    | apply (keeps_for_each shrinks shrinks_refl shrinks_trans); intros ?
    | apply (keeps_comprehension shrinks shrinks_refl shrinks_trans); intros ?
    | match goal with
      | |- keeps shrinks (if ?b then _ else _) => destruct b
      | |- keeps shrinks (match ?x with _ => _ end) => destruct x
      | |- keeps shrinks (let _ := _ in _) => cbv zeta
      end ].

Section Termination.
Context `{JsonModule}.
Variable w : world.
Variable mailtm_api : MailTmAPI.
Variable accounts_filename : string.

Lemma shrinks_random_string (characters : list ascii) (n : nat) :
  keeps shrinks (random_string w characters n).
Proof. induction n; cbn [random_string]; shrink_steps. Qed.

Lemma shrinks_get_token (address password : string) :
  keeps shrinks (get_token w mailtm_api address password).
Proof. unfold get_token, requests_post. shrink_steps. Qed.

Hint Resolve shrinks_random_string shrinks_get_token : shrink_steps.

Lemma shrinks_message_section (token : option json) :
  keeps shrinks (message_section w mailtm_api token).
Proof.
  unfold message_section, get_messages, get_message_content, requests_get.
  shrink_steps.
Qed.

Lemma shrinks_save (account_data : json) :
  keeps shrinks (save_account_to_json w account_data accounts_filename).
Proof. unfold save_account_to_json. shrink_steps. Qed.

Hint Resolve shrinks_message_section shrinks_save : shrink_steps.

Lemma shrinks_create_branch (token : option json) :
  keeps shrinks (create_branch w mailtm_api accounts_filename token).
Proof.
  unfold create_branch, get_domains, create_account,
    generate_random_username, generate_strong_password, requests_get,
    requests_post.
  shrink_steps.
Qed.

Lemma shrinks_existing_branch (token : option json) :
  keeps shrinks (existing_branch w accounts_filename token).
Proof. unfold existing_branch. shrink_steps. Qed.

Hint Resolve shrinks_create_branch shrinks_existing_branch : shrink_steps.

(** An iteration that comes to its end has read at least one line. *)
Lemma main_iteration_reads (token : option json) (s : state)
    (r : flow * option json) :
  fst (main_iteration w mailtm_api accounts_filename token s) = Ret r →
  (length (stdin (snd (main_iteration w mailtm_api accounts_filename token s)))
   < length (stdin s))%nat.
Proof.
  destruct (stdin s) as [|choice rest] eqn:Hstdin.
  - unfold main_iteration.
    do 4 (erewrite bind_ret_run by reflexivity).
    erewrite bind_raise_run
      by (unfold input; cbn [stdin set_out]; rewrite Hstdin; reflexivity).
    discriminate.
  - intros _. enter_menu Hstdin.
    match goal with
    | |- (length (stdin (snd (?m ?s0))) < _)%nat =>
        assert (Hm : keeps shrinks m);
        [|specialize (Hm s0); unfold shrinks in Hm; cbn in Hm |- *; lia]
    end.
    shrink_steps.
Qed.

(** X19: the loop cannot go round without reading input: run for more
    iterations than there are lines to read, [main]'s loop always ends,
    either by the user's choice 3 or by an exception (at the latest the
    [EOFError] of an exhausted input). *)
Theorem main_loop_ends (fuel : nat) (token : option json) (s : state) :
  (length (stdin s) < fuel)%nat →
  fst (main_loop w mailtm_api accounts_filename fuel token s) = Ret (Some Break)
  ∨ ∃ e, fst (main_loop w mailtm_api accounts_filename fuel token s) = Raise e.
Proof.
  revert token s. induction fuel as [|fuel IH]; intros token s Hlen; [lia|].
  cbn [main_loop]. unfold bind.
  pose proof (main_iteration_reads token s) as Hreads.
  destruct (main_iteration w mailtm_api accounts_filename token s)
    as [[[[|] token']|e] s'].
  - specialize (Hreads _ eq_refl). cbn [snd] in Hreads.
    apply IH. lia.
  - by left.
  - right. by eexists.
Qed.

End Termination.

Lemma main_loop_ends_witness :
  (length (stdin first_run) < 3)%nat
  ∧ (fst (main_loop spelled MailTmAPI_default accounts_file 3 None first_run)
     = Ret (Some Break)
     ∨ ∃ e, fst (main_loop spelled MailTmAPI_default accounts_file 3 None
                   first_run) = Raise e).
Proof.
  assert (Hlen : (length (stdin first_run) < 3)%nat) by (simpl; lia).
  split; [exact Hlen|].
  exact (main_loop_ends spelled MailTmAPI_default accounts_file 3 None
           first_run Hlen).
Defined.

(* ===================================================================== *)
(** ** Creating an account from the menu *)
(* ===================================================================== *)

Section Creation.
Context `{JsonModule}.
Variable w : world.
Variable mailtm_api : MailTmAPI.
Variable accounts_filename : string.

Lemma create_branch_continues (token token' : option json) (s s' : state)
    (rest : list string) :
  stdin s = "1" :: rest →
  create_branch w mailtm_api accounts_filename token (menu_shown rest s)
  = (Ret (inl token'), s') →
  main_iteration w mailtm_api accounts_filename token s
  = (Ret (Continue, token'), s').
Proof.
  intros Hstdin Hbranch. enter_menu Hstdin.
  cbn [String.eqb Ascii.eqb Bool.eqb].
  by erewrite bind_ret_run by exact Hbranch.
Qed.

Lemma create_branch_raises (token : option json) (s s' : state)
    (rest : list string) (e : exn) :
  stdin s = "1" :: rest →
  create_branch w mailtm_api accounts_filename token (menu_shown rest s)
  = (Raise e, s') →
  main_iteration w mailtm_api accounts_filename token s = (Raise e, s').
Proof.
  intros Hstdin Hbranch. enter_menu Hstdin.
  cbn [String.eqb Ascii.eqb Bool.eqb].
  by erewrite bind_raise_run by exact Hbranch.
Qed.

(** the domains cannot be had: no connection, or an HTTP error status *)
Definition domains_unavailable : Prop :=
  (∃ msg, net w (domains_request mailtm_api) = ConnFail msg)
  ∨ (∃ r, net w (domains_request mailtm_api) = Resp r ∧ http_error r = true).

Lemma get_domains_failed_run (s : state) :
  domains_unavailable →
  ∃ line,
    get_domains w mailtm_api s
    = (Ret JNull, printed [line] (sent (domains_request mailtm_api) s)).
Proof.
  unfold domains_unavailable, domains_request.
  intros [[msg Hnet]|(r & Hnet & Herr)]; run_step; rewrite Hnet; run_step.
  - by eexists.
  - rewrite raise_for_status_run, Herr. run_step. by eexists.
Qed.

Lemma get_domains_listed_run (s : state) (r : response) (data : json)
    (names : list json) :
  net w (domains_request mailtm_api) = Resp r →
  http_error r = false →
  resp_body r = Json data →
  envelope_names data = Some names →
  get_domains w mailtm_api s
  = (Ret (JArr names), sent (domains_request mailtm_api) s).
Proof.
  unfold domains_request. intros Hnet Hgood Hbody Hnames.
  run_step. rewrite Hnet. run_step. rewrite raise_for_status_run, Hgood.
  run_step. rewrite Hbody. run_step.
  destruct data as [| | | | |d]; try discriminate Hnames.
  cbn [envelope_names] in Hnames. cbn [getitem].
  destruct (dict_get "hydra:member" d) as [[| | | |entries|]|];
    try discriminate Hnames.
  cbn [iter].
  match goal with
  | |- context [comprehension entries ?f ?st] =>
      pose proof (comprehension_domains entries st) as Hc;
      unfold lift in Hc;
      destruct Hc as [(names' & Hn & ->) | (Hn & _)]
  end; [|congruence].
  rewrite Hnames in Hn. by injection Hn as ->.
Qed.

(** X20: when the domains cannot be fetched, choosing to create an
    account stops there: the failure is reported, the loop goes on, the
    user is asked nothing, the domains request is the only one sent and
    no file is touched. *)
Theorem creation_without_domains (token : option json) (s : state)
    (rest : list string) :
  stdin s = "1" :: rest →
  domains_unavailable →
  let run := main_iteration w mailtm_api accounts_filename token s in
  fst run = Ret (Continue, token)
  ∧ reqs (snd run) = reqs s ++ [domains_request mailtm_api]
  ∧ fs (snd run) = fs s
  ∧ stdin (snd run) = rest
  ∧ last (out (snd run))
    = Some "Failed to retrieve domains. Exiting account creation.".
Proof.
  cbv zeta. intros Hstdin Hdown.
  destruct (get_domains_failed_run (menu_shown rest s) Hdown) as (line & Hrun).
  erewrite create_branch_continues; [|exact Hstdin|].
  2:{ unfold create_branch. erewrite bind_ret_run by exact Hrun.
      cbn [truthy negb]. erewrite bind_ret_run by reflexivity. reflexivity. }
  cbn. rewrite last_snoc. repeat split.
Qed.

(** the loop of [main] that lists the domains *)
Lemma domains_listing_run (names : list json) :
  ∃ lines, ∀ s,
    for_each (enumerate names) (λ '(i, domain),
      print (string_of_Z (i + 1) +:+ ". " +:+ fmt w domain)) s
    = (Ret tt, printed lines s).
Proof.
  apply (for_each_prints (λ _, True)).
  - intros [i domain] _. by eexists [_].
  - apply List.Forall_forall. auto.
Qed.

(** Run [create_branch] up to the number typed. *)
Ltac enter_domains Hnet Hgood Hbody Hnames Hne :=
  unfold create_branch;
  erewrite bind_ret_run
    by exact (get_domains_listed_run _ _ _ _ Hnet Hgood Hbody Hnames);
  let shown := fresh "shown" in
  let Hshown := fresh "Hshown" in
  match type of Hnames with
  | _ = Some ?names =>
      destruct (domains_listing_run names) as (shown & Hshown)
  end;
  replace (truthy (JArr _)) with true by (by destruct Hne as (? & ? & ->));
  cbn [negb];
  erewrite bind_ret_run by reflexivity;
  erewrite bind_ret_run by reflexivity;
  erewrite bind_ret_run by apply Hshown;
  erewrite bind_ret_run by reflexivity;
  erewrite bind_ret_run by (apply input_run; reflexivity).

(** X21: a number outside [1 .. len] at the domain prompt is refused
    before anything is created: the iteration prints that the selection
    is invalid and goes back to the menu; the domains request is the only
    one sent, no credentials are drawn and no file is touched. *)
Theorem domain_selection_out_of_range (token : option json) (s : state)
    (line : string) (rest : list string) (r : response) (data : json)
    (names : list json) (k : Z) :
  stdin s = "1" :: line :: rest →
  net w (domains_request mailtm_api) = Resp r →
  http_error r = false →
  resp_body r = Json data →
  envelope_names data = Some names →
  names ≠ [] →
  int_of_str w line = Some k →
  k < 1 ∨ Z.of_nat (length names) < k →
  let run := main_iteration w mailtm_api accounts_filename token s in
  fst run = Ret (Continue, token)
  ∧ reqs (snd run) = reqs s ++ [domains_request mailtm_api]
  ∧ fs (snd run) = fs s ∧ draws (snd run) = draws s
  ∧ stdin (snd run) = rest
  ∧ last (out (snd run)) = Some "Invalid domain selection.".
Proof.
  cbv zeta. intros Hstdin Hnet Hgood Hbody Hnames Hnonempty Hint Hrange.
  assert (Hne : ∃ x l, names = x :: l) by (destruct names; [done|eauto]).
  assert (Hbranch : ∃ s',
            create_branch w mailtm_api accounts_filename token
              (menu_shown (line :: rest) s) = (Ret (inl token), s')
            ∧ reqs s' = reqs s ++ [domains_request mailtm_api]
            ∧ fs s' = fs s ∧ draws s' = draws s ∧ stdin s' = rest
            ∧ last (out s') = Some "Invalid domain selection.").
  { enter_domains Hnet Hgood Hbody Hnames Hne.
    unfold int. rewrite Hint. erewrite bind_ret_run by reflexivity.
    cbv zeta.
    replace ((0 <=? k - 1) && (k - 1 <? Z.of_nat (length names))) with false
      by (symmetry; apply andb_false_iff; destruct Hrange;
          [left; apply Z.leb_gt|right; apply Z.ltb_ge]; lia).
    eexists. split; [reflexivity|]. cbn. rewrite last_snoc. repeat split. }
  destruct Hbranch as (s' & Hbranch & Hrest).
  by rewrite (create_branch_continues _ _ _ _ _ Hstdin Hbranch).
Qed.

(** X22: what is typed at the domain prompt goes through [int] with no
    handler around it: when it is no number, [ValueError] ends the
    iteration (and [main]) before any account is created. *)
Theorem domain_selection_not_a_number (token : option json) (s : state)
    (line : string) (rest : list string) (r : response) (data : json)
    (names : list json) :
  stdin s = "1" :: line :: rest →
  net w (domains_request mailtm_api) = Resp r →
  http_error r = false →
  resp_body r = Json data →
  envelope_names data = Some names →
  names ≠ [] →
  int_of_str w line = None →
  let run := main_iteration w mailtm_api accounts_filename token s in
  fst run = Raise ValueError
  ∧ reqs (snd run) = reqs s ++ [domains_request mailtm_api]
  ∧ fs (snd run) = fs s.
Proof.
  cbv zeta. intros Hstdin Hnet Hgood Hbody Hnames Hnonempty Hint.
  assert (Hne : ∃ x l, names = x :: l) by (destruct names; [done|eauto]).
  assert (Hbranch : ∃ s',
            create_branch w mailtm_api accounts_filename token
              (menu_shown (line :: rest) s) = (Raise ValueError, s')
            ∧ reqs s' = reqs s ++ [domains_request mailtm_api]
            ∧ fs s' = fs s).
  { enter_domains Hnet Hgood Hbody Hnames Hne.
    unfold int. rewrite Hint.
    erewrite bind_raise_run by reflexivity.
    eexists. split; [reflexivity|]. split; reflexivity. }
  destruct Hbranch as (s' & Hbranch & Hrest).
  by rewrite (create_branch_raises _ _ _ _ _ Hstdin Hbranch).
Qed.

Lemma index_in_range (l : list json) (k : Z) (x : json) :
  1 ≤ k ≤ Z.of_nat (length l) →
  nth_error l (Z.to_nat (k - 1)) = Some x →
  index (JArr l) (k - 1) = Ret x.
Proof.
  intros Hrange Hnth. unfold index.
  replace (k - 1 <? 0) with false by (symmetry; apply Z.ltb_ge; lia).
  replace ((0 <=? k - 1) && (k - 1 <? Z.of_nat (length l))) with true
    by (symmetry; apply andb_true_iff; split;
        [apply Z.leb_le|apply Z.ltb_lt]; lia).
  by rewrite Hnth.
Qed.

(** every account request is answered with an HTTP error status *)
Definition accounts_refused : Prop :=
  ∀ address password,
    ∃ r, net w (account_request mailtm_api address password) = Resp r
         ∧ http_error r = true.

(** X23: when the server refuses the account (user name taken, bad
    domain, ...), nothing is stored: the iteration reports the failure and
    goes back to the menu; after the domains request the account request
    is the only one sent (no token is asked for), no file is written and
    [token] keeps its binding. *)
Theorem refused_creation_stores_nothing (token : option json) (s : state)
    (line : string) (rest : list string) (r : response) (data : json)
    (names : list json) (k : Z) (domain : json) :
  stdin s = "1" :: line :: rest →
  net w (domains_request mailtm_api) = Resp r →
  http_error r = false →
  resp_body r = Json data →
  envelope_names data = Some names →
  int_of_str w line = Some k →
  1 ≤ k ≤ Z.of_nat (length names) →
  nth_error names (Z.to_nat (k - 1)) = Some domain →
  accounts_refused →
  let run := main_iteration w mailtm_api accounts_filename token s in
  fst run = Ret (Continue, token)
  ∧ fs (snd run) = fs s
  ∧ stdin (snd run) = rest
  ∧ (∃ username password,
       String.length username = 10%nat ∧ String.length password = 12%nat
       ∧ reqs (snd run)
         = reqs s ++ [domains_request mailtm_api;
                      account_request mailtm_api
                        (username +:+ "@" +:+ fmt w domain) password])
  ∧ last (out (snd run))
    = Some "Account creation failed. Please check errors and try again.".
Proof.
  cbv zeta.
  intros Hstdin Hnet Hgood Hbody Hnames Hint Hrange Hnth Hrefused.
  assert (Hne : ∃ x l, names = x :: l).
  { destruct names; [simpl in Hrange; lia|eauto]. }
  assert (Hbranch : ∃ s',
            create_branch w mailtm_api accounts_filename token
              (menu_shown (line :: rest) s) = (Ret (inl token), s')
            ∧ fs s' = fs s ∧ stdin s' = rest
            ∧ (∃ username password,
                 String.length username = 10%nat
                 ∧ String.length password = 12%nat
                 ∧ reqs s'
                   = reqs s ++ [domains_request mailtm_api;
                                account_request mailtm_api
                                  (username +:+ "@" +:+ fmt w domain)
                                  password])
            ∧ last (out s')
              = Some "Account creation failed. Please check errors and try again.").
  { enter_domains Hnet Hgood Hbody Hnames Hne.
    unfold int. rewrite Hint. erewrite bind_ret_run by reflexivity.
    cbv zeta.
    replace ((0 <=? k - 1) && (k - 1 <? Z.of_nat (length names))) with true
      by (symmetry; apply andb_true_iff; split;
          [apply Z.leb_le|apply Z.ltb_lt]; lia).
    cbn [negb]. rewrite (index_in_range names k domain Hrange Hnth).
    erewrite bind_ret_run by reflexivity.
    unfold generate_random_username, generate_strong_password.
    match goal with
    | |- context [bind (random_string w ?cs ?n) _ ?s0] =>
        destruct (random_string_run w cs n ltac:(discriminate) s0)
          as (username & s1 & Hu & Hulen & _ & Hfs1 & Hout1 & Hreqs1 & Hin1)
    end.
    erewrite bind_ret_run by exact Hu.
    match goal with
    | |- context [bind (random_string w ?cs ?n) _ ?s0] =>
        destruct (random_string_run w cs n ltac:(discriminate) s0)
          as (password & s2 & Hp & Hplen & _ & Hfs2 & Hout2 & Hreqs2 & Hin2)
    end.
    erewrite bind_ret_run by exact Hp.
    erewrite bind_ret_run by reflexivity.
    erewrite bind_ret_run by reflexivity.
    destruct (Hrefused (username +:+ "@" +:+ fmt w domain) password)
      as (r' & Hacc & Herr).
    erewrite bind_ret_run
      by exact (create_account_refused_run w mailtm_api username password
                  domain _ r' Hacc Herr).
    cbn [truthy negb]. erewrite bind_ret_run by reflexivity.
    eexists. split; [reflexivity|].
    cbn. rewrite Hfs2, Hfs1, Hin2, Hin1, Hreqs2, Hreqs1, last_snoc. cbn.
    repeat split.
    exists username, password. rewrite <- app_assoc.
    repeat split; assumption. }
  destruct Hbranch as (s' & Hbranch & Hrest).
  by rewrite (create_branch_continues _ _ _ _ _ Hstdin Hbranch).
Qed.

(** *** The successful path *)

Lemma random_string_writes (characters : list ascii) (n : nat) (s : state) :
  writes (snd (random_string w characters n s)) = writes s.
Proof.
  revert s. induction n as [|n IH]; intros s; [reflexivity|].
  cbn [random_string]. unfold bind at 1, random_choice.
  destruct (nth_error characters _); [|reflexivity].
  unfold bind. specialize (IH (set_draws S s)).
  destruct (random_string w characters n (set_draws S s)) as [[str|e] s'];
    exact IH.
Qed.

Definition accounts_created : Prop :=
  ∀ address password,
    ∃ r d id,
      net w (account_request mailtm_api address password) = Resp r
      ∧ http_error r = false ∧ resp_body r = Json (JObj d)
      ∧ dict_get "id" d = Some id.

Definition tokens_issued (tok : json) : Prop :=
  ∀ address password,
    ∃ r td,
      net w (token_request mailtm_api address password) = Resp r
      ∧ http_error r = false ∧ resp_body r = Json (JObj td)
      ∧ dict_get "token" td = Some tok.

Definition inbox_empty (tok : json) : Prop :=
  ∃ r d,
    net w (messages_request w mailtm_api tok) = Resp r
    ∧ http_error r = false ∧ resp_body r = Json (JObj d)
    ∧ dict_get "hydra:member" d = Some (JArr []).

Lemma create_account_success_run (username password : string) (domain : json)
    (s : state) (tok : json) :
  accounts_created → tokens_issued tok →
  let address := username +:+ "@" +:+ fmt w domain in
  ∃ d id,
    dict_get "id" d = Some id
    ∧ create_account w mailtm_api username password domain s
      = (Ret (JObj (dict_set "address" (JStr address)
                      (dict_set "token" tok d))),
         sent (token_request mailtm_api address password)
           (sent (account_request mailtm_api address password) s)).
Proof.
  cbv zeta. intros Hacc Htok.
  destruct (Hacc (username +:+ "@" +:+ fmt w domain) password)
    as (r & d & id & Hnet & Hgood & Hbody & Hid).
  destruct (Htok (username +:+ "@" +:+ fmt w domain) password)
    as (r' & td & Hnet' & Hgood' & Hbody' & Htd).
  exists d, id. split; [exact Hid|].
  unfold account_request in Hnet.
  cbv beta iota zeta delta
    [create_account try_binding try_except requests_post send bind local
     when print ret raise response_json lift].
  rewrite Hnet. cbv beta iota. rewrite raise_for_status_run, Hgood.
  cbv beta iota. rewrite Hbody. cbv beta iota.
  rewrite get_token_state. cbv zeta.
  unfold token_report, answer_json. rewrite Hnet', Hgood', Hbody'.
  rewrite printed_nil.
  destruct td as [|kv td]; [discriminate|].
  cbn [truthy contains]. unfold dict_mem. rewrite Htd.
  cbn [getitem]. rewrite Htd. reflexivity.
Qed.

Lemma save_frame (account_data : json) (s : state) :
  reqs (snd (save_account_to_json w account_data accounts_filename s)) = reqs s
  ∧ stdin (snd (save_account_to_json w account_data accounts_filename s))
    = stdin s.
Proof.
  destruct (load_total w accounts_filename s) as (v & lines & Hrun & _).
  unfold save_account_to_json. rewrite (bind_ret_run _ _ _ _ _ Hrun).
  destruct v; try (split; reflexivity).
  cbv beta iota zeta delta
    [write_json try_except list_append bind ret raise print is_Exception].
  cbn [writes set_out].
  destruct (write_fault w _); split; reflexivity.
Qed.

Lemma message_section_empty_run (tok : json) (s : state) :
  truthy tok = true → inbox_empty tok →
  ∃ s',
    message_section w mailtm_api (Some tok) s = (Ret None, s')
    ∧ reqs s' = reqs s ++ [messages_request w mailtm_api tok]
    ∧ fs s' = fs s ∧ stdin s' = stdin s
    ∧ last (out s') = Some "No messages found in your inbox yet.".
Proof.
  intros Htruthy (r & d & Hnet & Hgood & Hbody & Hmember).
  unfold message_section. rewrite Htruthy. cbn [negb].
  erewrite bind_ret_run by reflexivity.
  erewrite bind_ret_run.
  2:{ rewrite (get_messages_good_run w mailtm_api tok _ r (JObj d)
                 Hnet Hgood Hbody).
      cbn [getitem]. rewrite Hmember. reflexivity. }
  eexists. split; [reflexivity|]. cbn. rewrite last_snoc. repeat split.
Qed.

Lemma create_branch_selects (token : option json) (s s' : state)
    (rest : list string) (tok : json) :
  stdin s = "1" :: rest →
  create_branch w mailtm_api accounts_filename token (menu_shown rest s)
  = (Ret (inr tok), s') →
  main_iteration w mailtm_api accounts_filename token s
  = (token' <- message_section w mailtm_api (Some tok) ;;
     ret (Continue, token')) s'.
Proof.
  intros Hstdin Hbranch. enter_menu Hstdin.
  cbn [String.eqb Ascii.eqb Bool.eqb].
  by erewrite bind_ret_run by exact Hbranch.
Qed.

(** X24: the successful path, end to end.  With a server that lists the
    domains, creates the account and issues a token, and a store that can
    be read and written, one iteration of choice 1 appends exactly one
    record to the store: the records stored before are still there, in
    order, and the new one comes last, with [address = username@domain]
    for the domain picked and the token issued.  The same token is then
    used to list the messages, and [token] is unbound at the end. *)
Theorem creation_stores_the_account (token : option json) (s : state)
    (line : string) (rest : list string) (r : response) (data : json)
    (names : list json) (k : Z) (domain tok : json) (recs : list json) :
  stdin s = "1" :: line :: rest →
  net w (domains_request mailtm_api) = Resp r →
  http_error r = false →
  resp_body r = Json data →
  envelope_names data = Some names →
  int_of_str w line = Some k →
  1 ≤ k ≤ Z.of_nat (length names) →
  nth_error names (Z.to_nat (k - 1)) = Some domain →
  accounts_created → tokens_issued tok → truthy tok = true →
  inbox_empty tok →
  fst (load_accounts_from_json w accounts_filename s) = Ret (JArr recs) →
  read_fault w accounts_filename = None →
  write_fault w (writes s) = WriteOK →
  let run := main_iteration w mailtm_api accounts_filename token s in
  fst run = Ret (Continue, None)
  ∧ stdin (snd run) = rest
  ∧ ∃ username password rec,
      let address := username +:+ "@" +:+ fmt w domain in
      String.length username = 10%nat ∧ String.length password = 12%nat
      ∧ fst (load_accounts_from_json w accounts_filename (snd run))
        = Ret (JArr (recs ++ [JObj rec]))
      ∧ dict_get "address" rec = Some (JStr address)
      ∧ dict_get "token" rec = Some tok
      ∧ reqs (snd run)
        = reqs s ++ [domains_request mailtm_api;
                     account_request mailtm_api address password;
                     token_request mailtm_api address password;
                     messages_request w mailtm_api tok].
Proof.
  cbv zeta.
  intros Hstdin Hnet Hgood Hbody Hnames Hint Hrange Hnth Hacc Htok Htruthy
    Hinbox Hload Hread Hwrite.
  assert (Hne : ∃ x l, names = x :: l).
  { destruct names; [simpl in Hrange; lia|eauto]. }
  assert (Hbranch : ∃ s' username password rec,
            create_branch w mailtm_api accounts_filename token
              (menu_shown (line :: rest) s) = (Ret (inr tok), s')
            ∧ stdin s' = rest
            ∧ String.length username = 10%nat
            ∧ String.length password = 12%nat
            ∧ fs s' = <[accounts_filename := dumps (JArr (recs ++ [JObj rec]))]>
                        (fs s)
            ∧ dict_get "address" rec
              = Some (JStr (username +:+ "@" +:+ fmt w domain))
            ∧ dict_get "token" rec = Some tok
            ∧ reqs s'
              = reqs s ++ [domains_request mailtm_api;
                           account_request mailtm_api
                             (username +:+ "@" +:+ fmt w domain) password;
                           token_request mailtm_api
                             (username +:+ "@" +:+ fmt w domain) password]).
  { enter_domains Hnet Hgood Hbody Hnames Hne.
    unfold int. rewrite Hint. erewrite bind_ret_run by reflexivity.
    cbv zeta.
    replace ((0 <=? k - 1) && (k - 1 <? Z.of_nat (length names))) with true
      by (symmetry; apply andb_true_iff; split;
          [apply Z.leb_le|apply Z.ltb_lt]; lia).
    cbn [negb]. rewrite (index_in_range names k domain Hrange Hnth).
    erewrite bind_ret_run by reflexivity.
    unfold generate_random_username, generate_strong_password.
    match goal with
    | |- context [bind (random_string w ?cs ?n) _ ?s0] =>
        pose proof (random_string_writes cs n s0) as Hw1;
        destruct (random_string_run w cs n ltac:(discriminate) s0)
          as (username & s1 & Hu & Hulen & _ & Hfs1 & Hout1 & Hreqs1 & Hin1)
    end.
    rewrite Hu in Hw1. cbn [snd] in Hw1.
    erewrite bind_ret_run by exact Hu.
    match goal with
    | |- context [bind (random_string w ?cs ?n) _ ?s0] =>
        pose proof (random_string_writes cs n s0) as Hw2;
        destruct (random_string_run w cs n ltac:(discriminate) s0)
          as (password & s2 & Hp & Hplen & _ & Hfs2 & Hout2 & Hreqs2 & Hin2)
    end.
    rewrite Hp in Hw2. cbn [snd] in Hw2.
    erewrite bind_ret_run by exact Hp.
    erewrite bind_ret_run by reflexivity.
    erewrite bind_ret_run by reflexivity.
    match goal with
    | |- context [bind (create_account _ _ _ _ _) _ ?s0] =>
        destruct (create_account_success_run username password domain s0 tok
                    Hacc Htok) as (d & id & Hid & Hcreate)
    end.
    erewrite bind_ret_run by exact Hcreate.
    set (address := username +:+ "@" +:+ fmt w domain) in *.
    set (rec := dict_set "address" (JStr address) (dict_set "token" tok d)).
    assert (Haddress : dict_get "address" rec = Some (JStr address))
      by apply dict_get_set_eq.
    assert (Htoken : dict_get "token" rec = Some tok).
    { unfold rec. rewrite dict_get_set_ne by discriminate.
      apply dict_get_set_eq. }
    assert (Hrecid : dict_get "id" rec = Some id).
    { unfold rec. by rewrite !dict_get_set_ne by discriminate. }
    replace (truthy (JObj rec)) with true
      by (destruct rec; [discriminate Haddress|reflexivity]).
    cbn [negb].
    erewrite bind_ret_run by reflexivity.
    cbn [getitem]. rewrite Haddress.
    erewrite bind_ret_run by reflexivity.
    erewrite bind_ret_run by reflexivity.
    rewrite Hrecid.
    erewrite bind_ret_run by reflexivity.
    erewrite bind_ret_run by reflexivity.
    match goal with
    | |- context [bind (save_account_to_json w ?a ?f) _ ?s0] =>
        assert (Hload0 : fst (load_accounts_from_json w f s0)
                         = Ret (JArr recs));
        [ rewrite <- Hload; apply load_same_files; cbn;
          by rewrite Hfs2, Hfs1
        | destruct (save_files w f s0 recs a Hload0) as [Hsaved Hfs];
          destruct (save_frame a s0) as [Hsreqs Hsin];
          destruct (save_account_to_json w a f s0) as [saved s3] eqn:Hsave ]
    end.
    cbn [fst snd] in Hsaved, Hfs, Hsreqs, Hsin. subst saved.
    erewrite bind_ret_run by exact Hsave.
    rewrite Htoken. erewrite bind_ret_run by reflexivity.
    exists s3, username, password, rec.
    split; [reflexivity|].
    cbn in Hfs, Hsreqs, Hsin.
    rewrite Hin2, Hin1 in Hsin. rewrite Hreqs2, Hreqs1 in Hsreqs.
    rewrite Hfs2, Hfs1 in Hfs.
    rewrite Hw2, Hw1 in Hfs. cbn in Hfs. rewrite Hwrite in Hfs.
    repeat split; try assumption.
    rewrite Hsreqs. cbn. by rewrite <- !app_assoc. }
  destruct Hbranch
    as (s' & username & password & rec & Hbranch & Hin & Hulen & Hplen
        & Hfs & Haddress & Htoken & Hreqs).
  rewrite (create_branch_selects _ _ _ _ _ Hstdin Hbranch).
  destruct (message_section_empty_run tok s' Htruthy Hinbox)
    as (s'' & Hsection & Hreqs' & Hfs' & Hin' & _).
  erewrite bind_ret_run by exact Hsection.
  cbn [ret fst snd]. split; [reflexivity|]. split; [congruence|].
  exists username, password, rec. cbv zeta.
  repeat split; try assumption.
  - rewrite load_result, Hfs', Hfs, lookup_insert_eq, Hread, loads_dumps.
    reflexivity.
  - rewrite Hreqs', Hreqs, <- app_assoc. reflexivity.
Qed.

End Creation.

(** a server that lists one domain and refuses every account *)
Definition refusing_server (r : request) : http_outcome :=
  match req_method r with
  | GET => mail_server r
  | POST =>
      Resp (mkResponse 422 "Unprocessable Entity" (req_url r)
              (Json (JObj [("detail", JStr "address: already used")])))
  end.

Definition typing (typed : list string) : state :=
  mkState ∅ [] [] typed 0 0.

Definition domains_answer : response :=
  mkResponse 200 "OK" "https://api.mail.tm/domains"
    (Json (JObj [("hydra:member",
                  JArr [JObj [("id", JStr "d1");
                              ("domain", JStr "example.com")]])])).

Lemma creation_without_domains_witness :
  fst (main_iteration offline MailTmAPI_default accounts_file None
         (typing ["1"]))
  = Ret (Continue, None).
Proof.
  refine (proj1 (creation_without_domains offline MailTmAPI_default
                   accounts_file None (typing ["1"]) [] eq_refl _)).
  left. eexists. reflexivity.
Defined.

Lemma domain_selection_out_of_range_witness :
  fst (main_iteration spelled MailTmAPI_default accounts_file None
         (typing ["1"; "5"]))
  = Ret (Continue, None).
Proof.
  refine (proj1 (domain_selection_out_of_range spelled MailTmAPI_default
                   accounts_file None (typing ["1"; "5"]) "5" []
                   domains_answer _ [JStr "example.com"] 5
                   eq_refl eq_refl eq_refl eq_refl eq_refl _ eq_refl _)).
  - discriminate.
  - right. simpl. lia.
Defined.

Lemma domain_selection_not_a_number_witness :
  fst (main_iteration spelled MailTmAPI_default accounts_file None
         (typing ["1"; "first"]))
  = Raise ValueError.
Proof.
  refine (proj1 (domain_selection_not_a_number spelled MailTmAPI_default
                   accounts_file None (typing ["1"; "first"]) "first" []
                   domains_answer _ [JStr "example.com"]
                   eq_refl eq_refl eq_refl eq_refl eq_refl _ eq_refl)).
  discriminate.
Defined.

Lemma refused_creation_stores_nothing_witness :
  fst (main_iteration (world_of refusing_server) MailTmAPI_default
         accounts_file None (typing ["1"; "1"]))
  = Ret (Continue, None).
Proof.
  refine (proj1 (refused_creation_stores_nothing (world_of refusing_server)
                   MailTmAPI_default accounts_file None (typing ["1"; "1"])
                   "1" [] domains_answer _ [JStr "example.com"] 1
                   (JStr "example.com")
                   eq_refl eq_refl eq_refl eq_refl eq_refl eq_refl _
                   eq_refl _)).
  - simpl. lia.
  - intros address password. eexists. split; reflexivity.
Defined.

Lemma creation_stores_the_account_witness :
  fst (main_iteration spelled MailTmAPI_default accounts_file None first_run)
  = Ret (Continue, None).
Proof.
  refine (proj1 (creation_stores_the_account spelled MailTmAPI_default
                   accounts_file None first_run "1" [] domains_answer _
                   [JStr "example.com"] 1 (JStr "example.com")
                   (JStr "eyJ0eXAi") []
                   eq_refl eq_refl eq_refl eq_refl eq_refl eq_refl _
                   eq_refl _ _ eq_refl _ eq_refl eq_refl eq_refl)).
  - simpl. lia.
  - intros address password. eexists _, _, _. repeat split; reflexivity.
  - intros address password. eexists _, _. repeat split; reflexivity.
  - eexists _, _. repeat split; reflexivity.
Defined.

(* ===================================================================== *)
(** ** Reading messages *)
(* ===================================================================== *)

(** a summary the listing can show *)
Definition showable (msg : json) : bool :=
  match msg with
  | JObj d =>
      dict_mem "id" d && dict_mem "subject" d && dict_mem "intro" d
      && match dict_get "from" d with
         | Some (JObj from) => dict_mem "address" from
         | _ => false
         end
  | _ => false
  end.

Section Reading.
Variable w : world.
Variable mailtm_api : MailTmAPI.

Lemma messages_listing_run (msgs : list json) :
  forallb showable msgs = true →
  ∃ lines, ∀ s,
    for_each msgs (λ msg,
      id <- lift (getitem msg "id") ;;
      print ("Message ID: " +:+ fmt w id) ;;;
      from <- lift (getitem msg "from") ;;
      addr <- lift (getitem from "address") ;;
      print ("From: " +:+ fmt w addr) ;;;
      subject <- lift (getitem msg "subject") ;;
      print ("Subject: " +:+ fmt w subject) ;;;
      intro <- lift (getitem msg "intro") ;;
      print ("Intro: " +:+ fmt w intro) ;;;
      print dashes) s
    = (Ret tt, printed lines s).
Proof.
  intros Hmsgs.
  apply (for_each_prints (λ msg, showable msg = true)).
  - intros msg Hmsg.
    destruct msg as [| | | | |d]; try discriminate Hmsg. cbn in Hmsg.
    unfold dict_mem in Hmsg.
    destruct (dict_get "id" d) as [id|] eqn:Eid; [|discriminate].
    destruct (dict_get "subject" d) as [subject|] eqn:Es; [|discriminate].
    destruct (dict_get "intro" d) as [intro|] eqn:Ei; [|discriminate].
    destruct (dict_get "from" d) as [[| | | | |from]|] eqn:Ef;
      try discriminate.
    destruct (dict_get "address" from) as [addr|] eqn:Ea; [|discriminate].
    eexists [_; _; _; _; _]. intros s.
    unfold bind, lift, getitem, print, printed, set_out.
    rewrite Eid, Ef, Ea, Es, Ei. cbn. rewrite <- !app_assoc. reflexivity.
  - apply List.Forall_forall. intros a Ha.
    rewrite forallb_forall in Hmsgs. auto.
Qed.

(** the inbox holds [msgs], and the server says so *)
Definition inbox_holds (tok : json) (msgs : list json) : Prop :=
  ∃ r d,
    net w (messages_request w mailtm_api tok) = Resp r
    ∧ http_error r = false ∧ resp_body r = Json (JObj d)
    ∧ dict_get "hydra:member" d = Some (JArr msgs).

(** Run the message section up to the id typed. *)
Ltac enter_inbox Htruthy Hinbox Hmsgs Hne Hstdin :=
  let r := fresh "r" in
  let d := fresh "d" in
  let Hnet := fresh "Hnet" in
  let Hgood := fresh "Hgood" in
  let Hbody := fresh "Hbody" in
  let Hmember := fresh "Hmember" in
  let shown := fresh "shown" in
  let Hshown := fresh "Hshown" in
  destruct Hinbox as (r & d & Hnet & Hgood & Hbody & Hmember);
  destruct (messages_listing_run _ Hmsgs) as (shown & Hshown);
  destruct Hne as (? & ? & ->);
  unfold message_section; rewrite Htruthy; cbn [negb];
  erewrite bind_ret_run by reflexivity;
  erewrite bind_ret_run
    by (rewrite (get_messages_good_run w mailtm_api _ _ r (JObj d)
                   Hnet Hgood Hbody);
        cbn [getitem]; rewrite Hmember; reflexivity);
  cbn [truthy];
  erewrite (bind_ret_run (bind _ _));
  [|erewrite bind_ret_run by reflexivity;
    erewrite bind_ret_run by reflexivity;
    erewrite bind_ret_run by apply Hshown;
    erewrite bind_ret_run by (apply input_run; exact Hstdin);
    cbv zeta].

(** X25: after the summaries were shown, an empty answer at the prompt
    (nothing but white space) skips the detail view: no message is
    fetched, the listing stays the only request, and [token] is unbound. *)
Theorem empty_id_fetches_nothing (tok : json) (s : state) (line : string)
    (rest : list string) (msgs : list json) :
  truthy tok = true →
  inbox_holds tok msgs →
  msgs ≠ [] → forallb showable msgs = true →
  stdin s = line :: rest →
  strip line = EmptyString →
  let run := message_section w mailtm_api (Some tok) s in
  fst run = Ret None
  ∧ reqs (snd run) = reqs s ++ [messages_request w mailtm_api tok]
  ∧ stdin (snd run) = rest ∧ fs (snd run) = fs s.
Proof.
  cbv zeta. intros Htruthy Hinbox Hnonempty Hmsgs Hstdin Hstrip.
  assert (Hne : ∃ x l, msgs = x :: l) by (destruct msgs; [done|eauto]).
  enter_inbox Htruthy Hinbox Hmsgs Hne Hstdin.
  2:{ rewrite Hstrip. reflexivity. }
  cbn. repeat split.
Qed.

Lemma get_message_content_error_run (token : json) (message_id : string)
    (s : state) (r : response) :
  net w (message_request w mailtm_api token message_id) = Resp r →
  http_error r = true →
  get_message_content w mailtm_api token message_id s
  = (Ret JNull,
     printed (fetch_report message_id r)
       (sent (message_request w mailtm_api token message_id) s)).
Proof.
  intros Hnet Herr. unfold message_request in Hnet. unfold fetch_report.
  run_step. rewrite Hnet. run_step. rewrite raise_for_status_run, Herr.
  run_step. unfold printed, sent, set_out, auth_line, not_found_line.
  destruct (status_code r =? 401), (status_code r =? 404); simpl;
    rewrite <- ?app_assoc; reflexivity.
Qed.

(** X26: the id typed is sent without its surrounding white space, in a
    second request with the same token; when the server refuses it (a
    wrong id, say) the section reports that the content could not be
    retrieved, asks nothing more and unbinds [token]. *)
Theorem refused_message_is_reported (tok : json) (s : state) (line : string)
    (rest : list string) (msgs : list json) (r : response) :
  truthy tok = true →
  inbox_holds tok msgs →
  msgs ≠ [] → forallb showable msgs = true →
  stdin s = line :: rest →
  strip line ≠ EmptyString →
  net w (message_request w mailtm_api tok (strip line)) = Resp r →
  http_error r = true →
  let run := message_section w mailtm_api (Some tok) s in
  fst run = Ret None
  ∧ reqs (snd run)
    = reqs s ++ [messages_request w mailtm_api tok;
                 message_request w mailtm_api tok (strip line)]
  ∧ stdin (snd run) = rest ∧ fs (snd run) = fs s
  ∧ last (out (snd run)) = Some "Failed to retrieve full message content.".
Proof.
  cbv zeta. intros Htruthy Hinbox Hnonempty Hmsgs Hstdin Hstrip Hnet Herr.
  assert (Hne : ∃ x l, msgs = x :: l) by (destruct msgs; [done|eauto]).
  enter_inbox Htruthy Hinbox Hmsgs Hne Hstdin.
  2:{ destruct (String.eqb_spec (strip line) EmptyString) as [E|_];
        [contradiction|].
      erewrite bind_ret_run
        by exact (get_message_content_error_run tok (strip line) _ r Hnet Herr).
      reflexivity. }
  cbn. rewrite last_snoc, <- app_assoc. repeat split.
Qed.

End Reading.

Definition welcome : json :=
  JObj [("id", JStr "m1"); ("from", JObj [("address", JStr "hello@mail.tm")]);
        ("subject", JStr "Welcome"); ("intro", JStr "Your inbox is ready")].

(** a server with one message in the inbox, that knows no other id *)
Definition one_message (r : request) : http_outcome :=
  if String.eqb (req_url r) "https://api.mail.tm/messages"
  then Resp (mkResponse 200 "OK" (req_url r)
               (Json (JObj [("hydra:member", JArr [welcome])])))
  else Resp (mkResponse 404 "Not Found" (req_url r)
               (Json (JObj [("detail", JStr "Not Found")]))).

Lemma empty_id_fetches_nothing_witness :
  fst (message_section (world_of one_message) MailTmAPI_default
         (Some (JStr "eyJ0eXAi")) (typing ["  "]))
  = Ret None.
Proof.
  refine (proj1 (empty_id_fetches_nothing (world_of one_message)
                   MailTmAPI_default (JStr "eyJ0eXAi") (typing ["  "])
                   "  " [] [welcome] eq_refl _ _ eq_refl eq_refl eq_refl)).
  - eexists _, _. repeat split; reflexivity.
  - discriminate.
Defined.

Lemma refused_message_is_reported_witness :
  fst (message_section (world_of one_message) MailTmAPI_default
         (Some (JStr "eyJ0eXAi")) (typing [" m9 "]))
  = Ret None.
Proof.
  refine (proj1 (refused_message_is_reported (world_of one_message)
                   MailTmAPI_default (JStr "eyJ0eXAi") (typing [" m9 "])
                   " m9 " [] [welcome] _ eq_refl _ _ eq_refl eq_refl _
                   eq_refl eq_refl)).
  - eexists _, _. repeat split; reflexivity.
  - discriminate.
  - discriminate.
Defined.
